(** * Synced-Pygame: framing protocol, simulation step, collision engine,
    the server's handling of connections, input and state, and the client's
    input and receiving loops, embedded from [protocol.py], [objects.py],
    [server.py] and [client.py]. *)

From Stdlib.Strings Require Import Byte String.
From Stdlib Require Import ZArith NArith List Bool Lia Floats QArith Qabs.
Import ListNotations.

Set Warnings "-register-all".
Local Open Scope Z_scope.

(** ** The Python values and builtins the sources rely on *)

Module Py.

(** Exception classes that the modelled code raises or catches. *)
Inductive exn : Type :=
| ValueError
| UnicodeDecodeError
| UnicodeEncodeError
| JSONDecodeError
| TypeError
| OverflowError
| ZeroDivisionError
| KeyError
| OSError
| ConnectionResetError
| BrokenPipeError.

(** [except ValueError] also catches the subclasses of [ValueError]. *)
Definition is_ValueError (e : exn) : bool :=
  match e with
  | ValueError | UnicodeDecodeError | UnicodeEncodeError | JSONDecodeError => true
  | _ => false
  end.

Definition is_ConnectionResetError (e : exn) : bool :=
  match e with
  | ConnectionResetError => true
  | _ => false
  end.

(** What a call does: it returns, it raises, or it waits for its peer and
    never comes back. *)
Inductive outcome (A : Type) : Type :=
| Returns (a : A)
| Raises (e : exn)
| Blocks.

Arguments Returns {A} a.
Arguments Raises {A} e.
Arguments Blocks {A}.

(** A [bytes] object, and a [str] as the list of its code points. *)
Definition bytes : Type := list byte.
Definition str : Type := list N.

Definition byte_of_N (n : N) : byte :=
  match Byte.of_N n with
  | Some b => b
  | None => x00
  end.

Definition codes (b : bytes) : list N := map Byte.to_N b.

(** A [str] literal of ASCII characters. *)
Definition str_of_string (s : string) : str :=
  map Byte.to_N (list_byte_of_string s).

Definition bytes_of_string (s : string) : bytes := list_byte_of_string s.

Definition str_eqb (a b : str) : bool :=
  if list_eq_dec N.eq_dec a b then true else false.

(** *** [str.encode()] and [bytes.decode()] : strict UTF-8 *)

Definition is_surrogate (c : N) : bool :=
  ((0xD800 <=? c) && (c <=? 0xDFFF))%N.

Definition utf8_encode_cp (c : N) : option bytes :=
  (if c <? 0x80 then Some [byte_of_N c]
   else if c <? 0x800 then
     Some [byte_of_N (0xC0 + c / 64); byte_of_N (0x80 + c mod 64)]
   else if c <? 0x10000 then
     if is_surrogate c then None
     else Some [byte_of_N (0xE0 + c / 4096);
                byte_of_N (0x80 + (c / 64) mod 64);
                byte_of_N (0x80 + c mod 64)]
   else if c <? 0x110000 then
     Some [byte_of_N (0xF0 + c / 262144);
           byte_of_N (0x80 + (c / 4096) mod 64);
           byte_of_N (0x80 + (c / 64) mod 64);
           byte_of_N (0x80 + c mod 64)]
   else None)%N.

Fixpoint utf8_encode (s : str) : option bytes :=
  match s with
  | [] => Some []
  | c :: t =>
      match utf8_encode_cp c, utf8_encode t with
      | Some b, Some bt => Some (b ++ bt)
      | _, _ => None
      end
  end.

Definition is_cont (b : byte) : bool :=
  ((0x80 <=? Byte.to_N b) && (Byte.to_N b <=? 0xBF))%N.

Definition cont_bits (b : byte) : N := (Byte.to_N b - 0x80)%N.

(** One code point off the front of a byte sequence; overlong forms,
    surrogates, code points past U+10FFFF and truncated sequences are
    refused. *)
Definition utf8_decode_one (bs : bytes) : option (N * bytes) :=
  match bs with
  | [] => None
  | b0 :: t0 =>
      let n0 := Byte.to_N b0 in
      (if n0 <? 0x80 then Some (n0, t0)
       else if n0 <? 0xC2 then None
       else if n0 <? 0xE0 then
         match t0 with
         | b1 :: t1 =>
             if is_cont b1
             then Some ((n0 - 0xC0) * 64 + cont_bits b1, t1)
             else None
         | _ => None
         end
       else if n0 <? 0xF0 then
         match t0 with
         | b1 :: b2 :: t2 =>
             if is_cont b1 && is_cont b2 then
               let c := (n0 - 0xE0) * 4096 + cont_bits b1 * 64 + cont_bits b2 in
               if (c <? 0x800) || is_surrogate c then None else Some (c, t2)
             else None
         | _ => None
         end
       else if n0 <? 0xF5 then
         match t0 with
         | b1 :: b2 :: b3 :: t3 =>
             if is_cont b1 && is_cont b2 && is_cont b3 then
               let c := (n0 - 0xF0) * 262144 + cont_bits b1 * 4096
                        + cont_bits b2 * 64 + cont_bits b3 in
               if (c <? 0x10000) || (0x10FFFF <? c) then None else Some (c, t3)
             else None
         | _ => None
         end
       else None)%N
  end.

Fixpoint utf8_decode_fuel (fuel : nat) (bs : bytes) : option str :=
  match bs with
  | [] => Some []
  | _ :: _ =>
      match fuel with
      | O => None
      | S f =>
          match utf8_decode_one bs with
          | Some (c, rest) => option_map (cons c) (utf8_decode_fuel f rest)
          | None => None
          end
      end
  end.

(** Every step consumes a byte, so the length is fuel enough. *)
Definition utf8_decode (bs : bytes) : option str :=
  utf8_decode_fuel (length bs) bs.

Definition encode (s : str) : outcome bytes :=
  match utf8_encode s with
  | Some b => Returns b
  | None => Raises UnicodeEncodeError
  end.

Definition decode (b : bytes) : outcome str :=
  match utf8_decode b with
  | Some s => Returns s
  | None => Raises UnicodeDecodeError
  end.

(** *** [str(n)], [hex(n)], [str.zfill] and slicing *)

Definition digit_char (d : N) : N :=
  (if d <? 10 then 48 + d else 87 + d)%N.

Fixpoint digits_fuel (base : N) (fuel : nat) (n : N) (acc : str) : str :=
  match fuel with
  | O => acc
  | S f =>
      let acc' := digit_char (n mod base)%N :: acc in
      if (n <? base)%N then acc' else digits_fuel base f (n / base)%N acc'
  end.

(** The digits of [n], most significant first; a number has no more digits
    than bits. *)
Definition digits (base : N) (n : N) : str :=
  digits_fuel base (S (N.size_nat n)) n [].

Definition minus_sign : N := 45%N.
Definition plus_sign : N := 43%N.
Definition zero_char : N := 48%N.
Definition underscore : N := 95%N.

Definition str_of_int (z : Z) : str :=
  if z <? 0 then minus_sign :: digits 10 (Z.abs_N z) else digits 10 (Z.abs_N z).

Definition hex (z : Z) : str :=
  let body := zero_char :: 120%N :: digits 16 (Z.abs_N z) in
  if z <? 0 then minus_sign :: body else body.

(** [s.zfill(width)]: zeros go after a leading sign. *)
Definition zfill (width : nat) (s : str) : str :=
  let fill := repeat zero_char (width - length s) in
  match s with
  | c :: t =>
      if (c =? plus_sign)%N || (c =? minus_sign)%N then c :: fill ++ t
      else fill ++ s
  | [] => fill
  end.

Definition len {A} (l : list A) : Z := Z.of_nat (length l).

(** [s[lo:hi]] with the indices Python allows: a negative index counts from
    the end, [None] is the end on its side, and both are clamped. *)
Definition slice_index {A} (l : list A) (i : Z) : Z :=
  let i' := if i <? 0 then len l + i else i in
  Z.max 0 (Z.min i' (len l)).

Definition slice {A} (l : list A) (lo hi : option Z) : list A :=
  let a := match lo with Some i => slice_index l i | None => 0 end in
  let b := match hi with Some i => slice_index l i | None => len l end in
  firstn (Z.to_nat (b - a)) (skipn (Z.to_nat a) l).

(** *** [int(x, base)] on the characters of a [bytes] or an ASCII [str] *)

Definition is_space (c : N) : bool :=
  ((c =? 32) || ((9 <=? c) && (c <=? 13)))%N.

(** The value of a digit character, as [int] reads it in bases up to 36. *)
Definition digit_value (c : N) : option Z :=
  (if (48 <=? c) && (c <=? 57) then Some (Z.of_N (c - 48))
   else if (97 <=? c) && (c <=? 122) then Some (Z.of_N (c - 87))
   else if (65 <=? c) && (c <=? 90) then Some (Z.of_N (c - 55))
   else None)%N.

Definition is_digit (base : Z) (c : N) : bool :=
  match digit_value c with
  | Some d => d <? base
  | None => false
  end.

(** The run of digits, single underscores allowed between two digits; what
    follows the run is returned with the value. *)
Fixpoint scan_digits (base : Z) (after_underscore : bool) (acc : Z) (s : str)
  : option (Z * str) :=
  match s with
  | [] => if after_underscore then None else Some (acc, [])
  | c :: t =>
      if (c =? underscore)%N then
        if after_underscore then None else scan_digits base true acc t
      else
        match digit_value c with
        | Some d =>
            if d <? base then scan_digits base false (acc * base + d) t
            else if after_underscore then None else Some (acc, s)
        | None => if after_underscore then None else Some (acc, s)
        end
  end.

Fixpoint lstrip (s : str) : str :=
  match s with
  | c :: t => if is_space c then lstrip t else s
  | [] => []
  end.

Definition strip_sign (s : str) : bool * str :=
  match s with
  | c :: t =>
      if (c =? plus_sign)%N then (false, t)
      else if (c =? minus_sign)%N then (true, t)
      else (false, s)
  | [] => (false, [])
  end.

(** The prefix [0x], [0o] or [0b] of the matching base, and one underscore
    after it. *)
Definition strip_prefix (base : Z) (s : str) : str :=
  match s with
  | z :: p :: t =>
      if (z =? zero_char)%N &&
         (((base =? 16) && ((p =? 120) || (p =? 88))%N)
          || ((base =? 8) && ((p =? 111) || (p =? 79))%N)
          || ((base =? 2) && ((p =? 98) || (p =? 66))%N))
      then match t with
           | u :: t' => if (u =? underscore)%N then t' else t
           | [] => t
           end
      else s
  | _ => s
  end.

Definition parse_int (base : Z) (s : str) : option Z :=
  let (negative, s1) := strip_sign (lstrip s) in
  let s2 := strip_prefix base s1 in
  match s2 with
  | c :: _ =>
      if is_digit base c then
        match scan_digits base false 0 s2 with
        | Some (v, rest) =>
            match lstrip rest with
            | [] => Some (if negative then - v else v)
            | _ :: _ => None
            end
        | None => None
        end
      else None
  | [] => None
  end.

Definition int_of_bytes (b : bytes) : outcome Z :=
  match parse_int 10 (codes b) with
  | Some z => Returns z
  | None => Raises ValueError
  end.

(** [int(s, base)] for a [str] of ASCII characters, as [hex] returns them. *)
Definition int_of_str (s : str) (base : Z) : outcome Z :=
  match parse_int base s with
  | Some z => Returns z
  | None => Raises ValueError
  end.

End Py.

(** ** State and exceptions

    A computation reads and writes a state of type [S]; the state it leaves
    behind is kept when it raises or blocks, as the objects it mutated are. *)

Module Eff.
Import Py.

Definition M (S A : Type) : Type := S -> outcome A * S.

Definition ret {S A} (a : A) : M S A := fun s => (Returns a, s).

Definition bind {S A B} (m : M S A) (k : A -> M S B) : M S B :=
  fun s =>
    match m s with
    | (Returns a, s') => k a s'
    | (Raises e, s') => (Raises e, s')
    | (Blocks, s') => (Blocks, s')
    end.

(** A call that does not touch the state. *)
Definition lift {S A} (o : outcome A) : M S A := fun s => (o, s).

(** [try: body  except cls: handler] *)
Definition try_except {S A} (body : M S A) (cls : exn -> bool) (handler : M S A)
  : M S A :=
  fun s =>
    match body s with
    | (Raises e, s') => if cls e then handler s' else (Raises e, s')
    | r => r
    end.

(** A computation on a part of the state. *)
Definition zoom {S T A} (get : S -> T) (set : T -> S -> S) (m : M T A) : M S A :=
  fun s => let (o, t') := m (get s) in (o, set t' s).

End Eff.

Declare Scope eff_scope.
Delimit Scope eff_scope with eff.
Notation "x <- c ;; k" := (Eff.bind c (fun x => k))
  (at level 61, c at next level, right associativity) : eff_scope.
Notation "c ;;; k" := (Eff.bind c (fun _ => k))
  (at level 61, right associativity) : eff_scope.

(** ** A connected stream socket

    [inbound] holds the bytes that have arrived and were not read yet, in
    order; [peer] is what is known of the other end; [outbound] collects
    what [send] accepted; [closed] is set by [close].

    The other end is open, has closed its side in order ([PeerClosed]: the
    stream ends after the bytes that arrived), or has reset the connection.
    A reset is an error that the socket keeps until one call has reported
    it ([PeerReset]); from then on ([PeerGone]) the stream reads as ended
    and the pipe is broken for writing. *)

Module Socket.
Import Py.

Inductive peer_state : Type :=
| PeerOpen
| PeerClosed
| PeerReset
| PeerGone.

Record t : Type := mk {
  inbound : bytes;
  peer : peer_state;
  outbound : bytes;
  closed : bool
}.

Definition with_inbound (b : bytes) (s : t) : t :=
  mk b (peer s) (outbound s) (closed s).

Definition with_outbound (b : bytes) (s : t) : t :=
  mk (inbound s) (peer s) b (closed s).

Definition with_peer (p : peer_state) (s : t) : t :=
  mk (inbound s) p (outbound s) (closed s).

(** [sock.recv(bufsize)]: a negative size is a [ValueError], a size of zero
    returns at once, and otherwise the call hands over what has arrived, up
    to [bufsize] bytes.  With nothing left it returns [b''] after the peer
    closed, reports a reset once by raising, and waits while the peer is
    silent. *)
Definition recv (bufsize : Z) : Eff.M t bytes :=
  fun s =>
    if bufsize <? 0 then (Raises ValueError, s)
    else if bufsize =? 0 then (Returns [], s)
    else if closed s then (Raises OSError, s)
    else
      match inbound s with
      | [] =>
          match peer s with
          | PeerOpen => (Blocks, s)
          | PeerClosed => (Returns [], s)
          | PeerReset => (Raises ConnectionResetError, with_peer PeerGone s)
          | PeerGone => (Returns [], s)
          end
      | _ :: _ =>
          (Returns (firstn (Z.to_nat bufsize) (inbound s)),
           with_inbound (skipn (Z.to_nat bufsize) (inbound s)) s)
      end.

(** [sock.send(data)]: on a connection that was reset the call fails, with
    the pending [ConnectionResetError] when no call has reported the reset
    yet and with [BrokenPipeError] afterwards; nothing is queued then.
    Otherwise the bytes are queued for the peer, also when the peer has
    closed its own side.  The messages of this program are short: the
    buffer of the connection is taken to have room for the whole of
    [data], so that [send] neither waits nor accepts a part only (the
    sources never look at the count it returns). *)
Definition send (data : bytes) : Eff.M t Z :=
  fun s =>
    if closed s then (Raises OSError, s)
    else
      match peer s with
      | PeerReset => (Raises ConnectionResetError, with_peer PeerGone s)
      | PeerGone => (Raises BrokenPipeError, s)
      | PeerOpen | PeerClosed =>
          (Returns (len data), with_outbound (outbound s ++ data) s)
      end.

Definition close : Eff.M t unit :=
  fun s => (Returns tt, mk (inbound s) (peer s) (outbound s) true).

(** [select.select([sock], [], [], 0)]: readable when a [recv] would not
    wait. *)
Definition readable (s : t) : bool :=
  match inbound s, peer s with
  | [], PeerOpen => false
  | _, _ => true
  end.

Definition select_ready : Eff.M t bool :=
  fun s =>
    if closed s then (Raises ValueError, s) else (Returns (readable s), s).

(** A fresh connection on which [data] has arrived. *)
Definition incoming (data : bytes) (p : peer_state) : t := mk data p [] false.

End Socket.

(** ** [json.dumps] of a list of strings *)

Module Json.
Import Py.

Definition hex4 (n : N) : str :=
  [digit_char ((n / 4096) mod 16); digit_char ((n / 256) mod 16);
   digit_char ((n / 16) mod 16); digit_char (n mod 16)]%N.

Definition backslash : N := 92%N.
Definition quote : N := 34%N.

Definition unicode_escape (n : N) : str := backslash :: 117%N :: hex4 n.

(** [ensure_ascii] is on: whatever is not a printable ASCII character is
    written as an escape. *)
Definition escape_char (c : N) : str :=
  (if c =? quote then [backslash; quote]
   else if c =? backslash then [backslash; backslash]
   else if c =? 10 then [backslash; 110]
   else if c =? 13 then [backslash; 114]
   else if c =? 9 then [backslash; 116]
   else if c =? 12 then [backslash; 102]
   else if c =? 8 then [backslash; 98]
   else if (32 <=? c) && (c <=? 126) then [c]
   else if c <? 0x10000 then unicode_escape c
   else unicode_escape (0xD800 + (c - 0x10000) / 1024)
        ++ unicode_escape (0xDC00 + (c - 0x10000) mod 1024))%N.

Definition dumps_str (s : str) : str :=
  quote :: flat_map escape_char s ++ [quote].

Fixpoint join (sep : str) (items : list str) : str :=
  match items with
  | [] => []
  | [x] => x
  | x :: rest => x ++ sep ++ join sep rest
  end.

(** [json.dumps(items)] for [items : list[str]]. *)
Definition dumps (items : list str) : str :=
  91%N :: join [44%N; 32%N] (map dumps_str items) ++ [93%N].

(** [json.dumps(d)] for [d : dict[str, str]]. *)
Definition dumps_dict (d : list (str * str)) : str :=
  123%N :: join [44%N; 32%N]
             (map (fun kv => dumps_str (fst kv) ++ [58%N; 32%N] ++ dumps_str (snd kv)) d)
  ++ [125%N].

End Json.

(** ** protocol.py *)

Module Protocol.
Import Py.
Local Open Scope eff_scope.

Definition LENGTH_HEADER : Z := 8.

Definition QUIT : str := str_of_string "QUIT".

(** [json.dumps(["QUIT"])] *)
Definition QUIT_message : str := Json.dumps [QUIT].

Definition send_message (json_data : str) : Eff.M Socket.t unit :=
  data <- Eff.lift (encode json_data) ;;
  let data_length := len data in
  header <- Eff.lift (encode (zfill (Z.to_nat LENGTH_HEADER) (str_of_int data_length))) ;;
  let data := header ++ data in
  Socket.send data ;;;
  Eff.ret tt.

Definition receive_message : Eff.M Socket.t str :=
  got <- Eff.try_except
           (data_length_bytes <- Socket.recv LENGTH_HEADER ;;
            Eff.ret (inr data_length_bytes))
           is_ConnectionResetError
           (Eff.ret (inl QUIT_message)) ;;
  match got with
  | inl quit => Eff.ret quit
  | inr data_length_bytes =>
      Eff.try_except
        (data_length <- Eff.lift (int_of_bytes data_length_bytes) ;;
         data <- Socket.recv data_length ;;
         data <- Eff.lift (decode data) ;;
         Eff.ret data)
        is_ValueError
        (Eff.ret QUIT_message)
  end.

End Protocol.

(** ** Python numbers: [Number = int | float] *)

Module Number.
Import Py.

Inductive t : Type :=
| PyInt (z : Z)
| PyFloat (f : float).

(** [float(z)]: the nearest double, ties to even; too large an [int] is an
    [OverflowError]. *)
Definition float_of_int (z : Z) : outcome float :=
  let f := SF2Prim (binary_normalize prec emax z 0 false) in
  if is_infinity f then Raises OverflowError else Returns f.

Definition to_float (a : t) : outcome float :=
  match a with
  | PyInt z => float_of_int z
  | PyFloat f => Returns f
  end.

Definition bind {A B} (o : outcome A) (k : A -> outcome B) : outcome B :=
  match o with
  | Returns a => k a
  | Raises e => Raises e
  | Blocks => Blocks
  end.

Definition float_op (op : float -> float -> float) (a b : t) : outcome t :=
  bind (to_float a) (fun x => bind (to_float b) (fun y => Returns (PyFloat (op x y)))).

Definition add (a b : t) : outcome t :=
  match a, b with
  | PyInt x, PyInt y => Returns (PyInt (x + y))
  | _, _ => float_op PrimFloat.add a b
  end.

Definition sub (a b : t) : outcome t :=
  match a, b with
  | PyInt x, PyInt y => Returns (PyInt (x - y))
  | _, _ => float_op PrimFloat.sub a b
  end.

Definition mul (a b : t) : outcome t :=
  match a, b with
  | PyInt x, PyInt y => Returns (PyInt (x * y))
  | _, _ => float_op PrimFloat.mul a b
  end.

Definition neg (a : t) : t :=
  match a with
  | PyInt x => PyInt (- x)
  | PyFloat f => PyFloat (- f)%float
  end.

Definition abs (a : t) : t :=
  match a with
  | PyInt x => PyInt (Z.abs x)
  | PyFloat f => PyFloat (PrimFloat.abs f)
  end.

(** [a / b] on two [int]s: the quotient rounded once, to the nearest double.
    The scaled quotient keeps more than 55 bits and a sticky bit for the
    remainder, so that rounding it is rounding the exact quotient. *)
Definition int_true_div (a b : Z) : outcome float :=
  if b =? 0 then Raises ZeroDivisionError
  else
    let negate := xorb (a <? 0) (b <? 0) in
    if a =? 0 then Returns (if negate then neg_zero else zero)
    else
      let n := Z.abs a in
      let d := Z.abs b in
      let s := Z.max 0 (56 + Z.log2 d - Z.log2 n) in
      let q := (n * 2 ^ s) / d in
      let sticky := if (n * 2 ^ s) mod d =? 0 then 0 else 1 in
      let m := 2 * q + sticky in
      let f := SF2Prim (binary_normalize prec emax (if negate then - m else m)
                                         (- s - 1) false) in
      if is_infinity f then Raises OverflowError else Returns f.

Definition float_div (x y : float) : outcome float :=
  if (y =? 0)%float then Raises ZeroDivisionError else Returns (x / y)%float.

Definition div (a b : t) : outcome t :=
  match a, b with
  | PyInt x, PyInt y => bind (int_true_div x y) (fun f => Returns (PyFloat f))
  | _, _ =>
      bind (to_float a) (fun x =>
      bind (to_float b) (fun y =>
      bind (float_div x y) (fun f => Returns (PyFloat f))))
  end.

(** Comparison is exact, also between an [int] and a [float]; with a NaN
    nothing compares. *)
Definition compare_int_float (z : Z) (f : float) : option comparison :=
  match Prim2SF f with
  | S754_nan => None
  | S754_infinity negative => Some (if negative then Gt else Lt)
  | S754_zero _ => Some (z ?= 0)
  | S754_finite negative m e =>
      let v := if negative then Z.neg m else Z.pos m in
      Some (if 0 <=? e then z ?= v * 2 ^ e else z * 2 ^ (- e) ?= v)
  end.

Definition compare (a b : t) : option comparison :=
  match a, b with
  | PyInt x, PyInt y => Some (x ?= y)
  | PyInt x, PyFloat g => compare_int_float x g
  | PyFloat f, PyInt y => option_map CompOpp (compare_int_float y f)
  | PyFloat f, PyFloat g =>
      match (f ?= g)%float with
      | FEq => Some Eq
      | FLt => Some Lt
      | FGt => Some Gt
      | FNotComparable => None
      end
  end.

Definition eqb (a b : t) : bool :=
  match compare a b with Some Eq => true | _ => false end.
Definition ltb (a b : t) : bool :=
  match compare a b with Some Lt => true | _ => false end.
Definition gtb (a b : t) : bool :=
  match compare a b with Some Gt => true | _ => false end.

End Number.

(** ** objects.py *)

Module Objects.
Import Py.

Definition FRICTION : float := 0x1.999999999999ap-4%float.

(** [pygame.Rect]: position and size are four C [int]s; the other
    attributes are computed from them in C, where a result that leaves the
    range of [int] wraps around. *)
Module Rect.

Record t : Type := mk { x : Z; y : Z; w : Z; h : Z }.

Definition INT_MIN : Z := - 2 ^ 31.
Definition INT_MAX : Z := 2 ^ 31 - 1.

(** The C [int] that a result is stored as. *)
Definition wrap (z : Z) : Z := (z + 2 ^ 31) mod 2 ^ 32 - 2 ^ 31.

Definition left (r : t) : Z := x r.
Definition top (r : t) : Z := y r.
Definition width (r : t) : Z := w r.
Definition height (r : t) : Z := h r.
Definition right (r : t) : Z := wrap (x r + w r).
Definition bottom (r : t) : Z := wrap (y r + h r).
Definition centerx (r : t) : Z := wrap (x r + Z.shiftr (w r) 1).
Definition centery (r : t) : Z := wrap (y r + Z.shiftr (h r) 1).

Definition set_topleft (r : t) (p : Z * Z) : t := mk (fst p) (snd p) (w r) (h r).

(** The box with the given edges. *)
Definition of_edges (l t r b : Z) : Rect.t := mk l t (r - l) (b - t).

(** The box of the given size around a centre. *)
Definition centered (cx cy w h : Z) : Rect.t :=
  mk (cx - Z.shiftr w 1) (cy - Z.shiftr h 1) w h.

(** [r.inflate(x, y)]: the size grows by [(x, y)] around the same centre;
    pygame halves the growth with C division, which truncates toward zero. *)
Definition inflate (r : t) (x y : Z) : t :=
  mk (wrap (Rect.x r - Z.quot x 2)) (wrap (Rect.y r - Z.quot y 2))
     (wrap (w r + x)) (wrap (h r + y)).

End Rect.

(** [pygame.math.Vector2]: two doubles. *)
Module Vector2.

Record t : Type := mk { x : float; y : float }.

Definition add (a b : t) : t := mk (x a + x b)%float (y a + y b)%float.
Definition neg (a : t) : t := mk (- x a)%float (- y a)%float.
Definition scale (a : t) (k : float) : t := mk (x a * k)%float (y a * k)%float.
Definition with_x (a : t) (v : float) : t := mk v (y a).
Definition with_y (a : t) (v : float) : t := mk (x a) v.

End Vector2.

Definition uuid : Type := N.
Definition color : Type := (Z * Z * Z)%type.

Definition LEFT : str := str_of_string "LEFT".
Definition RIGHT : str := str_of_string "RIGHT".
Definition UP : str := str_of_string "UP".
Definition DOWN : str := str_of_string "DOWN".

(** [x in actions] for a list of strings. *)
Definition contains (x : str) (actions : list str) : bool :=
  existsb (str_eqb x) actions.

Section Sprites.

(** How pygame turns a coordinate into the C [int] a [Rect] stores; [None]
    when it refuses the value (a number outside the range of [int], or one
    that is not finite). *)
Variable rect_coordinate : Number.t -> option Z.

Record Player : Type := mkPlayer {
  rect : Rect.t;
  id : uuid;
  pos : Vector2.t;
  vel : Vector2.t;
  acc : Vector2.t;
  player_color : color
}.

(** [r.topleft = (x, y)]: both coordinates are converted before either is
    stored, and a value that pygame refuses is a [TypeError]. *)
Definition assign_topleft (r : Rect.t) (x y : Number.t) : outcome Rect.t :=
  match rect_coordinate x, rect_coordinate y with
  | Some cx, Some cy => Returns (Rect.set_topleft r (cx, cy))
  | _, _ => Raises TypeError
  end.

(** [Player.__init__]: the box of the 50 by 50 surface is moved first, then
    the vectors are made; the surface only serves drawing and is left
    out. *)
Definition Player_init (id : uuid) (x y : Number.t) (c : color) : outcome Player :=
  Number.bind (assign_topleft (Rect.mk 0 0 50 50) x y) (fun rect =>
  Number.bind (Number.to_float x) (fun fx =>
  Number.bind (Number.to_float y) (fun fy =>
  Returns
    (mkPlayer rect id (Vector2.mk fx fy) (Vector2.mk 0 0) (Vector2.mk 0 0) c)))).

(** The first part of [Player.update], up to [self.pos += self.vel]: the
    three vectors of the player are written, the box is not touched. *)
Definition integrate (self : Player) (actions : list str) : Player :=
  let acc := Vector2.mk 0 0 in
  let force := Vector2.mk 0 0 in
  let force :=
    if contains LEFT actions
    then Vector2.with_x force (Vector2.x force + (-1))%float else force in
  let force :=
    if contains RIGHT actions
    then Vector2.with_x force (Vector2.x force + 1)%float else force in
  let force :=
    if contains UP actions
    then Vector2.with_y force (Vector2.y force + (-1))%float else force in
  let force :=
    if contains DOWN actions
    then Vector2.with_y force (Vector2.y force + 1)%float else force in
  let acc := Vector2.add acc
               (Vector2.add force (Vector2.neg (Vector2.scale (vel self) FRICTION))) in
  let vel := Vector2.add (vel self) acc in
  let pos := Vector2.add (pos self) vel in
  mkPlayer (rect self) (id self) pos vel acc (player_color self).

Definition with_rect (r : Rect.t) (self : Player) : Player :=
  mkPlayer r (id self) (pos self) (vel self) (acc self) (player_color self).

(** [Player.update]: the method changes the player it is called on.  The
    vectors are written before the box is moved, so when that last
    assignment raises, the player is left with its new vectors and its old
    box. *)
Definition update (self : Player) (actions : list str) : outcome unit * Player :=
  let self := integrate self actions in
  match assign_topleft (rect self) (Number.PyFloat (Vector2.x (pos self)))
                       (Number.PyFloat (Vector2.y (pos self))) with
  | Returns rect => (Returns tt, with_rect rect self)
  | Raises e => (Raises e, self)
  | Blocks => (Blocks, self)
  end.

Definition setPos (self : Player) (x y : Number.t) : outcome unit * Player :=
  match Number.bind (Number.to_float x) (fun fx =>
        Number.bind (Number.to_float y) (fun fy => Returns (Vector2.mk fx fy))) with
  | Returns pos =>
      match assign_topleft (rect self) x y with
      | Returns rect =>
          (Returns tt,
           mkPlayer rect (id self) pos (vel self) (acc self) (player_color self))
      | Raises e =>
          (Raises e,
           mkPlayer (rect self) (id self) pos (vel self) (acc self) (player_color self))
      | Blocks =>
          (Blocks,
           mkPlayer (rect self) (id self) pos (vel self) (acc self) (player_color self))
      end
  | Raises e => (Raises e, self)
  | Blocks => (Blocks, self)
  end.

(** [n] ticks with the same intents; an exception ends the run. *)
Fixpoint ticks (n : nat) (self : Player) (actions : list str)
  : outcome unit * Player :=
  match n with
  | O => (Returns tt, self)
  | S k =>
      match update self actions with
      | (Returns _, self') => ticks k self' actions
      | failed => failed
      end
  end.

End Sprites.

(** What the collision checks return: whether there is a hit, the point,
    and the side (0 right, 1 left, 2 bottom, 3 top, -1 for the static
    check). *)
Definition hit : Type := (bool * (Number.t * Number.t) * Z)%type.

Definition miss : hit := (false, (Number.PyInt 0, Number.PyInt 0), -1).

Record clip : Type := mkClip { t0 : Number.t; t1 : Number.t; side_hit : Z }.

(** One round of the loop: the function returns ([inl]) or goes on to the
    next side ([inr]). *)
Definition side (i : Z) (p q : Number.t) (c : clip) : outcome (hit + clip) :=
  if Number.eqb p (Number.PyInt 0) then
    if Number.ltb q (Number.PyInt 0) then Returns (inl miss) else Returns (inr c)
  else if Number.ltb p (Number.PyInt 0) then
    Number.bind (Number.div q p) (fun r =>
      if Number.gtb r (t1 c) then Returns (inl miss)
      else if Number.gtb r (t0 c) then Returns (inr (mkClip r (t1 c) i))
      else Returns (inr c))
  else if Number.gtb p (Number.PyInt 0) then
    Number.bind (Number.div q p) (fun r =>
      if Number.ltb r (t0 c) then Returns (inl miss)
      else if Number.ltb r (t1 c) then Returns (inr (mkClip (t0 c) r (side_hit c)))
      else Returns (inr c))
  else Returns (inr c).

Fixpoint sides (i : Z) (pq : list (Number.t * Number.t)) (c : clip)
  : outcome (hit + clip) :=
  match pq with
  | [] => Returns (inr c)
  | (p, q) :: rest =>
      Number.bind (side i p q c) (fun r =>
        match r with
        | inl h => Returns (inl h)
        | inr c' => sides (i + 1) rest c'
        end)
  end.

Definition segment_check (start end_ : Number.t * Number.t) (box : Rect.t)
  : outcome hit :=
  Number.bind (Number.sub (fst end_) (fst start)) (fun deltaX =>
  Number.bind (Number.sub (snd end_) (snd start)) (fun deltaY =>
  let p := [Number.neg deltaX; deltaX; Number.neg deltaY; deltaY] in
  Number.bind (Number.sub (fst start) (Number.PyInt (Rect.left box))) (fun q0 =>
  Number.bind (Number.sub (Number.PyInt (Rect.right box)) (fst start)) (fun q1 =>
  Number.bind (Number.sub (snd start) (Number.PyInt (Rect.top box))) (fun q2 =>
  Number.bind (Number.sub (Number.PyInt (Rect.bottom box)) (snd start)) (fun q3 =>
  let q := [q0; q1; q2; q3] in
  Number.bind (sides 0 (combine p q) (mkClip (Number.PyInt 0) (Number.PyInt 1) (-1)))
    (fun r =>
       match r with
       | inl h => Returns h
       | inr c =>
           Number.bind (Number.mul (t0 c) deltaX) (fun dx =>
           Number.bind (Number.add (fst start) dx) (fun intersectionX =>
           Number.bind (Number.mul (t0 c) deltaY) (fun dy =>
           Number.bind (Number.add (snd start) dy) (fun intersectionY =>
           Returns (true, (intersectionX, intersectionY), side_hit c)))))
       end))))))).

Definition static_body_check (box1 box2 : Rect.t) : outcome hit :=
  let two := Number.PyInt 2 in
  let delta_x := Rect.centerx box2 - Rect.centerx box1 in
  Number.bind (Number.div (Number.PyInt (Rect.width box1)) two) (fun hw1 =>
  Number.bind (Number.sub (Number.PyInt (Z.abs delta_x)) hw1) (fun gx =>
  Number.bind (Number.div (Number.PyInt (Rect.width box2)) two) (fun hw2 =>
  Number.bind (Number.sub gx hw2) (fun gap_x =>
  let delta_y := Rect.centery box2 - Rect.centery box1 in
  Number.bind (Number.div (Number.PyInt (Rect.height box1)) two) (fun hh1 =>
  Number.bind (Number.sub (Number.PyInt (Z.abs delta_y)) hh1) (fun gy =>
  Number.bind (Number.div (Number.PyInt (Rect.height box2)) two) (fun hh2 =>
  Number.bind (Number.sub gy hh2) (fun gap_y =>
  if Number.gtb (Number.abs gap_x) (Number.abs gap_y) then
    if delta_y <? 0 then
      Returns (true, (Number.PyInt (Rect.left box1),
                      Number.PyInt (Rect.bottom box2)), 2)
    else
      Returns (true, (Number.PyInt (Rect.left box1),
                      Number.PyInt (Rect.top box2 - Rect.height box1 - 1)), 3)
  else
    if delta_x <? 0 then
      Returns (true, (Number.PyInt (Rect.right box1),
                      Number.PyInt (Rect.top box1)), 0)
    else
      Returns (true, (Number.PyInt (Rect.left box2 - Rect.width box1),
                      Number.PyInt (Rect.top box1)), 1))))))))).

(** An [Obstacle] once built: its box, identity and colour. *)
Record Obstacle : Type := mkObstacle {
  obstacle_rect : Rect.t;
  obstacle_id : uuid;
  obstacle_color : color
}.

(** The loop of [check_collision] over the obstacles of the group, in the
    order the group yields them. *)
Fixpoint check_obstacles (player : Player) (start end_ : Number.t * Number.t)
  (obstacles : list Obstacle) : outcome hit :=
  match obstacles with
  | [] => Returns (false, (Number.PyInt 0, Number.PyInt 0), 0)
  | obstacle :: rest =>
      let padded_rect := Rect.inflate (obstacle_rect obstacle)
                           (Rect.width (rect player)) (Rect.height (rect player)) in
      Number.bind (segment_check start end_ padded_rect) (fun r =>
        let '(collides, collision_point, side_hit) := r in
        if (collides : bool) then
          if side_hit =? -1 then
            static_body_check (rect player) (obstacle_rect obstacle)
          else
            Number.bind (Number.div (Number.PyInt (Rect.width (rect player)))
                                    (Number.PyInt 2)) (fun half_width =>
            Number.bind (Number.sub (fst collision_point) half_width) (fun x =>
            Number.bind (Number.div (Number.PyInt (Rect.height (rect player)))
                                    (Number.PyInt 2)) (fun half_height =>
            Number.bind (Number.sub (snd collision_point) half_height) (fun y =>
            Returns (true, (x, y), side_hit)))))
        else check_obstacles player start end_ rest)
  end.

Definition check_collision (player : Player) (obstacles : list Obstacle) : outcome hit :=
  let start := (Number.PyInt (Rect.centerx (rect player)),
                Number.PyInt (Rect.centery (rect player))) in
  Number.bind (Number.add (Number.PyInt (Rect.centerx (rect player)))
                          (Number.PyFloat (Vector2.x (vel player)))) (fun end_x =>
  Number.bind (Number.add (Number.PyInt (Rect.centery (rect player)))
                          (Number.PyFloat (Vector2.y (vel player)))) (fun end_y =>
  check_obstacles player start (end_x, end_y) obstacles)).

End Objects.

(** ** A [dict]: keys are unique and keep the order in which they came in *)

Module Dict.
Section Dict.
Context {K V : Type} (eqb : K -> K -> bool).

Definition t : Type := list (K * V).

Fixpoint get (k : K) (d : t) : option V :=
  match d with
  | [] => None
  | (k', v) :: rest => if eqb k k' then Some v else get k rest
  end.

(** [d[k] = v] *)
Fixpoint set (k : K) (v : V) (d : t) : t :=
  match d with
  | [] => [(k, v)]
  | (k', v') :: rest => if eqb k k' then (k', v) :: rest else (k', v') :: set k v rest
  end.

Fixpoint remove (k : K) (d : t) : t :=
  match d with
  | [] => []
  | (k', v') :: rest => if eqb k k' then rest else (k', v') :: remove k rest
  end.

(** [del d[k]] *)
Definition del (k : K) (d : t) : option t :=
  match get k d with
  | Some _ => Some (remove k d)
  | None => None
  end.

Definition keys (d : t) : list K := map fst d.

End Dict.
End Dict.

(** ** server.py *)

Module Server.
Import Py Objects.
Local Open Scope eff_scope.

(** The values [json.loads] can return. *)
Inductive pyval : Type :=
| PNone
| PBool (b : bool)
| PInt (z : Z)
| PFloat (f : float)
| PStr (s : str)
| PList (l : list pyval)
| PDict (d : list (str * pyval)).

Definition is_str (s : str) (v : pyval) : bool :=
  match v with
  | PStr s' => str_eqb s s'
  | _ => false
  end.

Fixpoint is_prefix (a b : str) : bool :=
  match a, b with
  | [], _ => true
  | x :: a', y :: b' => (x =? y)%N && is_prefix a' b'
  | _ :: _, [] => false
  end.

Fixpoint is_substring (a b : str) : bool :=
  is_prefix a b || match b with [] => false | _ :: b' => is_substring a b' end.

(** [s in v]: membership in a list, a key of a dict, a substring of a
    string; the other values are not containers. *)
Definition py_in (s : str) (v : pyval) : outcome bool :=
  match v with
  | PList l => Returns (existsb (is_str s) l)
  | PDict d => Returns (existsb (fun kv => str_eqb s (fst kv)) d)
  | PStr s' => Returns (is_substring s s')
  | _ => Raises TypeError
  end.

Definition intents (l : list str) : pyval := PList (map PStr l).

Section Server.

(** The interpreter's [hash] of a string and [json.loads]. *)
Variable hash : str -> Z.
Variable json_loads : str -> outcome pyval.

Definition strToRGB (string : str) : outcome (Z * Z * Z) :=
  let hexa := hex (hash string) in
  Number.bind (int_of_str (slice hexa (Some (-2)) None) 16) (fun r =>
  Number.bind (int_of_str (slice hexa (Some (-4)) (Some (-2))) 16) (fun g =>
  Number.bind (int_of_str (slice hexa (Some (-6)) (Some (-4))) 16) (fun b =>
  Returns (r, g, b)))).

(** A socket object is known by its descriptor; [sockets] is what each of
    them holds. *)
Definition fd : Type := nat.

Definition roster : Type := Dict.t (K := uuid) (V := fd * Player).

Record world : Type := mkWorld {
  sockets : fd -> Socket.t;
  client_dict : roster
}.

Definition set_socket (f : fd) (s : Socket.t) (w : world) : world :=
  mkWorld (fun g => if Nat.eqb g f then s else sockets w g) (client_dict w).

(** A method call on the socket [f]. *)
Definition on_socket {A} (f : fd) (m : Eff.M Socket.t A) : Eff.M world A :=
  Eff.zoom (fun w => sockets w f) (set_socket f) m.

Definition del_client (client_id : uuid) : Eff.M world unit :=
  fun w =>
    match Dict.del N.eqb client_id (client_dict w) with
    | Some d => (Returns tt, mkWorld (sockets w) d)
    | None => (Raises KeyError, w)
    end.

Definition inputs_t : Type := Dict.t (K := uuid) (V := pyval).

(** The body of the loop for one entry of the snapshot; the two [print]
    calls are left out. *)
Definition poll (client_id : uuid) (client_socket : fd) (inputs : inputs_t)
  : Eff.M world inputs_t :=
  ready_to_read <- on_socket client_socket Socket.select_ready ;;
  if (ready_to_read : bool) then
    message <- on_socket client_socket Protocol.receive_message ;;
    message <- Eff.lift (json_loads message) ;;
    quit <- Eff.lift (py_in Protocol.QUIT message) ;;
    if (quit : bool) then
      on_socket client_socket (Protocol.send_message Protocol.QUIT) ;;;
      on_socket client_socket Socket.close ;;;
      del_client client_id ;;;
      Eff.ret inputs
    else
      Eff.ret (Dict.set N.eqb client_id message inputs)
  else
    Eff.ret (Dict.set N.eqb client_id (PList []) inputs).

Fixpoint poll_all (snapshot : list (uuid * (fd * Player))) (inputs : inputs_t)
  : Eff.M world inputs_t :=
  match snapshot with
  | [] => Eff.ret inputs
  | (client_id, (client_socket, _)) :: rest =>
      inputs' <- poll client_id client_socket inputs ;;
      poll_all rest inputs'
  end.

Definition get_input : Eff.M world inputs_t :=
  fun w => poll_all (client_dict w) [] w.

End Server.
(** *** New connections *)

(** [str(u)] for a [uuid.UUID]: the number in 32 hexadecimal digits
    (['%032x']), cut in five groups. *)
Definition hex32 (n : N) : str :=
  let d := digits 16 n in repeat zero_char (32 - length d) ++ d.

Definition str_of_uuid (u : uuid) : str :=
  let hex := hex32 u in
  slice hex None (Some 8) ++ minus_sign
  :: slice hex (Some 8) (Some 12) ++ minus_sign
  :: slice hex (Some 12) (Some 16) ++ minus_sign
  :: slice hex (Some 16) (Some 20) ++ minus_sign
  :: slice hex (Some 20) None.

Definition ID : str := str_of_string "ID".

(** The server as [receive_clients] sees it: the sockets and the roster,
    and the PLAYER_JOINED events it has posted, by identity. *)
Record lobby : Type := mkLobby {
  net : world;
  posted : list uuid
}.

Definition on_net {A} (m : Eff.M world A) : Eff.M lobby A :=
  Eff.zoom net (fun w l => mkLobby w (posted l)) m.

(** [client_dict[client_id] = entry] *)
Definition set_client (client_id : uuid) (entry : fd * Player) : Eff.M world unit :=
  fun w => (Returns tt,
            mkWorld (sockets w) (Dict.set N.eqb client_id entry (client_dict w))).

(** [pygame.event.post(Event(EVENT_PLAYER_JOINED, client_id=client_id))] *)
Definition post (client_id : uuid) : Eff.M lobby unit :=
  fun l => (Returns tt, mkLobby (net l) (posted l ++ [client_id])).

Section Lobby.
Variable hash : str -> Z.
Variable rect_coordinate : Number.t -> option Z.

(** One round of the loop of [receive_clients], from the connection that
    [accept] returned and the identity that [uuid4] drew; the two [print]
    calls are left out. *)
Definition welcome (client_socket : fd) (client_id : uuid) : Eff.M lobby unit :=
  let message := [(ID, str_of_uuid client_id)] in
  on_net (on_socket client_socket
            (Protocol.send_message (Json.dumps_dict message))) ;;;
  color <- Eff.lift (strToRGB hash (str_of_uuid client_id)) ;;
  player <- Eff.lift (Player_init rect_coordinate client_id
                        (Number.PyInt 0) (Number.PyInt 0) color) ;;
  on_net (set_client client_id (client_socket, player)) ;;;
  post client_id.

End Lobby.

(** *** The state sent to the clients *)

(** What a group holds: obstacles and players. *)
Inductive sprite : Type :=
| obstacle_sprite (o : Obstacle)
| player_sprite (p : Player).

(** A colour is a tuple of three [int]s; [json.dumps] writes a tuple as it
    writes a list. *)
Definition color_value (c : color) : pyval :=
  let '(r, g, b) := c in PList [PInt r; PInt g; PInt b].

Definition catalog : Type := Dict.t (K := str) (V := pyval).

Definition obstacle_message (o : Obstacle) : pyval :=
  PDict [(str_of_string "X", PInt (Rect.x (obstacle_rect o)));
         (str_of_string "Y", PInt (Rect.y (obstacle_rect o)));
         (str_of_string "WIDTH", PInt (Rect.width (obstacle_rect o)));
         (str_of_string "HEIGHT", PInt (Rect.height (obstacle_rect o)));
         (str_of_string "COLOR", color_value (obstacle_color o))].

Definition player_message (p : Player) : pyval :=
  PDict [(str_of_string "X", PFloat (Vector2.x (pos p)));
         (str_of_string "Y", PFloat (Vector2.y (pos p)));
         (str_of_string "COLOR", color_value (player_color p))].

(** The loop over the objects of the level, which fills the two
    catalogs. *)
Fixpoint gather (level_objects : list sprite) (layout players : catalog)
  : catalog * catalog :=
  match level_objects with
  | [] => (layout, players)
  | obstacle_sprite o :: rest =>
      gather rest
        (Dict.set str_eqb (str_of_uuid (obstacle_id o)) (obstacle_message o) layout)
        players
  | player_sprite p :: rest =>
      gather rest layout
        (Dict.set str_eqb (str_of_uuid (id p)) (player_message p) players)
  end.

Definition full_state (level_objects : list sprite) : pyval :=
  let '(layout, players) := gather level_objects [] [] in
  PDict [(str_of_string "LEVEL_LAYOUT", PDict layout);
         (str_of_string "PLAYERS", PDict players)].

Section Broadcast.

(** The interpreter's [json.dumps]. *)
Variable json_dumps : pyval -> str.

Fixpoint send_all (entries : roster) (text : str) : Eff.M world unit :=
  match entries with
  | [] => Eff.ret tt
  | (_, (client_socket, _)) :: rest =>
      on_socket client_socket (Protocol.send_message text) ;;;
      send_all rest text
  end.

Definition send_state (level_objects : list sprite) : Eff.M world unit :=
  fun w => send_all (client_dict w) (json_dumps (full_state level_objects)) w.

End Broadcast.

End Server.

(** ** client.py *)

Module Client.
Import Py Objects Server.
Local Open Scope eff_scope.

(** What pygame holds for [handle_input]: the keys that are down and the
    events that wait in the queue. *)
Inductive event : Type :=
| QUIT_event
| other_event (type : Z).

Record keys : Type := mkKeys {
  K_ESCAPE : bool;
  K_w : bool;
  K_s : bool;
  K_a : bool;
  K_d : bool
}.

Record pygame : Type := mkPygame {
  keyboard : keys;
  queue : list event
}.

(** [pygame.key.get_pressed()] *)
Definition get_pressed : Eff.M pygame keys :=
  fun s => (Returns (keyboard s), s).

(** [pygame.event.get()]: the waiting events, which leave the queue. *)
Definition event_get : Eff.M pygame (list event) :=
  fun s => (Returns (queue s), mkPygame (keyboard s) []).

Definition is_QUIT (e : event) : bool :=
  match e with
  | QUIT_event => true
  | other_event _ => false
  end.

(** The loop over the events: it returns at the first QUIT event. *)
Fixpoint quit_requested (events : list event) : bool :=
  match events with
  | [] => false
  | e :: rest => if is_QUIT e then true else quit_requested rest
  end.

Definition handle_input : Eff.M pygame (list str) :=
  let actions : list str := [] in
  keys_pressed <- get_pressed ;;
  if K_ESCAPE keys_pressed then Eff.ret (actions ++ [Protocol.QUIT])
  else
    events <- event_get ;;
    if quit_requested events then Eff.ret (actions ++ [Protocol.QUIT])
    else
      let actions := if K_w keys_pressed then actions ++ [UP] else actions in
      let actions := if K_s keys_pressed then actions ++ [DOWN] else actions in
      let actions := if K_a keys_pressed then actions ++ [LEFT] else actions in
      let actions := if K_d keys_pressed then actions ++ [RIGHT] else actions in
      Eff.ret actions.

(** The client: pygame, the connection, and the state dictionary that the
    receiving thread fills. *)
Definition state_t : Type := Dict.t (K := pyval) (V := pyval).

Record client : Type := mkClient {
  inputs : pygame;
  sock : Socket.t;
  state : state_t
}.

Definition on_inputs {A} (m : Eff.M pygame A) : Eff.M client A :=
  Eff.zoom inputs (fun p c => mkClient p (sock c) (state c)) m.

Definition on_sock {A} (m : Eff.M Socket.t A) : Eff.M client A :=
  Eff.zoom sock (fun s c => mkClient (inputs c) s (state c)) m.

Definition on_state {A} (m : Eff.M state_t A) : Eff.M client A :=
  Eff.zoom state (fun d c => mkClient (inputs c) (sock c) d) m.

(** How a round of the game loop ends: it goes on to the drawing, or the
    process is told to exit. *)
Inductive flow : Type :=
| Draw
| Exit.

(** The part of the game loop of [main] that deals with the input, up to
    the drawing; [exit()] ends the loop. *)
Definition report_input : Eff.M client flow :=
  requests <- on_inputs handle_input ;;
  if contains Protocol.QUIT requests then
    on_sock (Protocol.send_message (Json.dumps [Protocol.QUIT])) ;;;
    Eff.ret Exit
  else
    match requests with
    | _ :: _ =>
        on_sock (Protocol.send_message (Json.dumps requests)) ;;;
        Eff.ret Draw
    | [] => Eff.ret Draw
    end.

(** *** [dict.update] with a value that [json.loads] returned *)

Definition hashable (k : pyval) : bool :=
  match k with
  | PList _ | PDict _ => false
  | _ => true
  end.

Definition number_of (v : pyval) : option Number.t :=
  match v with
  | PBool b => Some (Number.PyInt (if b then 1 else 0))
  | PInt z => Some (Number.PyInt z)
  | PFloat f => Some (Number.PyFloat f)
  | _ => None
  end.

Definition is_nan_value (v : pyval) : bool :=
  match v with
  | PFloat f => is_nan f
  | _ => false
  end.

(** Two keys are one key when they are equal; numbers are compared by
    value across [bool], [int] and [float], and the NaN of [json] is one
    object, found by identity. *)
Definition key_eqb (a b : pyval) : bool :=
  match a, b with
  | PNone, PNone => true
  | PStr s, PStr t => str_eqb s t
  | _, _ =>
      match number_of a, number_of b with
      | Some x, Some y => Number.eqb x y || (is_nan_value a && is_nan_value b)
      | _, _ => false
      end
  end.

(** [d[k] = v] *)
Definition set_item (k v : pyval) : Eff.M state_t unit :=
  fun d =>
    if hashable k then (Returns tt, Dict.set key_eqb k v d)
    else (Raises TypeError, d).

(** An element of an update sequence, taken as a sequence of length 2. *)
Definition pair_of (e : pyval) : outcome (pyval * pyval) :=
  match e with
  | PStr [a; b] => Returns (PStr [a], PStr [b])
  | PStr _ => Raises ValueError
  | PList [k; v] => Returns (k, v)
  | PList _ => Raises ValueError
  | PDict [(k1, _); (k2, _)] => Returns (PStr k1, PStr k2)
  | PDict _ => Raises ValueError
  | _ => Raises TypeError
  end.

Fixpoint update_pairs (items : list pyval) : Eff.M state_t unit :=
  match items with
  | [] => Eff.ret tt
  | e :: rest =>
      kv <- Eff.lift (pair_of e) ;;
      set_item (fst kv) (snd kv) ;;;
      update_pairs rest
  end.

Fixpoint merge (d : list (str * pyval)) : Eff.M state_t unit :=
  match d with
  | [] => Eff.ret tt
  | (k, v) :: rest => set_item (PStr k) v ;;; merge rest
  end.

(** [d.update(v)]: a dict is merged, any other iterable is read as a
    sequence of pairs, and what cannot be iterated is a [TypeError]. *)
Definition dict_update (v : pyval) : Eff.M state_t unit :=
  match v with
  | PDict d => merge d
  | PList items => update_pairs items
  | PStr s => update_pairs (map (fun c => PStr [c]) s)
  | _ => Eff.lift (Raises TypeError)
  end.

(** [v[key]] for a key that is a string. *)
Definition subscript (v : pyval) (key : str) : outcome pyval :=
  match v with
  | PDict d =>
      match Dict.get str_eqb key d with
      | Some x => Returns x
      | None => Raises KeyError
      end
  | _ => Raises TypeError
  end.

Section Receiving.
Variable json_loads : str -> outcome pyval.

(** The first lines of [main] once the connection is made: the identity
    that the server assigned. *)
Definition receive_client_id : Eff.M client pyval :=
  data <- on_sock Protocol.receive_message ;;
  json_data <- Eff.lift (json_loads data) ;;
  Eff.lift (subscript json_data ID).

(** One round of the loop of [receive_state]: [true] when the function
    returns. *)
Definition receive_state_round : Eff.M client bool :=
  data <- on_sock Protocol.receive_message ;;
  if str_eqb data Protocol.QUIT then Eff.ret true
  else
    update <- Eff.lift (json_loads data) ;;
    on_state (dict_update update) ;;;
    Eff.ret false.

(** [receive_state], for at most [rounds] rounds: [Some tt] when it
    returned, [None] when it is still in its loop. *)
Fixpoint receive_state (rounds : nat) : Eff.M client (option unit) :=
  match rounds with
  | O => Eff.ret None
  | S k =>
      returned <- receive_state_round ;;
      if (returned : bool) then Eff.ret (Some tt) else receive_state k
  end.

End Receiving.
End Client.

(** * The inputs, measures and readings the properties are stated with *)

Module Readings.
Import Py Objects.

(** *** Collision engine *)

Definition horizontal_start : Number.t * Number.t := (Number.PyInt 0, Number.PyInt 50).
Definition horizontal_end : Number.t * Number.t := (Number.PyInt 100, Number.PyInt 50).
Definition tall_box : Rect.t := Rect.of_edges 40 0 60 100.

Definition boxA : Rect.t := Rect.centered 0 0 10 10.
Definition boxB : Rect.t := Rect.centered 5 0 10 10.

(** The gaps that [static_body_check] compares, as it computes them. *)
Definition gap (delta half1 half2 : Z) : outcome Number.t :=
  Number.bind (Number.div (Number.PyInt half1) (Number.PyInt 2)) (fun a =>
  Number.bind (Number.sub (Number.PyInt (Z.abs delta)) a) (fun g =>
  Number.bind (Number.div (Number.PyInt half2) (Number.PyInt 2)) (fun b =>
  Number.sub g b))).

Definition zero_int : Number.t := Number.PyInt 0.

(** The point lies in the box, edges included. *)
Definition within_box (x y : Z) (box : Rect.t) : bool :=
  (Rect.left box <=? x) && (x <=? Rect.right box)
  && (Rect.top box <=? y) && (y <=? Rect.bottom box).

Definition far_box : Rect.t := Rect.mk 1000 1000 10 10.

(** A box that reaches past the last abscissa a C [int] holds. *)
Definition edge_box : Rect.t := Rect.mk 2147483640 0 10 10.

(** The box of an obstacle, grown by the size of the player. *)
Definition padded (player : Player) (obstacle : Obstacle) : Rect.t :=
  Rect.inflate (obstacle_rect obstacle)
               (Rect.width (rect player)) (Rect.height (rect player)).

(** The segment [check_collision] follows: from the centre of the player
    to the centre moved by the velocity. *)
Definition sweep (player : Player)
  : outcome ((Number.t * Number.t) * (Number.t * Number.t)) :=
  Number.bind (Number.add (Number.PyInt (Rect.centerx (rect player)))
                          (Number.PyFloat (Vector2.x (vel player)))) (fun end_x =>
  Number.bind (Number.add (Number.PyInt (Rect.centery (rect player)))
                          (Number.PyFloat (Vector2.y (vel player)))) (fun end_y =>
  Returns ((Number.PyInt (Rect.centerx (rect player)),
            Number.PyInt (Rect.centery (rect player))), (end_x, end_y)))).

(** What [segment_check] says of that segment and the padded box of an
    obstacle. *)
Definition swept (player : Player) (obstacle : Obstacle) (collides : bool) : Prop :=
  exists start end_ point s,
    sweep player = Returns (start, end_) /\
    segment_check start end_ (padded player obstacle) = Returns (collides, point, s).

(** A player that moves right by 20 a tick, an obstacle on its way and one
    far off. *)
Definition runner : Player :=
  mkPlayer (Rect.mk 0 0 50 50) 7%N (Vector2.mk 0 0) (Vector2.mk 20 0)
           (Vector2.mk 0 0) (0, 60, 0).
Definition far_obstacle : Obstacle := mkObstacle far_box 1%N (0, 60, 0).
Definition near_obstacle : Obstacle := mkObstacle (Rect.mk 60 0 50 50) 2%N (0, 60, 0).

(** The same near the end of the range of [int]: an obstacle in front of
    the player and one that overlaps it. *)
Definition edge_runner : Player :=
  mkPlayer (Rect.mk 2147483550 0 50 50) 7%N (Vector2.mk 2147483550 0)
           (Vector2.mk 20 0) (Vector2.mk 0 0) (0, 60, 0).
Definition edge_obstacle : Obstacle :=
  mkObstacle (Rect.mk 2147483600 0 100 50) 3%N (0, 60, 0).
Definition behind_obstacle : Obstacle :=
  mkObstacle (Rect.mk 2147483500 0 50 50) 4%N (0, 60, 0).

(** *** Simulation step *)

(** The integer part of a finite double, toward zero. *)
Definition truncate (f : float) : option Z :=
  match Prim2SF f with
  | S754_zero _ => Some 0
  | S754_finite negative m e =>
      let v := if 0 <=? e then Z.pos m * 2 ^ e else Z.pos m / 2 ^ (- e) in
      Some (if negative then - v else v)
  | _ => None
  end.

Definition in_int_range (z : Z) : bool :=
  (Rect.INT_MIN <=? z) && (z <=? Rect.INT_MAX).

(** A conversion that stands for pygame's where a concrete one is needed:
    an [int] is taken as it is and a [float] is cut to its integer part,
    when the result is in the range of a C [int]; any other value is
    refused. *)
Definition c_int (v : Number.t) : option Z :=
  match v with
  | Number.PyInt z => if in_int_range z then Some z else None
  | Number.PyFloat f =>
      match truncate f with
      | Some z => if in_int_range z then Some z else None
      | None => None
      end
  end.

(** A coordinate that reads the same: equal, or a negative zero that came
    back as a positive zero. *)
Definition unchanged (new old : float) : Prop :=
  new = old \/ (old = neg_zero /\ new = zero).





(** None of the four movement intents is present. *)
Definition idle (actions : list str) : bool :=
  negb (contains LEFT actions || contains RIGHT actions
        || contains UP actions || contains DOWN actions).

(** The rational number a finite double stands for. *)
Definition exact (f : float) : option Q :=
  match Prim2SF f with
  | S754_zero _ => Some 0%Q
  | S754_finite negative m e =>
      let v := if negative then Z.neg m else Z.pos m in
      Some (if 0 <=? e then inject_Z (v * 2 ^ e) else (v # (2 ^ Z.to_pos (- e)))%Q)
  | _ => None
  end.

(** [|f - target| <= tol], computed on rationals. *)
Definition within (tol target : Q) (f : float) : bool :=
  match exact f with
  | Some q => Qle_bool (Qabs (q - target)) tol
  | None => false
  end.

Definition at_rest : Player :=
  mkPlayer (Rect.mk 0 0 50 50) 0%N (Vector2.mk 0 0) (Vector2.mk 0 0)
           (Vector2.mk 0 0) (0, 0, 0).


(** [n] steps of the vectors alone, with the same intents. *)
Fixpoint glide (n : nat) (p : Player) (actions : list str) : Player :=
  match n with
  | O => p
  | S k => glide k (integrate p actions) actions
  end.

(** The x velocity after [k] ticks of RIGHT from rest; it does not depend on
    where the player stands. *)
Definition velocity_after (k : nat) : float :=
  Vector2.x (vel (glide k at_rest [RIGHT])).

(** [sum_(k=1..n) 10 (1 - 0.9^k)] *)
Definition closed_form (n : nat) : Q :=
  fold_right Qplus 0%Q
    (map (fun k => (10 * (1 - (9 # 10) ^ Z.of_nat k))%Q) (seq 1 n)).

Definition five_right (x0 : float) : float :=
  (x0 + velocity_after 1 + velocity_after 2 + velocity_after 3
   + velocity_after 4 + velocity_after 5)%float.

Definition tolerance : Q := (1 # 1000000000)%Q.

(** Five ticks of RIGHT from the integer abscissa [x0] end within
    [tolerance] of [x0] plus the closed form. *)
Definition start_ok (x0 : Z) : bool :=
  match Number.float_of_int x0 with
  | Returns fx => within tolerance (inject_Z x0 + closed_form 5) (five_right fx)
  | _ => false
  end.

Definition starts : list Z := map (fun i => Z.of_nat i - 1000) (seq 0 2001).

Definition velocity_tolerance : Q := (1 # 1000000000000000)%Q.

Definition expected_velocities : list (nat * Q) :=
  [(1%nat, 1%Q); (2%nat, 19 # 10); (3%nat, 271 # 100);
   (4%nat, 3439 # 1000); (5%nat, 40951 # 10000)]%Q.

(** *** Framing *)

Definition is_decimal_digit (b : byte) : bool :=
  ((48 <=? Byte.to_N b) && (Byte.to_N b <=? 57))%N.

(** The number that a run of decimal digits writes. *)
Definition decimal_value (header : bytes) : Z :=
  fold_left (fun a b => 10 * a + (Z.of_N (Byte.to_N b) - 48)) header 0.

(** A digit of the given base, as [str] and [hex] print it. *)
Definition is_digit_char (base : N) (c : N) : Prop :=
  exists d, (d < base)%N /\ c = digit_char d.

Definition ascii (c : N) : Prop := (c < 128)%N.

(** The header [send_message] computes for a payload of [n] bytes. *)
Definition header_str (n : Z) : str :=
  zfill (Z.to_nat Protocol.LENGTH_HEADER) (str_of_int n).

Definition frame_header (n : Z) : bytes := map byte_of_N (header_str n).

(** A connection that takes what is sent: it was not closed on this side
    and the peer did not reset it. *)
Definition sendable (s : Socket.t) : bool :=
  negb (Socket.closed s)
  && match Socket.peer s with
     | Socket.PeerOpen | Socket.PeerClosed => true
     | Socket.PeerReset | Socket.PeerGone => false
     end.

(** More bytes of the stream reach the socket. *)
Definition arrive (data : bytes) (s : Socket.t) : Socket.t :=
  Socket.with_inbound (Socket.inbound s ++ data) s.

(** The bytes [send_message] puts on a connection for one message. *)
Definition framed (json_data : str) : bytes :=
  Socket.outbound
    (snd (Protocol.send_message json_data (Socket.incoming [] Socket.PeerOpen))).

(** A header that announces five bytes, then a reset. *)
Definition reset_after_header : Socket.t :=
  Socket.incoming (bytes_of_string "00000005") Socket.PeerReset.

(** The same header, then the peer closes after two bytes of payload. *)
Definition closed_in_payload : Socket.t :=
  Socket.incoming (bytes_of_string "00000005ab") Socket.PeerClosed.

(** A frame whose payload is not UTF-8. *)
Definition bad_payload : Socket.t :=
  Socket.incoming (bytes_of_string "00000001" ++ [xff]) Socket.PeerOpen.

(** The message of a client that holds W and D down, and a connection at
    which the first twelve bytes of its frame have arrived: the header and
    four bytes of the payload. *)
Definition up_right : str := Json.dumps [UP; RIGHT].

Definition first_segment : Socket.t :=
  Socket.incoming (firstn 12 (framed up_right)) Socket.PeerOpen.

Definition second_segment : bytes := skipn 12 (framed up_right).

(** *** Colours *)

(** [n] without its last [k] hexadecimal digits. *)
Fixpoint drop_nibbles (k : nat) (n : N) : N :=
  match k with
  | O => n
  | S k' => (drop_nibbles k' n / 16)%N
  end.

(** The [k]-th hexadecimal digit of [n], counted from the right. *)
Definition nibble (k : nat) (n : N) : N := (drop_nibbles k n mod 16)%N.

Definition hexd (k : nat) (n : N) : N := digit_char (nibble k n).

Definition nibbles : list N := map N.of_nat (seq 0 16).


Definition option_Z_eqb (a b : option Z) : bool :=
  match a, b with
  | Some x, Some y => x =? y
  | None, None => true
  | _, _ => false
  end.

(** The body of [strToRGB] on the text of the hash. *)
Definition rgb_of_hexa (hexa : str) : outcome (Z * Z * Z) :=
  Number.bind (int_of_str (slice hexa (Some (-2)) None) 16) (fun r =>
  Number.bind (int_of_str (slice hexa (Some (-4)) (Some (-2))) 16) (fun g =>
  Number.bind (int_of_str (slice hexa (Some (-6)) (Some (-4))) 16) (fun b =>
  Returns (r, g, b)))).

(** What [strToRGB] makes of a hash value: the three low bytes of its
    magnitude, when it has at least six hexadecimal digits. *)
Definition rgb_of_hash (h : Z) : outcome (Z * Z * Z) :=
  if Z.abs h <? 0x100000 then Raises ValueError
  else Returns (Z.abs h mod 256, (Z.abs h / 256) mod 256, (Z.abs h / 65536) mod 256).


Definition sample_hash (s : str) : Z := 0x123456789abcdef.

(** Two strings whose hashes differ in sign and above the low three
    bytes. *)
Definition two_hashes (s : str) : Z :=
  if str_eqb s (str_of_string "a") then 0x1abcdef else - 0x7abcdef.

(** *** Input collection *)

(** What a connection holds when the server polls it: nothing while the
    client is there; nothing after the client closed its side; or a message
    that was framed by [send_message], whose text decodes to a list of
    intents, and whatever the client sent after it.  A connection on which
    the acknowledgement of a QUIT is to be sent was not reset. *)
Inductive buffered : Type :=
| Silent
| Departed
| Message (json_data : str) (actions : list str) (rest : bytes).

Definition holds (json_loads : str -> outcome Server.pyval)
  (s : Socket.t) (b : buffered) : Prop :=
  match b with
  | Silent =>
      Socket.inbound s = [] /\ Socket.peer s = Socket.PeerOpen
      /\ Socket.closed s = false
  | Departed =>
      Socket.inbound s = [] /\ Socket.peer s = Socket.PeerClosed
      /\ Socket.closed s = false
  | Message json_data actions rest =>
      (exists payload, encode json_data = Returns payload
                       /\ len payload <= 99999999)
      /\ Socket.inbound s = framed json_data ++ rest
      /\ Socket.closed s = false
      /\ json_loads json_data = Returns (Server.intents actions)
      /\ (contains Protocol.QUIT actions = true -> sendable s = true)
  end.

(** The client leaves: its message carries the disconnect intent, or its
    side of the connection is closed and nothing is left to read. *)
Definition quits (b : buffered) : bool :=
  match b with
  | Silent => false
  | Departed => true
  | Message _ actions _ => contains Protocol.QUIT actions
  end.

(** The input of the tick for that connection. *)
Definition decoded (b : buffered) : Server.pyval :=
  match b with
  | Silent => Server.PList []
  | Departed => Server.intents [Protocol.QUIT]
  | Message _ actions _ => Server.intents actions
  end.

(** The connection after the poll: a client that leaves has been sent the
    acknowledgement and its socket is closed; otherwise the message read is
    gone from the stream and nothing else changed. *)
Definition after_poll (s : Socket.t) (b : buffered) : Socket.t :=
  match b with
  | Silent => s
  | Departed =>
      Socket.mk [] (Socket.peer s) (Socket.outbound s ++ framed Protocol.QUIT) true
  | Message _ actions rest =>
      if contains Protocol.QUIT actions
      then Socket.mk rest (Socket.peer s)
                     (Socket.outbound s ++ framed Protocol.QUIT) true
      else Socket.with_inbound rest s
  end.

Definition stays (pending : uuid -> buffered) (entry : uuid * (Server.fd * Player))
  : bool :=
  negb (quits (pending (fst entry))).

Definition input_of (pending : uuid -> buffered) (entry : uuid * (Server.fd * Player))
  : uuid * Server.pyval :=
  (fst entry, decoded (pending (fst entry))).

Definition fd_of (entry : uuid * (Server.fd * Player)) : Server.fd :=
  fst (snd entry).

(** A decoder for the texts the client sends, arrays of plain strings
    without escapes; it stands for [json.loads] where one is needed. *)
Fixpoint read_plain (s : str) (acc : str) : option (str * str) :=
  match s with
  | [] => None
  | c :: t =>
      if (c =? Json.quote)%N then Some (rev acc, t)
      else if (c =? Json.backslash)%N || (c <? 32)%N then None
      else read_plain t (c :: acc)
  end.

Fixpoint read_items (fuel : nat) (s : str) (acc : list str) : option (list str) :=
  match fuel with
  | O => None
  | S fuel' =>
      match s with
      | q :: t =>
          if (q =? Json.quote)%N then
            match read_plain t [] with
            | Some (item, after) =>
                match after with
                | [93%N] => Some (rev (item :: acc))
                | 44%N :: 32%N :: more => read_items fuel' more (item :: acc)
                | _ => None
                end
            | None => None
            end
          else None
      | [] => None
      end
  end.

Definition loads_plain (s : str) : outcome Server.pyval :=
  match s with
  | [91%N; 93%N] => Returns (Server.PList [])
  | 91%N :: t =>
      match read_items (length t) t [] with
      | Some items => Returns (Server.intents items)
      | None => Raises JSONDecodeError
      end
  | _ => Raises JSONDecodeError
  end.

(** Three clients: one silent, one that sent RIGHT, one that sent QUIT and
    then a second message. *)
Definition silent_socket : Socket.t := Socket.incoming [] Socket.PeerOpen.
Definition right_socket : Socket.t :=
  Socket.incoming (framed (Json.dumps [RIGHT])) Socket.PeerOpen.
Definition quit_socket : Socket.t :=
  Socket.incoming (framed (Json.dumps [Protocol.QUIT]) ++ framed (Json.dumps [UP]))
                  Socket.PeerOpen.
Definition reset_socket : Socket.t := Socket.incoming [] Socket.PeerReset.

Definition three_clients : Server.world :=
  Server.mkWorld
    (fun f => match f with
              | 4%nat => silent_socket
              | 5%nat => right_socket
              | 6%nat => quit_socket
              | _ => Socket.incoming [] Socket.PeerOpen
              end)
    [(11%N, (4%nat, at_rest)); (12%N, (5%nat, at_rest)); (13%N, (6%nat, at_rest))].

Definition three_pending (id : uuid) : buffered :=
  if (id =? 12)%N then Message (Json.dumps [RIGHT]) [RIGHT] []
  else if (id =? 13)%N
       then Message (Json.dumps [Protocol.QUIT]) [Protocol.QUIT]
                    (framed (Json.dumps [UP]))
       else Silent.

(** One client whose connection was reset. *)
Definition dropped_client : Server.world :=
  Server.mkWorld (fun _ => reset_socket) [(21%N, (3%nat, at_rest))].

(** One client that closed its side of the connection and sent nothing. *)
Definition departed_client : Server.world :=
  Server.mkWorld (fun _ => Socket.incoming [] Socket.PeerClosed)
                 [(22%N, (3%nat, at_rest))].

(** Values that are no containers. *)
Definition scalar (v : Server.pyval) : bool :=
  match v with
  | Server.PNone | Server.PBool _ | Server.PInt _ | Server.PFloat _ => true
  | _ => false
  end.

(** A decoder for one string literal without escapes. *)
Definition loads_literal (s : str) : outcome Server.pyval :=
  match s with
  | q :: t =>
      if (q =? Json.quote)%N then
        match read_plain t [] with
        | Some (item, []) => Returns (Server.PStr item)
        | _ => Raises JSONDecodeError
        end
      else Raises JSONDecodeError
  | [] => Raises JSONDecodeError
  end.

(** One client that sent a frame with an empty payload. *)
Definition empty_frame_client : Server.world :=
  Server.mkWorld (fun _ => Socket.incoming (framed []) Socket.PeerOpen)
                 [(31%N, (3%nat, at_rest))].

(** One client that sent a JSON string in which QUIT occurs. *)
Definition mosquito : str := Json.dumps_str (str_of_string "MOSQUITO").

Definition mosquito_client : Server.world :=
  Server.mkWorld (fun _ => Socket.incoming (framed mosquito) Socket.PeerOpen)
                 [(32%N, (3%nat, at_rest))].

(** *** The client *)

(** The movement intents of the keys that are down, in the order in which
    [handle_input] looks at them. *)
Definition chosen (k : Client.keys) : list str :=
  (if Client.K_w k then [UP] else []) ++ (if Client.K_s k then [DOWN] else [])
  ++ (if Client.K_a k then [LEFT] else []) ++ (if Client.K_d k then [RIGHT] else []).

(** What [handle_input] returns in a state of pygame. *)
Definition requests_of (s : Client.pygame) : list str :=
  if Client.K_ESCAPE (Client.keyboard s) || Client.quit_requested (Client.queue s)
  then [Protocol.QUIT]
  else chosen (Client.keyboard s).

(** The state dictionary after the updates that the texts carry. *)
Definition merged (json_loads : str -> outcome Server.pyval) (texts : list str)
  (d : Client.state_t) : Client.state_t :=
  fold_left (fun d t => match json_loads t with
                        | Returns update => snd (Client.dict_update update d)
                        | _ => d
                        end) texts d.

(** A text of the server that [receive_state] takes in: it can be framed,
    it is not the acknowledgement, and it decodes to a JSON object. *)
Definition state_text (json_loads : str -> outcome Server.pyval) (t : str) : Prop :=
  (exists payload, encode t = Returns payload /\ len payload <= 99999999)
  /\ str_eqb t Protocol.QUIT = false
  /\ exists d, json_loads t = Returns (Server.PDict d).

(** A decoder for an object whose values are plain strings, as
    [dumps_dict] writes it. *)
Fixpoint read_members (fuel : nat) (s : str) (acc : list (str * Server.pyval))
  : option (list (str * Server.pyval)) :=
  match fuel with
  | O => None
  | S fuel' =>
      match s with
      | q :: t =>
          if (q =? Json.quote)%N then
            match read_plain t [] with
            | Some (key, 58%N :: 32%N :: q' :: t') =>
                if (q' =? Json.quote)%N then
                  match read_plain t' [] with
                  | Some (value, after) =>
                      let acc' := Dict.set str_eqb key (Server.PStr value) acc in
                      match after with
                      | [125%N] => Some acc'
                      | 44%N :: 32%N :: more => read_members fuel' more acc'
                      | _ => None
                      end
                  | None => None
                  end
                else None
            | _ => None
            end
          else None
      | [] => None
      end
  end.

Definition loads_flat_object (s : str) : outcome Server.pyval :=
  match s with
  | [123%N; 125%N] => Returns (Server.PDict [])
  | 123%N :: t =>
      match read_members (length t) t [] with
      | Some d => Returns (Server.PDict d)
      | None => Raises JSONDecodeError
      end
  | _ => Raises JSONDecodeError
  end.

(** A client with W and D held down, and the server it talks to once its
    message has arrived. *)
Definition playing_client : Client.client :=
  Client.mkClient
    (Client.mkPygame (Client.mkKeys false true false false true)
                     [Client.other_event 1024])
    (Socket.incoming [] Socket.PeerOpen) [].

Definition playing_server : Server.world :=
  Server.mkWorld (fun _ => Socket.incoming (framed (Json.dumps [UP; RIGHT]))
                                           Socket.PeerOpen)
                 [(41%N, (3%nat, at_rest))].

(** A client whose window is being closed while D is down. *)
Definition leaving_client : Client.client :=
  Client.mkClient
    (Client.mkPygame (Client.mkKeys false false false false true)
                     [Client.other_event 1024; Client.QUIT_event])
    (Socket.incoming [] Socket.PeerOpen) [].

Definition leaving_server : Server.world :=
  Server.mkWorld (fun _ => Socket.incoming (framed Protocol.QUIT_message)
                                           Socket.PeerOpen)
                 [(42%N, (3%nat, at_rest))].

(** Two states and the acknowledgement, as they wait at a client. *)
Definition two_states : list str :=
  [Json.dumps_dict [(str_of_string "PLAYERS", str_of_string "none")];
   Json.dumps_dict []].

Definition updated_client : Client.client :=
  Client.mkClient (Client.mkPygame (Client.mkKeys false false false false false) [])
    (Socket.incoming (flat_map framed two_states ++ framed Protocol.QUIT ++ [])
                     Socket.PeerOpen)
    [].

(** A client whose server is gone. *)
Definition orphan_client : Client.client :=
  Client.mkClient (Client.mkPygame (Client.mkKeys false false false false false) [])
    reset_socket [].

(** *** New connections and the state that is sent *)

(** A character that [json.dumps] writes as it is. *)
Definition plain (c : N) : Prop :=
  (32 <= c <= 126)%N /\ c <> Json.quote /\ c <> Json.backslash.

(** The message that tells a client its identity. *)
Definition greeting (client_id : uuid) : str :=
  Json.dumps_dict [(Server.ID, Server.str_of_uuid client_id)].

(** The player a new client gets, [origin] being the C [int] that pygame
    makes of the [0] of [Player(client_id, 0, 0, color)]. *)
Definition newcomer (origin : Z) (client_id : uuid) (c : color) : Player :=
  mkPlayer (Rect.mk origin origin 50 50)
           client_id (Vector2.mk 0 0) (Vector2.mk 0 0) (Vector2.mk 0 0) c.

Definition empty_lobby : Server.lobby :=
  Server.mkLobby (Server.mkWorld (fun _ => Socket.incoming [] Socket.PeerOpen) []) [].

Definition sample_uuid : uuid := 0x1b4e28ba2fa111d2883f0016d3cca427%N.

(** A client at which the greeting of [sample_uuid] has arrived. *)
Definition greeted_client : Client.client :=
  Client.mkClient (Client.mkPygame (Client.mkKeys false false false false false) [])
    (Socket.incoming (framed (greeting sample_uuid)) Socket.PeerOpen) [].

(** The entries of the two catalogs of the state. *)
Definition obstacle_entry (o : Obstacle) : str * Server.pyval :=
  (Server.str_of_uuid (obstacle_id o), Server.obstacle_message o).

Definition player_entry (p : Player) : str * Server.pyval :=
  (Server.str_of_uuid (id p), Server.player_message p).

Fixpoint obstacles_of (level_objects : list Server.sprite) : list Obstacle :=
  match level_objects with
  | [] => []
  | Server.obstacle_sprite o :: rest => o :: obstacles_of rest
  | Server.player_sprite _ :: rest => obstacles_of rest
  end.

Fixpoint players_of (level_objects : list Server.sprite) : list Player :=
  match level_objects with
  | [] => []
  | Server.obstacle_sprite _ :: rest => players_of rest
  | Server.player_sprite p :: rest => p :: players_of rest
  end.

(** A writer for values that hold no float (the decimal form of a float is
    not modelled); it stands for [json.dumps] on the sample below. *)
Fixpoint dumps_value (v : Server.pyval) : str :=
  match v with
  | Server.PNone => str_of_string "null"
  | Server.PBool true => str_of_string "true"
  | Server.PBool false => str_of_string "false"
  | Server.PInt z => str_of_int z
  | Server.PFloat _ => str_of_string "NaN"
  | Server.PStr s => Json.dumps_str s
  | Server.PList l =>
      91%N :: Json.join [44%N; 32%N] (map dumps_value l) ++ [93%N]
  | Server.PDict d =>
      123%N :: Json.join [44%N; 32%N]
                 (map (fun kv => match kv with
                                 | (k, x) => Json.dumps_str k ++ [58%N; 32%N]
                                             ++ dumps_value x
                                 end) d)
      ++ [125%N]
  end.

(** A level of two obstacles and a player. *)
Definition sample_level : list Server.sprite :=
  [Server.obstacle_sprite far_obstacle; Server.player_sprite runner;
   Server.obstacle_sprite near_obstacle].

Definition obstacles_only : list Server.sprite :=
  [Server.obstacle_sprite far_obstacle; Server.obstacle_sprite near_obstacle].

End Readings.

(** * Properties *)

(** ** The builtins *)

Module BuiltinFacts.
Import Py Readings.

Lemma to_N_byte_of_N n : (n < 256)%N -> Byte.to_N (byte_of_N n) = n.
Proof.
  intros H. unfold byte_of_N. destruct (Byte.of_N n) as [b |] eqn:E.
  - now apply Byte.to_of_N.
  - apply Byte.of_N_None_iff in E. lia.
Qed.

Lemma Some_inj {A} (a b : A) : Some a = Some b -> a = b.
Proof. congruence. Qed.

#[local] Ltac Zify.zify_post_hook ::= Z.to_euclidean_division_equations.

Ltac decide_tests :=
  repeat match goal with
    | |- context [N.ltb ?a ?b] => destruct (N.ltb_spec a b); try lia
    | |- context [N.leb ?a ?b] => destruct (N.leb_spec a b); try lia
    end; cbn [andb orb].

Ltac decode_encoded :=
  intros <-%Some_inj; cbn [app];
  unfold utf8_decode_one, is_cont, cont_bits, is_surrogate;
  rewrite !to_N_byte_of_N by lia; decide_tests;
  try reflexivity; do 2 f_equal; lia.

Lemma utf8_decode_one_encode c enc rest :
  utf8_encode_cp c = Some enc ->
  utf8_decode_one (enc ++ rest) = Some (c, rest).
Proof.
  unfold utf8_encode_cp, is_surrogate.
  destruct (N.ltb_spec c 0x80); [decode_encoded |].
  destruct (N.ltb_spec c 0x800); [decode_encoded |].
  destruct (N.ltb_spec c 0x10000).
  { destruct (N.leb_spec 0xD800 c), (N.leb_spec c 0xDFFF); cbn [andb];
      try discriminate; decode_encoded. }
  destruct (N.ltb_spec c 0x110000); [decode_encoded | discriminate].
Qed.

Lemma utf8_encode_cp_nonempty c enc :
  utf8_encode_cp c = Some enc -> (1 <= length enc)%nat.
Proof.
  unfold utf8_encode_cp.
  repeat match goal with
    | |- context [if ?b then _ else _] => destruct b
    end; try discriminate; intros <-%Some_inj; cbn [length]; lia.
Qed.

Lemma utf8_decode_fuel_encode s : forall enc fuel,
  utf8_encode s = Some enc -> (length enc <= fuel)%nat ->
  utf8_decode_fuel fuel enc = Some s.
Proof.
  induction s as [| c t IH]; intros enc fuel.
  - intros <-%Some_inj _. destruct fuel; reflexivity.
  - cbn [utf8_encode].
    destruct (utf8_encode_cp c) as [b |] eqn:Ec; [| discriminate].
    destruct (utf8_encode t) as [bt |] eqn:Et; [| discriminate].
    intros <-%Some_inj Hfuel.
    pose proof (utf8_encode_cp_nonempty c b Ec) as Hb.
    rewrite length_app in Hfuel.
    destruct (b ++ bt) as [| x xs] eqn:Eapp.
    { apply (f_equal (@length _)) in Eapp. rewrite length_app in Eapp. cbn in Eapp. lia. }
    destruct fuel as [| fuel]; [lia |].
    cbn [utf8_decode_fuel]. rewrite <- Eapp.
    rewrite (utf8_decode_one_encode c b bt Ec).
    rewrite (IH bt fuel eq_refl) by lia. reflexivity.
Qed.

Theorem decode_encode s data : encode s = Returns data -> decode data = Returns s.
Proof.
  unfold encode, decode, utf8_decode.
  destruct (utf8_encode s) as [b |] eqn:E; [| discriminate].
  intros [= <-]. now rewrite (utf8_decode_fuel_encode s b _ E (le_n _)).
Qed.

(** *** Digits *)

Lemma digit_value_digit_char d :
  (d < 36)%N -> digit_value (digit_char d) = Some (Z.of_N d).
Proof.
  intros H. unfold digit_value, digit_char.
  destruct (N.ltb_spec d 10).
  - destruct (N.leb_spec 48 (48 + d)), (N.leb_spec (48 + d) 57); try lia.
    cbn [andb]. f_equal. lia.
  - destruct (N.leb_spec 48 (87 + d)), (N.leb_spec (87 + d) 57); try lia; cbn [andb];
    destruct (N.leb_spec 97 (87 + d)), (N.leb_spec (87 + d) 122); try lia;
    cbn [andb]; f_equal; lia.
Qed.

Lemma digit_char_not_underscore d : (d < 36)%N -> (digit_char d =? underscore)%N = false.
Proof.
  intros H. unfold digit_char, underscore. apply N.eqb_neq.
  destruct (N.ltb_spec d 10); lia.
Qed.

Lemma scan_digits_digit base a d t :
  (d < 36)%N -> Z.of_N d < base ->
  scan_digits base false a (digit_char d :: t)
  = scan_digits base false (a * base + Z.of_N d) t.
Proof.
  intros Hd Hb. cbn [scan_digits].
  rewrite digit_char_not_underscore, digit_value_digit_char by assumption.
  destruct (Z.ltb_spec (Z.of_N d) base); [reflexivity | lia].
Qed.

Lemma scan_digits_fuel base fuel : forall n acc,
  (2 <= base <= 36)%N -> (n < 2 ^ N.of_nat fuel)%N ->
  scan_digits (Z.of_N base) false 0 (digits_fuel base fuel n acc)
  = scan_digits (Z.of_N base) false (Z.of_N n) acc.
Proof.
  induction fuel as [| f IH]; intros n acc Hb Hn.
  - cbn in Hn. assert (n = 0%N) by lia. subst. reflexivity.
  - cbn [digits_fuel].
    assert (Hmod : (n mod base < base)%N) by (apply N.mod_lt; lia).
    destruct (N.ltb_spec n base).
    + rewrite scan_digits_digit by lia. f_equal. rewrite N.mod_small by lia. lia.
    + rewrite IH; [| lia |].
      * rewrite scan_digits_digit by lia. f_equal.
        rewrite (N.div_mod n base) at 3 by lia. lia.
      * rewrite Nat2N.inj_succ, N.pow_succ_r' in Hn.
        apply N.Div0.div_lt_upper_bound. nia.
Qed.

Lemma lt_pow2_size_nat n : (n < 2 ^ N.of_nat (N.size_nat n))%N.
Proof.
  destruct n as [| p]; [reflexivity |].
  cbn [N.size_nat].
  induction p as [p IH | p IH |]; cbn [Pos.size_nat]; rewrite ?Nat2N.inj_succ, ?N.pow_succ_r';
    try lia.
Qed.

Lemma scan_digits_digits base n :
  (2 <= base <= 36)%N ->
  scan_digits (Z.of_N base) false 0 (digits base n) = Some (Z.of_N n, []).
Proof.
  intros Hb. unfold digits. rewrite scan_digits_fuel; [reflexivity | assumption |].
  pose proof (lt_pow2_size_nat n). rewrite Nat2N.inj_succ, N.pow_succ_r'. lia.
Qed.

Lemma scan_digits_zeros base k s :
  1 < base ->
  scan_digits base false 0 (repeat zero_char k ++ s) = scan_digits base false 0 s.
Proof.
  intros Hb. induction k as [| k IH]; [reflexivity |].
  cbn [repeat app]. change zero_char with (digit_char 0).
  rewrite scan_digits_digit by (cbn; lia). cbn. exact IH.
Qed.

Lemma digits_fuel_chars base fuel : forall n acc,
  (2 <= base)%N -> Forall (is_digit_char base) acc ->
  Forall (is_digit_char base) (digits_fuel base fuel n acc).
Proof.
  induction fuel as [| f IH]; intros n acc Hb Hacc; [exact Hacc |].
  cbn [digits_fuel].
  assert (Hd : is_digit_char base (digit_char (n mod base)))
    by (exists (n mod base)%N; split; [apply N.mod_lt; lia | reflexivity]).
  destruct (n <? base)%N; [| apply IH]; auto.
Qed.

Lemma digits_fuel_length_ge base fuel : forall n acc,
  (length acc <= length (digits_fuel base fuel n acc))%nat.
Proof.
  induction fuel as [| f IH]; intros n acc; [apply le_n |].
  cbn [digits_fuel]. destruct (n <? base)%N; [cbn; lia |].
  etransitivity; [| apply IH]. cbn. lia.
Qed.

Lemma digits_fuel_length_le base fuel : forall (k : nat) n acc,
  (2 <= base)%N -> (1 <= k)%nat -> (n < base ^ N.of_nat k)%N ->
  (length (digits_fuel base fuel n acc) <= k + length acc)%nat.
Proof.
  induction fuel as [| f IH]; intros k n acc Hb Hk Hn; [cbn; lia |].
  cbn [digits_fuel]. destruct (N.ltb_spec n base); [cbn; lia |].
  destruct k as [| [| k]]; [lia | change (N.of_nat 1) with 1%N in Hn; rewrite N.pow_1_r in Hn; lia |].
  specialize (IH (S k) (n / base)%N (digit_char (n mod base) :: acc) Hb).
  cbn [length] in IH. rewrite Nat.add_succ_r in IH. apply IH; [lia |].
  rewrite (Nat2N.inj_succ (S k)), N.pow_succ_r' in Hn.
  apply N.Div0.div_lt_upper_bound. lia.
Qed.

Lemma digits_fuel_app base f : forall n acc,
  digits_fuel base f n acc = digits_fuel base f n [] ++ acc.
Proof.
  induction f as [| f IH]; intros n acc; [reflexivity |].
  cbn [digits_fuel]. destruct (n <? base)%N; [reflexivity |].
  rewrite IH, (IH _ [_]), <- app_assoc. reflexivity.
Qed.

Lemma digits_fuel_enough base f1 : forall f2 n acc,
  (2 <= base)%N -> (n < 2 ^ N.of_nat (S f1))%N -> (n < 2 ^ N.of_nat (S f2))%N ->
  digits_fuel base (S f1) n acc = digits_fuel base (S f2) n acc.
Proof.
  induction f1 as [| f1 IH]; intros f2 n acc Hb H1 H2.
  - change (2 ^ N.of_nat 1)%N with 2%N in H1. cbn [digits_fuel].
    destruct (N.ltb_spec n base); [reflexivity | lia].
  - cbn [digits_fuel]. destruct (N.ltb_spec n base); [reflexivity |].
    destruct f2 as [| f2].
    { change (2 ^ N.of_nat 1)%N with 2%N in H2. lia. }
    rewrite (Nat2N.inj_succ (S f1)), N.pow_succ_r' in H1.
    rewrite (Nat2N.inj_succ (S f2)), N.pow_succ_r' in H2.
    apply IH; [assumption | |]; apply N.Div0.div_lt_upper_bound; nia.
Qed.

Lemma size_nat_pos n : (0 < n)%N -> exists k, N.size_nat n = S k.
Proof.
  destruct n as [| p]; [lia |]. intros _. cbn. destruct p; cbn; eauto.
Qed.

Lemma digits_step base n :
  (2 <= base)%N -> (base <= n)%N ->
  digits base n = digits base (n / base) ++ [digit_char (n mod base)].
Proof.
  intros Hb Hn. unfold digits. cbn [digits_fuel].
  destruct (N.ltb_spec n base); [lia |].
  rewrite digits_fuel_app. f_equal.
  destruct (size_nat_pos n ltac:(lia)) as [k Hk].
  pose proof (lt_pow2_size_nat n) as Hlt. rewrite Hk in *.
  apply digits_fuel_enough; [assumption | |].
  - apply N.Div0.div_lt_upper_bound. nia.
  - pose proof (lt_pow2_size_nat (n / base)) as H'.
    rewrite Nat2N.inj_succ, N.pow_succ_r'. lia.
Qed.

Lemma digits_small base n :
  (n < base)%N -> digits base n = [digit_char n].
Proof.
  intros Hn. unfold digits. cbn [digits_fuel].
  destruct (N.ltb_spec n base); [| lia]. now rewrite N.mod_small.
Qed.

Lemma digits_last base n :
  (2 <= base)%N ->
  exists init, digits base n = init ++ [digit_char (n mod base)].
Proof.
  intros Hb. destruct (N.ltb_spec n base).
  - exists []. rewrite digits_small, N.mod_small by assumption. reflexivity.
  - eexists. apply digits_step; assumption.
Qed.

Lemma hex_digits_cases n :
  (n < 0x10 /\ digits 16 n = [hexd 0 n])%N \/
  (0x10 <= n < 0x100 /\ digits 16 n = [hexd 1 n; hexd 0 n])%N \/
  (0x100 <= n < 0x1000 /\ digits 16 n = [hexd 2 n; hexd 1 n; hexd 0 n])%N \/
  (0x1000 <= n < 0x10000
   /\ digits 16 n = [hexd 3 n; hexd 2 n; hexd 1 n; hexd 0 n])%N \/
  (0x10000 <= n < 0x100000
   /\ digits 16 n = [hexd 4 n; hexd 3 n; hexd 2 n; hexd 1 n; hexd 0 n])%N \/
  (0x100000 <= n
   /\ exists pre, digits 16 n
        = pre ++ [hexd 5 n; hexd 4 n; hexd 3 n; hexd 2 n; hexd 1 n; hexd 0 n])%N.
Proof.
  unfold hexd, nibble. cbn [drop_nibbles].
  destruct (N.ltb_spec n 0x10).
  { left. split; [lia |]. rewrite digits_small, N.mod_small by lia. reflexivity. }
  right. rewrite (digits_step 16 n) by lia.
  destruct (N.ltb_spec n 0x100).
  { left. split; [lia |].
    rewrite digits_small by lia. rewrite (N.mod_small (n / 16)) by lia. reflexivity. }
  right. rewrite (digits_step 16 (n / 16)) by lia.
  destruct (N.ltb_spec n 0x1000).
  { left. split; [lia |].
    rewrite digits_small by lia. rewrite (N.mod_small (n / 16 / 16)) by lia. reflexivity. }
  right. rewrite (digits_step 16 (n / 16 / 16)) by lia.
  destruct (N.ltb_spec n 0x10000).
  { left. split; [lia |].
    rewrite digits_small by lia. rewrite (N.mod_small (n / 16 / 16 / 16)) by lia.
    reflexivity. }
  right. rewrite (digits_step 16 (n / 16 / 16 / 16)) by lia.
  destruct (N.ltb_spec n 0x100000).
  { left. split; [lia |].
    rewrite digits_small by lia. rewrite (N.mod_small (n / 16 / 16 / 16 / 16)) by lia.
    reflexivity. }
  right. split; [lia |].
  destruct (digits_last 16 (n / 16 / 16 / 16 / 16 / 16) ltac:(lia)) as [pre Hpre].
  exists pre. rewrite (digits_step 16 (n / 16 / 16 / 16 / 16)) by lia.
  rewrite Hpre. rewrite <- !app_assoc. reflexivity.
Qed.

(** *** Slices from the end *)

Section Slices.
Context {A : Type}.

Lemma slice_last2 (P : list A) x1 x0 :
  slice (P ++ [x1; x0]) (Some (-2)) None = [x1; x0].
Proof.
  unfold slice, slice_index, len. rewrite length_app. cbn [length Z.ltb Z.compare].
  replace (Z.to_nat (Z.max 0 (Z.min (Z.of_nat (length P + 2) + -2) (Z.of_nat (length P + 2)))))
    with (length P) by lia.
  rewrite skipn_app, skipn_all, Nat.sub_diag. cbn [app skipn].
  match goal with |- firstn ?k _ = _ => replace k with 2%nat by lia end.
  reflexivity.
Qed.

Lemma slice_mid2 (P : list A) x3 x2 x1 x0 :
  slice (P ++ [x3; x2; x1; x0]) (Some (-4)) (Some (-2)) = [x3; x2].
Proof.
  unfold slice, slice_index, len. rewrite length_app. cbn [length Z.ltb Z.compare].
  replace (Z.to_nat (Z.max 0 (Z.min (Z.of_nat (length P + 4) + -4) (Z.of_nat (length P + 4)))))
    with (length P) by lia.
  rewrite skipn_app, skipn_all, Nat.sub_diag. cbn [app skipn].
  match goal with |- firstn ?k _ = _ => replace k with 2%nat by lia end.
  reflexivity.
Qed.

Lemma slice_first2 (P : list A) x5 x4 x3 x2 x1 x0 :
  slice (P ++ [x5; x4; x3; x2; x1; x0]) (Some (-6)) (Some (-4)) = [x5; x4].
Proof.
  unfold slice, slice_index, len. rewrite length_app. cbn [length Z.ltb Z.compare].
  replace (Z.to_nat (Z.max 0 (Z.min (Z.of_nat (length P + 6) + -6) (Z.of_nat (length P + 6)))))
    with (length P) by lia.
  rewrite skipn_app, skipn_all, Nat.sub_diag. cbn [app skipn].
  match goal with |- firstn ?k _ = _ => replace k with 2%nat by lia end.
  reflexivity.
Qed.

End Slices.


End BuiltinFacts.

(** ** Collision engine *)

Module CollisionFacts.
Import Py Objects Readings.

Lemma tall_box_edges :
  Rect.left tall_box = 40 /\ Rect.top tall_box = 0 /\
  Rect.right tall_box = 60 /\ Rect.bottom tall_box = 100.
Proof. repeat split. Qed.

(** C3 (what the code does): on the horizontal segment from (0,50) to
    (100,50) and the box with left 40, top 0, right 60, bottom 100,
    [segment_check] reports a hit at (40,50), and the side it returns is
    0, the index its docstring gives to the right side, although the segment
    enters through the left edge [x = 40]. *)
Theorem segment_check_left_entry_reports_side_0 :
  segment_check horizontal_start horizontal_end tall_box
  = Returns (true, (Number.PyFloat 40, Number.PyFloat 50), 0).
Proof. vm_compute. reflexivity. Qed.

(** The mirrored segment, which enters through the right edge, gets side 1. *)
Lemma segment_check_right_entry_reports_side_1 :
  segment_check horizontal_end horizontal_start tall_box
  = Returns (true, (Number.PyFloat 60, Number.PyFloat 50), 1).
Proof. vm_compute. reflexivity. Qed.

(** The miss of the specification: a segment far from the box. *)
Lemma segment_check_miss :
  segment_check (Number.PyInt 0, Number.PyInt 0) (Number.PyInt 10, Number.PyInt 0)
                (Rect.of_edges 100 100 200 200)
  = Returns miss.
Proof. vm_compute. reflexivity. Qed.

(** C6: for two 10x10 boxes centred at (0,0) and (5,0),
    [static_body_check] reports an overlap; the centre distances are
    [delta_x = 5 > 0] and [delta_y = 0], the gaps are [-5] along x and [-10]
    along y, so the x axis has the smaller magnitude, and the side is 1 with
    the resolved point [(boxB.left - boxA.width, boxA.top)]. *)
Theorem static_body_check_resolves_along_x :
  Rect.centerx boxB - Rect.centerx boxA = 5 /\
  Rect.centery boxB - Rect.centery boxA = 0 /\
  gap 5 (Rect.width boxA) (Rect.width boxB) = Returns (Number.PyFloat (-5)) /\
  gap 0 (Rect.height boxA) (Rect.height boxB) = Returns (Number.PyFloat (-10)) /\
  Number.gtb (Number.abs (Number.PyFloat (-5))) (Number.abs (Number.PyFloat (-10))) = false /\
  static_body_check boxA boxB
  = Returns (true,
             (Number.PyInt (Rect.left boxB - Rect.width boxA),
              Number.PyInt (Rect.top boxA)), 1) /\
  Rect.left boxB - Rect.width boxA = -10.
Proof. repeat split; vm_compute; reflexivity. Qed.

(** *** The sides that [segment_check] reports *)

Lemma compare_neg_float f :
  Number.compare (Number.neg (Number.PyFloat f)) zero_int
  = option_map CompOpp (Number.compare (Number.PyFloat f) zero_int).
Proof.
  unfold zero_int. cbn [Number.neg Number.compare]. unfold Number.compare_int_float.
  rewrite FloatAxioms.opp_spec.
  destruct (Prim2SF f) as [s | s | | s m e]; cbn [SFopp option_map]; try reflexivity.
  - destruct s; reflexivity.
  - assert (Hsign : forall k : Z, 0 < k ->
              (0 ?= Z.neg m * k) = CompOpp (0 ?= Z.pos m * k)).
    { intros k Hk. rewrite <- Z.compare_antisym.
      change (Z.neg m) with (- Z.pos m). rewrite Z.mul_opp_l.
      rewrite <- (Z.compare_opp (- (Z.pos m * k)) 0). rewrite Z.opp_involutive.
      reflexivity. }
    destruct s; cbn [negb]; destruct (0 <=? e) eqn:He; try reflexivity;
      f_equal; rewrite Hsign by (apply Z.pow_pos_nonneg; lia);
      try reflexivity; now rewrite CompOpp_involutive.
Qed.

Lemma compare_neg a :
  Number.compare (Number.neg a) zero_int
  = option_map CompOpp (Number.compare a zero_int).
Proof.
  destruct a as [z | f]; [| apply compare_neg_float].
  unfold zero_int. cbn. f_equal.
  destruct (Z.compare_spec (- z) 0), (Z.compare_spec z 0); try reflexivity; lia.
Qed.

(** [-a < 0] is [a > 0], for an [int] and for a [float]. *)
Lemma ltb_neg a : Number.ltb (Number.neg a) zero_int = Number.gtb a zero_int.
Proof.
  unfold Number.ltb, Number.gtb. rewrite compare_neg.
  destruct (Number.compare a zero_int) as [[] |]; reflexivity.
Qed.

Lemma bind_returns {A B} (o : outcome A) (k : A -> outcome B) (b : B) :
  Number.bind o k = Returns b -> exists a, o = Returns a /\ k a = Returns b.
Proof. destruct o; cbn; try discriminate. eauto. Qed.

Ltac returned H x := apply bind_returns in H; destruct H as (x & _ & H).

(** One round of the loop either leaves the side as it was, or sets it to
    the index of the round, and that only under [p[i] < 0]. *)
Lemma side_keeps_or_sets i p q c r :
  side i p q c = Returns r ->
  match r with
  | inl h => h = miss
  | inr c' =>
      side_hit c' = side_hit c
      \/ (side_hit c' = i /\ Number.ltb p zero_int = true)
  end.
Proof.
  unfold side. fold zero_int.
  destruct (Number.eqb p zero_int).
  { destruct (Number.ltb q zero_int); intros [= <-]; auto. }
  destruct (Number.ltb p zero_int) eqn:Hneg.
  { intros (r' & _ & H)%bind_returns. revert H.
    destruct (Number.gtb r' (t1 c)); [intros [= <-]; reflexivity |].
    destruct (Number.gtb r' (t0 c)); intros [= <-]; cbn; auto. }
  destruct (Number.gtb p zero_int).
  { intros (r' & _ & H)%bind_returns. revert H.
    destruct (Number.ltb r' (t0 c)); [intros [= <-]; reflexivity |].
    destruct (Number.ltb r' (t1 c)); intros [= <-]; cbn; auto. }
  intros [= <-]. auto.
Qed.

Lemma four_sides p0 q0 p1 q1 p2 q2 p3 q3 c r :
  sides 0 [(p0, q0); (p1, q1); (p2, q2); (p3, q3)] c = Returns r ->
  match r with
  | inl h => h = miss
  | inr c' =>
      side_hit c' = side_hit c
      \/ (side_hit c' = 0 /\ Number.ltb p0 zero_int = true)
      \/ (side_hit c' = 1 /\ Number.ltb p1 zero_int = true)
      \/ (side_hit c' = 2 /\ Number.ltb p2 zero_int = true)
      \/ (side_hit c' = 3 /\ Number.ltb p3 zero_int = true)
  end.
Proof.
  cbn [sides Z.add Pos.add Pos.succ].
  intros (r0 & H0%side_keeps_or_sets & H)%bind_returns.
  destruct r0 as [h | c0]; [injection H as <-; exact H0 |].
  apply bind_returns in H. destruct H as (r1 & H1%side_keeps_or_sets & H).
  destruct r1 as [h | c1]; [injection H as <-; exact H1 |].
  apply bind_returns in H. destruct H as (r2 & H2%side_keeps_or_sets & H).
  destruct r2 as [h | c2]; [injection H as <-; exact H2 |].
  apply bind_returns in H. destruct H as (r3 & H3%side_keeps_or_sets & H).
  destruct r3 as [h | c3]; injection H as <-; [exact H3 |].
  intuition congruence.
Qed.

(** X6: whatever the segment and the box, the side that [segment_check]
    reports with a hit is tied to the direction of the segment: 0 only when
    x grows from start to end, 1 only when x decreases, 2 only when y grows,
    3 only when y decreases, and -1 otherwise; a miss is always
    [(False, (0, 0), -1)]. *)
Theorem segment_check_side_follows_the_heading
  (start end_ : Number.t * Number.t) (box : Rect.t)
  (collides : bool) (point : Number.t * Number.t) (s : Z) :
  segment_check start end_ box = Returns (collides, point, s) ->
  exists deltaX deltaY,
    Number.sub (fst end_) (fst start) = Returns deltaX /\
    Number.sub (snd end_) (snd start) = Returns deltaY /\
    if collides then
      s = -1
      \/ (s = 0 /\ Number.gtb deltaX (Number.PyInt 0) = true)
      \/ (s = 1 /\ Number.ltb deltaX (Number.PyInt 0) = true)
      \/ (s = 2 /\ Number.gtb deltaY (Number.PyInt 0) = true)
      \/ (s = 3 /\ Number.ltb deltaY (Number.PyInt 0) = true)
    else point = (Number.PyInt 0, Number.PyInt 0) /\ s = -1.
Proof.
  unfold segment_check.
  intros (deltaX & HdX & H)%bind_returns.
  apply bind_returns in H. destruct H as (deltaY & HdY & H).
  exists deltaX, deltaY. split; [exact HdX |]. split; [exact HdY |].
  returned H q0. returned H q1. returned H q2. returned H q3.
  apply bind_returns in H. destruct H as (r & Hsides & H).
  cbn [combine] in Hsides. apply four_sides in Hsides.
  destruct r as [h | c].
  - subst h. injection H as <- <- <-. split; reflexivity.
  - returned H dx. returned H ix. returned H dy. returned H iy.
    injection H as <- <- <-.
    rewrite !ltb_neg in Hsides. cbn [side_hit] in Hsides. exact Hsides.
Qed.

Lemma segment_check_side_follows_the_heading_witness :
  exists deltaX deltaY,
    Number.sub (fst horizontal_end) (fst horizontal_start) = Returns deltaX /\
    Number.sub (snd horizontal_end) (snd horizontal_start) = Returns deltaY /\
    (0 = -1
     \/ (0 = 0 /\ Number.gtb deltaX (Number.PyInt 0) = true)
     \/ (0 = 1 /\ Number.ltb deltaX (Number.PyInt 0) = true)
     \/ (0 = 2 /\ Number.gtb deltaY (Number.PyInt 0) = true)
     \/ (0 = 3 /\ Number.ltb deltaY (Number.PyInt 0) = true)).
Proof.
  apply (segment_check_side_follows_the_heading horizontal_start horizontal_end tall_box
           true (Number.PyFloat 40, Number.PyFloat 50) 0).
  vm_compute. reflexivity.
Defined.

(** X7: a segment of length zero at an integer point is a hit exactly when
    the point lies in the box, edges included, the edges being the C
    integers that pygame reports (a right or bottom edge past the range of
    [int] has wrapped around); the point comes back as the intersection,
    with side -1, and no division takes place. *)
Theorem segment_check_of_a_point (x y : Z) (box : Rect.t) :
  segment_check (Number.PyInt x, Number.PyInt y) (Number.PyInt x, Number.PyInt y) box
  = Returns (if within_box x y box
             then (true, (Number.PyInt x, Number.PyInt y), -1)
             else miss).
Proof.
  unfold segment_check, within_box.
  cbn [fst snd Number.sub Number.bind Number.neg combine].
  rewrite !Z.sub_diag. cbn [Z.opp].
  cbn [sides]. unfold side.
  change (Number.eqb (Number.PyInt 0) (Number.PyInt 0)) with true. cbn iota.
  assert (Hlt : forall q, Number.ltb (Number.PyInt q) (Number.PyInt 0) = (q <? 0)).
  { intros q. unfold Number.ltb, Z.ltb. cbn. now destruct (q ?= 0). }
  rewrite !Hlt.
  destruct (Z.ltb_spec (x - Rect.left box) 0), (Z.leb_spec (Rect.left box) x); try lia;
    cbn [Number.bind andb]; [reflexivity |].
  destruct (Z.ltb_spec (Rect.right box - x) 0), (Z.leb_spec x (Rect.right box)); try lia;
    cbn [Number.bind andb]; [reflexivity |].
  destruct (Z.ltb_spec (y - Rect.top box) 0), (Z.leb_spec (Rect.top box) y); try lia;
    cbn [Number.bind andb]; [reflexivity |].
  destruct (Z.ltb_spec (Rect.bottom box - y) 0), (Z.leb_spec y (Rect.bottom box)); try lia;
    cbn [Number.bind andb]; [reflexivity |].
  cbn [t0 side_hit Number.mul Number.add Number.bind Z.mul].
  now rewrite !Z.add_0_r.
Qed.

(** A box whose right edge is past the range of [int]: pygame reports the
    edge as -2147483646, and a point between the left edge and where the
    right edge would be is a miss. *)
Lemma segment_check_of_a_point_past_the_int_range :
  Rect.right edge_box = -2147483646
  /\ segment_check (Number.PyInt 2147483645, Number.PyInt 5)
                   (Number.PyInt 2147483645, Number.PyInt 5) edge_box
     = Returns miss.
Proof. split; vm_compute; reflexivity. Qed.

(** *** [static_body_check] *)

(** X8: [static_body_check] has no way to report a miss: whenever it
    returns, also for boxes far apart, the first component is [True]; sides
    0 and 1 go with the sign of the horizontal distance of the centres and
    keep [box1.top], sides 2 and 3 go with the sign of the vertical distance
    and keep [box1.left].  The centres and edges are the C integers that
    pygame reports, which wrap around past the range of [int]; the
    differences are computed on Python integers. *)
Theorem static_body_check_never_misses
  (box1 box2 : Rect.t) (collides : bool) (point : Number.t * Number.t) (s : Z) :
  static_body_check box1 box2 = Returns (collides, point, s) ->
  let delta_x := Rect.centerx box2 - Rect.centerx box1 in
  let delta_y := Rect.centery box2 - Rect.centery box1 in
  collides = true /\
  ((s = 0 /\ delta_x < 0
    /\ point = (Number.PyInt (Rect.right box1), Number.PyInt (Rect.top box1)))
   \/ (s = 1 /\ 0 <= delta_x
       /\ point = (Number.PyInt (Rect.left box2 - Rect.width box1),
                   Number.PyInt (Rect.top box1)))
   \/ (s = 2 /\ delta_y < 0
       /\ point = (Number.PyInt (Rect.left box1), Number.PyInt (Rect.bottom box2)))
   \/ (s = 3 /\ 0 <= delta_y
       /\ point = (Number.PyInt (Rect.left box1),
                   Number.PyInt (Rect.top box2 - Rect.height box1 - 1)))).
Proof.
  intros H delta_x delta_y. unfold static_body_check in H.
  returned H hw1. returned H gx. returned H hw2. returned H gap_x.
  returned H hh1. returned H gy. returned H hh2. returned H gap_y.
  fold delta_x delta_y in H.
  destruct (Number.gtb (Number.abs gap_x) (Number.abs gap_y)).
  - destruct (Z.ltb_spec delta_y 0); injection H as <- <- <-;
      (split; [reflexivity |]); [right; right; left | right; right; right]; auto.
  - destruct (Z.ltb_spec delta_x 0); injection H as <- <- <-;
      (split; [reflexivity |]); [left | right; left]; auto.
Qed.

(** Two boxes a thousand pixels apart. *)
Lemma static_body_check_never_misses_witness :
  true = true /\
  ((1 = 0 /\ Rect.centerx far_box - Rect.centerx boxA < 0
    /\ (Number.PyInt 990, Number.PyInt (-5))
       = (Number.PyInt (Rect.right boxA), Number.PyInt (Rect.top boxA)))
   \/ (1 = 1 /\ 0 <= Rect.centerx far_box - Rect.centerx boxA
       /\ (Number.PyInt 990, Number.PyInt (-5))
          = (Number.PyInt (Rect.left far_box - Rect.width boxA),
             Number.PyInt (Rect.top boxA)))
   \/ (1 = 2 /\ Rect.centery far_box - Rect.centery boxA < 0
       /\ (Number.PyInt 990, Number.PyInt (-5))
          = (Number.PyInt (Rect.left boxA), Number.PyInt (Rect.bottom far_box)))
   \/ (1 = 3 /\ 0 <= Rect.centery far_box - Rect.centery boxA
       /\ (Number.PyInt 990, Number.PyInt (-5))
          = (Number.PyInt (Rect.left boxA),
             Number.PyInt (Rect.top far_box - Rect.height boxA - 1)))).
Proof.
  apply (static_body_check_never_misses boxA far_box true
           (Number.PyInt 990, Number.PyInt (-5)) 1).
  vm_compute. reflexivity.
Defined.

(** With the first box reaching past the range of [int], the point of side
    0 carries the right edge as it wrapped around. *)
Lemma static_body_check_past_the_int_range :
  static_body_check edge_box (Rect.mk 2147483635 0 10 10)
  = Returns (true, (Number.PyInt (-2147483646), Number.PyInt 0), 0).
Proof. vm_compute. reflexivity. Qed.

(** *** [check_collision] *)

Lemma check_collision_sweep player start end_ obstacles :
  sweep player = Returns (start, end_) ->
  check_collision player obstacles = check_obstacles player start end_ obstacles.
Proof.
  unfold sweep, check_collision.
  destruct (Number.add _ _) as [ex | |]; cbn [Number.bind]; try discriminate.
  destruct (Number.add _ _) as [ey | |]; cbn [Number.bind]; try discriminate.
  now intros [= <- <-].
Qed.

Lemma check_obstacles_skips player start end_ missed rest :
  sweep player = Returns (start, end_) ->
  Forall (fun o => swept player o false) missed ->
  check_obstacles player start end_ (missed ++ rest)
  = check_obstacles player start end_ rest.
Proof.
  intros Hsweep. induction 1 as [| o missed Ho _ IH]; [reflexivity |].
  destruct Ho as (start' & end' & point & s & Hs & Hseg).
  rewrite Hsweep in Hs. injection Hs as <- <-.
  cbn [app check_obstacles]. fold (padded player o). rewrite Hseg.
  cbn [Number.bind]. exact IH.
Qed.

(** X9: [check_collision] goes through the obstacles in order and answers
    with the first one whose padded box the segment of the player meets,
    the padded box being the one [inflate] computes in C integers and
    meeting being what [segment_check] says of it: the obstacles before
    it, which the segment misses, and all those after it have no part in
    the result; when the segment misses every obstacle the result is
    [(False, (0, 0), 0)]. *)
Theorem check_collision_stops_at_the_first_hit
  (player : Player) (missed : list Obstacle) (obstacle : Obstacle)
  (rest : list Obstacle) (start end_ : Number.t * Number.t) :
  sweep player = Returns (start, end_) ->
  Forall (fun o => swept player o false) missed ->
  check_collision player missed = Returns (false, (Number.PyInt 0, Number.PyInt 0), 0)
  /\ (swept player obstacle true ->
      check_collision player (missed ++ obstacle :: rest)
      = check_collision player [obstacle]).
Proof.
  intros Hsweep Hmissed. split.
  - rewrite (check_collision_sweep _ _ _ _ Hsweep).
    rewrite <- (app_nil_r missed).
    now rewrite (check_obstacles_skips _ _ _ _ [] Hsweep Hmissed).
  - intros (start' & end' & point & s & Hs & Hseg).
    rewrite Hsweep in Hs. injection Hs as <- <-.
    rewrite !(check_collision_sweep _ _ _ _ Hsweep).
    rewrite (check_obstacles_skips _ _ _ _ _ Hsweep Hmissed).
    cbn [check_obstacles]. fold (padded player obstacle). rewrite Hseg.
    cbn [Number.bind]. reflexivity.
Qed.

Lemma runner_meets_near_obstacle : swept runner near_obstacle true.
Proof.
  exists (Number.PyInt 25, Number.PyInt 25), (Number.PyFloat 45, Number.PyFloat 25),
         (Number.PyFloat 35, Number.PyFloat 25), 0.
  split; vm_compute; reflexivity.
Qed.

Lemma check_collision_stops_at_the_first_hit_witness :
  check_collision runner [far_obstacle]
  = Returns (false, (Number.PyInt 0, Number.PyInt 0), 0)
  /\ check_collision runner ([far_obstacle] ++ near_obstacle :: [far_obstacle])
     = check_collision runner [near_obstacle].
Proof.
  destruct (check_collision_stops_at_the_first_hit runner [far_obstacle] near_obstacle
              [far_obstacle]
              (Number.PyInt 25, Number.PyInt 25) (Number.PyFloat 45, Number.PyFloat 25))
    as [Hnone Hfirst].
  - vm_compute. reflexivity.
  - constructor; [| constructor].
    exists (Number.PyInt 25, Number.PyInt 25), (Number.PyFloat 45, Number.PyFloat 25),
           (Number.PyInt 0, Number.PyInt 0), (-1).
    split; vm_compute; reflexivity.
  - split; [exact Hnone | exact (Hfirst runner_meets_near_obstacle)].
Defined.

(** Near the end of the range of [int] the right edge of a padded box
    wraps around: the obstacle in front of the player is missed, and the
    one that overlaps the player answers through [static_body_check]. *)
Lemma check_collision_past_the_int_range :
  Rect.right (padded edge_runner edge_obstacle) = -2147483571
  /\ swept edge_runner edge_obstacle false
  /\ check_collision edge_runner [edge_obstacle; behind_obstacle]
     = static_body_check (rect edge_runner) (obstacle_rect behind_obstacle)
  /\ check_collision edge_runner [edge_obstacle; behind_obstacle]
     = Returns (true, (Number.PyInt 2147483600, Number.PyInt 0), 0).
Proof.
  split; [vm_compute; reflexivity |]. split; [| split; vm_compute; reflexivity].
  exists (Number.PyInt 2147483575, Number.PyInt 25),
         (Number.PyFloat 2147483595, Number.PyFloat 25),
         (Number.PyInt 0, Number.PyInt 0), (-1).
  split; vm_compute; reflexivity.
Qed.

(** The hit of the sample: the centre would reach the padded box at x = 35,
    so the top-left corner is put at (10, 0). *)
Lemma runner_collision :
  check_collision runner [near_obstacle]
  = Returns (true, (Number.PyFloat 10, Number.PyFloat 0), 0).
Proof. vm_compute. reflexivity. Qed.

End CollisionFacts.

(** ** Simulation step *)

Module PhysicsFacts.
Import Py Objects Readings.

Lemma Prim2SF_zero : Prim2SF zero = S754_zero false.
Proof. reflexivity. Qed.

Lemma zero_cases v : is_zero v = true -> v = zero \/ v = neg_zero.
Proof.
  unfold is_zero. rewrite FloatAxioms.eqb_spec, Prim2SF_zero.
  destruct (Prim2SF v) as [s | s | | s m e] eqn:E; try discriminate.
  - intros _. destruct s; [right | left]; apply Prim2SF_inj; rewrite E; reflexivity.
  - destruct s; discriminate.
  - destruct s; discriminate.
Qed.

Ltac by_spec E := apply Prim2SF_inj; rewrite FloatAxioms.add_spec, E; reflexivity.

(** Adding the zero velocity leaves every double as it is, but for the
    negative zero. *)
Lemma add_zero_unchanged x : unchanged (x + zero)%float x.
Proof.
  unfold unchanged.
  destruct (Prim2SF x) as [s | s | | s m e] eqn:E; try (left; by_spec E).
  destruct s; [right | left; by_spec E].
  split; [apply Prim2SF_inj; rewrite E; reflexivity | by_spec E].
Qed.



(** *** The two parts of a step *)

(** Whatever becomes of the box, the player is left with the vectors of
    [integrate], its identity and its colour. *)
Lemma update_vectors rect_coordinate (p : Player) (actions : list str) :
  let p' := snd (update rect_coordinate p actions) in
  pos p' = pos (integrate p actions) /\ vel p' = vel (integrate p actions) /\
  acc p' = acc (integrate p actions) /\
  id p' = id p /\ player_color p' = player_color p.
Proof.
  unfold update.
  destruct (assign_topleft _ _ _ _); cbn; repeat split.
Qed.






(** C8: a player whose velocity is the zero vector, stepped with no intent,
    keeps its position: each coordinate is the double it was (a negative
    zero reads back as zero). *)
Theorem update_at_rest_keeps_position
  (rect_coordinate : Number.t -> option Z) (p : Player) :
  is_zero (Vector2.x (vel p)) = true ->
  is_zero (Vector2.y (vel p)) = true ->
  let p' := snd (update rect_coordinate p []) in
  unchanged (Vector2.x (pos p')) (Vector2.x (pos p)) /\
  unchanged (Vector2.y (pos p')) (Vector2.y (pos p)).
Proof.
  intros Hx Hy p'.
  destruct (update_vectors rect_coordinate p []) as (Hpos & _).
  fold p' in Hpos. rewrite Hpos. clear Hpos p'.
  destruct p as [r i [px py] [vx vy] a c]. simpl in *.
  apply zero_cases in Hx, Hy.
  split.
  - destruct Hx as [-> | ->]; apply add_zero_unchanged.
  - destruct Hy as [-> | ->]; apply add_zero_unchanged.
Qed.

Lemma update_at_rest_keeps_position_witness :
  unchanged (Vector2.x (pos (snd (update c_int at_rest []))))
            (Vector2.x (pos at_rest)) /\
  unchanged (Vector2.y (pos (snd (update c_int at_rest []))))
            (Vector2.y (pos at_rest)).
Proof.
  apply (update_at_rest_keeps_position c_int at_rest); reflexivity.
Defined.

Lemma unchanged_step new old :
  unchanged new old -> unchanged (new + zero)%float old.
Proof.
  intros [-> | [-> ->]]; [apply add_zero_unchanged |].
  right. split; reflexivity.
Qed.

Lemma unchanged_trans a b c : unchanged a b -> unchanged b c -> unchanged a c.
Proof.
  intros [-> | [-> ->]] H; [exact H |].
  destruct H as [<- | [-> _]]; right; split; reflexivity.
Qed.

(** *** Runs of several ticks *)

Lemma integrate_with_rect r (p : Player) (actions : list str) :
  integrate (with_rect r p) actions = with_rect r (integrate p actions).
Proof. reflexivity. Qed.

Lemma glide_with_rect n : forall r (p : Player) (actions : list str),
  glide n (with_rect r p) actions = with_rect r (glide n p actions).
Proof.
  induction n as [| n IH]; intros r p actions; [reflexivity |].
  cbn [glide]. rewrite integrate_with_rect. apply IH.
Qed.

Lemma ticks_step rect_coordinate n (p : Player) (actions : list str) :
  fst (ticks rect_coordinate (S n) p actions) = Returns tt ->
  exists r, update rect_coordinate p actions
            = (Returns tt, with_rect r (integrate p actions))
            /\ ticks rect_coordinate (S n) p actions
               = ticks rect_coordinate n (with_rect r (integrate p actions)) actions.
Proof.
  cbn [ticks]. unfold update.
  destruct (assign_topleft _ _ _ _) as [r | e |]; cbn; try discriminate.
  intros _. exists r. split; reflexivity.
Qed.

(** A run that returned did the steps of [glide] on the vectors. *)
Lemma ticks_glide rect_coordinate n : forall (p : Player) (actions : list str),
  fst (ticks rect_coordinate n p actions) = Returns tt ->
  exists r, snd (ticks rect_coordinate n p actions) = with_rect r (glide n p actions).
Proof.
  induction n as [| n IH]; intros p actions Hret.
  - exists (rect p). destruct p; reflexivity.
  - destruct (ticks_step _ _ _ _ Hret) as (r & _ & Hrun).
    rewrite Hrun in Hret |- *.
    destruct (IH _ _ Hret) as (r' & Hr'). exists r'.
    rewrite Hr'. cbn [glide]. rewrite glide_with_rect. reflexivity.
Qed.

Lemma ticks_prefix rect_coordinate k : forall m (p : Player) (actions : list str),
  fst (ticks rect_coordinate (k + m) p actions) = Returns tt ->
  fst (ticks rect_coordinate k p actions) = Returns tt.
Proof.
  induction k as [| k IH]; intros m p actions Hret; [reflexivity |].
  change (S k + m)%nat with (S (k + m)) in Hret.
  destruct (ticks_step _ _ _ _ Hret) as (r & Hup & Hrun).
  rewrite Hrun in Hret. cbn [ticks]. rewrite Hup. now apply (IH m).
Qed.

Lemma glide5_from_rest (p : Player) :
  is_zero (Vector2.x (vel p)) = true ->
  is_zero (Vector2.y (vel p)) = true ->
  Vector2.x (pos (glide 5 p [RIGHT])) = five_right (Vector2.x (pos p)) /\
  unchanged (Vector2.y (pos (glide 5 p [RIGHT]))) (Vector2.y (pos p)) /\
  forall k, (1 <= k <= 5)%nat ->
    Vector2.x (vel (glide k p [RIGHT])) = velocity_after k.
Proof.
  intros Hx Hy. destruct p as [r i [px py] [vx vy] a c]. simpl in Hx, Hy.
  apply zero_cases in Hx, Hy.
  assert (Hy5 : unchanged (py + zero + zero + zero + zero + zero)%float py)
    by (do 4 apply unchanged_step; apply add_zero_unchanged).
  split; [| split].
  - destruct Hx as [-> | ->], Hy as [-> | ->]; reflexivity.
  - destruct Hx as [-> | ->], Hy as [-> | ->]; exact Hy5.
  - intros k Hk.
    assert (Hk' : (k = 1 \/ k = 2 \/ k = 3 \/ k = 4 \/ k = 5)%nat) by lia.
    destruct Hx as [-> | ->], Hy as [-> | ->];
      destruct Hk' as [-> | [-> | [-> | [-> | ->]]]]; reflexivity.
Qed.

Lemma velocities_as_expected :
  forallb (fun kq => within velocity_tolerance (snd kq) (velocity_after (fst kq)))
          expected_velocities = true.
Proof. vm_compute. reflexivity. Qed.

(*C7-PLACEHOLDER*)

(** *** Intents that cancel, and rest *)

(** X10: LEFT together with RIGHT gives the x force [0 + -1 + 1], which is
    exactly zero: the x components of the acceleration, the velocity and
    the position after the step are those of a step with no intent at all,
    and so is the abscissa of the box when both steps return; the same
    holds on y for UP together with DOWN. *)
Theorem opposite_intents_cancel
  (rect_coordinate : Number.t -> option Z) (p : Player) (actions : list str) :
  let p' := snd (update rect_coordinate p actions) in
  let q := snd (update rect_coordinate p []) in
  (contains LEFT actions = true -> contains RIGHT actions = true ->
   Vector2.x (acc p') = Vector2.x (acc q)
   /\ Vector2.x (vel p') = Vector2.x (vel q)
   /\ Vector2.x (pos p') = Vector2.x (pos q)
   /\ (fst (update rect_coordinate p actions) = Returns tt ->
       fst (update rect_coordinate p []) = Returns tt ->
       Rect.x (rect p') = Rect.x (rect q)))
  /\
  (contains UP actions = true -> contains DOWN actions = true ->
   Vector2.y (acc p') = Vector2.y (acc q)
   /\ Vector2.y (vel p') = Vector2.y (vel q)
   /\ Vector2.y (pos p') = Vector2.y (pos q)
   /\ (fst (update rect_coordinate p actions) = Returns tt ->
       fst (update rect_coordinate p []) = Returns tt ->
       Rect.y (rect p') = Rect.y (rect q))).
Proof.
  intros p' q. subst p' q.
  assert (Hbox : forall a,
            fst (update rect_coordinate p a) = Returns tt ->
            rect_coordinate (Number.PyFloat (Vector2.x (pos (integrate p a))))
            = Some (Rect.x (rect (snd (update rect_coordinate p a))))
            /\ rect_coordinate (Number.PyFloat (Vector2.y (pos (integrate p a))))
               = Some (Rect.y (rect (snd (update rect_coordinate p a))))).
  { intros a. unfold update, assign_topleft.
    destruct (rect_coordinate (Number.PyFloat (Vector2.x _))) as [x |],
             (rect_coordinate (Number.PyFloat (Vector2.y _))) as [y |];
      cbn; try discriminate.
    intros _. split; reflexivity. }
  destruct (update_vectors rect_coordinate p actions) as (Hp & Hv & Ha & _).
  destruct (update_vectors rect_coordinate p []) as (Hp0 & Hv0 & Ha0 & _).
  cbv zeta in Hp, Hv, Ha, Hp0, Hv0, Ha0.
  rewrite Hp, Hv, Ha, Hp0, Hv0, Ha0.
  split; intros H1 H2.
  - assert (Hx : Vector2.x (acc (integrate p actions)) = Vector2.x (acc (integrate p []))
                 /\ Vector2.x (vel (integrate p actions)) = Vector2.x (vel (integrate p []))
                 /\ Vector2.x (pos (integrate p actions)) = Vector2.x (pos (integrate p []))).
    { unfold integrate. rewrite H1, H2.
      destruct (contains UP actions), (contains DOWN actions); repeat split. }
    destruct Hx as (Eacc & Evel & Epos). repeat split; try assumption.
    intros R R0. destruct (Hbox _ R) as [Bx _], (Hbox _ R0) as [Bx0 _].
    rewrite Epos in Bx. congruence.
  - assert (Hy : Vector2.y (acc (integrate p actions)) = Vector2.y (acc (integrate p []))
                 /\ Vector2.y (vel (integrate p actions)) = Vector2.y (vel (integrate p []))
                 /\ Vector2.y (pos (integrate p actions)) = Vector2.y (pos (integrate p []))).
    { unfold integrate. rewrite H1, H2.
      destruct (contains LEFT actions), (contains RIGHT actions); repeat split. }
    destruct Hy as (Eacc & Evel & Epos). repeat split; try assumption.
    intros R R0. destruct (Hbox _ R) as [_ By], (Hbox _ R0) as [_ By0].
    rewrite Epos in By. congruence.
Qed.

Lemma opposite_intents_cancel_witness :
  let p' := snd (update c_int at_rest [LEFT; RIGHT]) in
  let q := snd (update c_int at_rest []) in
  Vector2.x (acc p') = Vector2.x (acc q)
  /\ Vector2.x (vel p') = Vector2.x (vel q)
  /\ Vector2.x (pos p') = Vector2.x (pos q)
  /\ (fst (update c_int at_rest [LEFT; RIGHT]) = Returns tt ->
      fst (update c_int at_rest []) = Returns tt ->
      Rect.x (rect p') = Rect.x (rect q)).
Proof.
  apply (proj1 (opposite_intents_cancel c_int at_rest [LEFT; RIGHT]));
    reflexivity.
Defined.

(** A step without movement intent from zero velocity: the velocity becomes
    the positive zero, which is added to the position. *)
Lemma idle_step (p : Player) (actions : list str) :
  idle actions = true ->
  is_zero (Vector2.x (vel p)) = true ->
  is_zero (Vector2.y (vel p)) = true ->
  let p' := integrate p actions in
  vel p' = Vector2.mk 0 0 /\
  pos p' = Vector2.add (pos p) (Vector2.mk 0 0).
Proof.
  unfold idle. intros Hidle Hx Hy.
  apply negb_true_iff in Hidle.
  apply orb_false_iff in Hidle. destruct Hidle as [Hidle Hdown].
  apply orb_false_iff in Hidle. destruct Hidle as [Hidle Hup].
  apply orb_false_iff in Hidle. destruct Hidle as [Hleft Hright].
  destruct p as [r i [px py] [vx vy] a c]. cbn [vel Vector2.x Vector2.y] in Hx, Hy.
  apply zero_cases in Hx, Hy.
  unfold integrate. rewrite Hleft, Hright, Hup, Hdown.
  cbn [vel pos].
  destruct Hx as [-> | ->], Hy as [-> | ->]; split; reflexivity.
Qed.

Lemma rest_after_ticks rect_coordinate (actions : list str) n : forall p : Player,
  idle actions = true ->
  is_zero (Vector2.x (vel p)) = true ->
  is_zero (Vector2.y (vel p)) = true ->
  let pn := snd (ticks rect_coordinate n p actions) in
  unchanged (Vector2.x (pos pn)) (Vector2.x (pos p)) /\
  unchanged (Vector2.y (pos pn)) (Vector2.y (pos p)) /\
  is_zero (Vector2.x (vel pn)) = true /\
  is_zero (Vector2.y (vel pn)) = true.
Proof.
  induction n as [| n IH]; intros p Hidle Hx Hy.
  - cbn. repeat split; auto; left; reflexivity.
  - destruct (idle_step p actions Hidle Hx Hy) as [Hv Hp].
    assert (Hpx : unchanged (Vector2.x (pos (integrate p actions))) (Vector2.x (pos p)))
      by (rewrite Hp; apply add_zero_unchanged).
    assert (Hpy : unchanged (Vector2.y (pos (integrate p actions))) (Vector2.y (pos p)))
      by (rewrite Hp; apply add_zero_unchanged).
    cbn [ticks]. unfold update.
    destruct (assign_topleft _ _ _ _) as [r | e |]; cbn [snd].
    + assert (Hvx : is_zero (Vector2.x (vel (with_rect r (integrate p actions)))) = true)
        by (cbn [with_rect vel]; rewrite Hv; reflexivity).
      assert (Hvy : is_zero (Vector2.y (vel (with_rect r (integrate p actions)))) = true)
        by (cbn [with_rect vel]; rewrite Hv; reflexivity).
      destruct (IH _ Hidle Hvx Hvy) as (Ix & Iy & Ivx & Ivy).
      repeat split; try assumption.
      * eapply unchanged_trans; [exact Ix | exact Hpx].
      * eapply unchanged_trans; [exact Iy | exact Hpy].
    + rewrite Hv. repeat split; try assumption; reflexivity.
    + rewrite Hv. repeat split; try assumption; reflexivity.
Qed.

(** X11: a player whose velocity is zero and that gets no movement intent
    (an empty list, or intents the step does not know) stays where it is for
    any number of ticks: the velocity stays zero and each coordinate of the
    position is the double it was at the start (a negative zero reads back
    as zero). *)
Theorem rest_is_kept
  (rect_coordinate : Number.t -> option Z) (p : Player) (actions : list str) (n : nat) :
  idle actions = true ->
  is_zero (Vector2.x (vel p)) = true ->
  is_zero (Vector2.y (vel p)) = true ->
  let pn := snd (ticks rect_coordinate n p actions) in
  unchanged (Vector2.x (pos pn)) (Vector2.x (pos p)) /\
  unchanged (Vector2.y (pos pn)) (Vector2.y (pos p)) /\
  is_zero (Vector2.x (vel pn)) = true /\
  is_zero (Vector2.y (vel pn)) = true.
Proof.
  intros Hidle Hx Hy. now apply rest_after_ticks.
Qed.

(** Ten seconds at 60 ticks a second, with an intent the step ignores. *)
Lemma rest_is_kept_witness :
  let pn := snd (ticks c_int 600 at_rest [str_of_string "JUMP"]) in
  unchanged (Vector2.x (pos pn)) (Vector2.x (pos at_rest)) /\
  unchanged (Vector2.y (pos pn)) (Vector2.y (pos at_rest)) /\
  is_zero (Vector2.x (vel pn)) = true /\
  is_zero (Vector2.y (vel pn)) = true.
Proof.
  apply (rest_is_kept c_int at_rest [str_of_string "JUMP"] 600); reflexivity.
Defined.

End PhysicsFacts.

(** ** Framing protocol *)

Module FramingFacts.
Import Py Readings BuiltinFacts.

Lemma utf8_encode_ascii s :
  Forall ascii s -> utf8_encode s = Some (map byte_of_N s).
Proof.
  induction 1 as [| c t Hc _ IH]; [reflexivity |].
  cbn [utf8_encode map]. rewrite IH. unfold utf8_encode_cp.
  destruct (N.ltb_spec c 0x80); [reflexivity | unfold ascii in Hc; lia].
Qed.

Lemma codes_ascii s : Forall ascii s -> codes (map byte_of_N s) = s.
Proof.
  induction 1 as [| c t Hc _ IH]; [reflexivity |].
  unfold codes in *. cbn [map]. unfold ascii in Hc.
  rewrite to_N_byte_of_N by lia. now rewrite IH.
Qed.

Lemma decimal_digit_range c :
  is_digit_char 10 c -> (48 <= c <= 57)%N.
Proof.
  intros (d & Hd & ->). unfold digit_char.
  destruct (N.ltb_spec d 10); lia.
Qed.

Lemma decimal_digit_ascii s :
  Forall (is_digit_char 10) s -> Forall ascii s.
Proof.
  apply Forall_impl. intros c H%decimal_digit_range. unfold ascii. lia.
Qed.

(** A run of decimal digits scans to the number it writes. *)
Lemma scan_digits_decimal s : forall a,
  Forall (is_digit_char 10) s ->
  scan_digits 10 false a s
  = Some (fold_left (fun a b => 10 * a + (Z.of_N (Byte.to_N b) - 48))
                    (map byte_of_N s) a, []).
Proof.
  induction s as [| c t IH]; intros a H; [reflexivity |].
  inversion H as [| ? ? Hc Ht]; subst.
  pose proof (decimal_digit_range c Hc) as Hr.
  destruct Hc as (d & Hd & ->).
  rewrite scan_digits_digit by lia. rewrite IH by assumption.
  cbn [map fold_left]. rewrite to_N_byte_of_N by lia.
  do 3 f_equal. unfold digit_char in *.
  destruct (N.ltb_spec d 10); lia.
Qed.

(** [int(b)] on a run of decimal digits. *)
Lemma parse_int_decimal s v :
  s <> [] -> Forall (is_digit_char 10) s ->
  scan_digits 10 false 0 s = Some (v, []) ->
  parse_int 10 s = Some v.
Proof.
  intros Hne Hall Hscan. destruct s as [| c t]; [contradiction |].
  inversion Hall as [| ? ? Hc _]; subst.
  pose proof (decimal_digit_range c Hc) as Hr.
  assert (Hsp : is_space c = false).
  { unfold is_space.
    destruct (N.eqb_spec c 32), (N.leb_spec 9 c), (N.leb_spec c 13);
      try lia; reflexivity. }
  assert (Hdig : is_digit 10 c = true).
  { destruct Hc as (d & Hd & ->). unfold is_digit.
    rewrite digit_value_digit_char by lia.
    destruct (Z.ltb_spec (Z.of_N d) 10); [reflexivity | lia]. }
  unfold parse_int. cbn [lstrip]. rewrite Hsp.
  unfold strip_sign, plus_sign, minus_sign.
  destruct (N.eqb_spec c 43); [lia |].
  destruct (N.eqb_spec c 45); [lia |].
  assert (Hpre : strip_prefix 10 (c :: t) = c :: t).
  { unfold strip_prefix. destruct t as [| p t']; [reflexivity |].
    cbn. now rewrite andb_false_r. }
  rewrite Hpre, Hdig, Hscan. reflexivity.
Qed.

Lemma digits_chars base n :
  (2 <= base)%N -> Forall (is_digit_char base) (digits base n).
Proof. intros Hb. apply digits_fuel_chars; [assumption | constructor]. Qed.

Lemma digits_nonempty base n : digits base n <> [].
Proof.
  unfold digits. cbn [digits_fuel].
  destruct (n <? base)%N; [discriminate |].
  intros E. apply (f_equal (@length _)) in E.
  pose proof (digits_fuel_length_ge base (N.size_nat n) (n / base)%N
                (digit_char (n mod base) :: [])) as H.
  rewrite E in H. cbn in H. lia.
Qed.

(** For a length below [10^8] the header is [8 - k] zeros before the [k]
    digits of the length. *)
Lemma header_str_shape n :
  0 <= n <= 99999999 ->
  header_str n
  = repeat zero_char (8 - length (digits 10 (Z.to_N n))) ++ digits 10 (Z.to_N n)
  /\ (length (digits 10 (Z.to_N n)) <= 8)%nat.
Proof.
  intros Hn. unfold header_str, str_of_int.
  destruct (Z.ltb_spec n 0); [lia |].
  replace (Z.abs_N n) with (Z.to_N n) by lia.
  pose proof (digits_chars 10 (Z.to_N n) ltac:(lia)) as Hall.
  pose proof (digits_nonempty 10 (Z.to_N n)) as Hne.
  assert (Hlen : (length (digits 10 (Z.to_N n)) <= 8)%nat).
  { unfold digits.
    pose proof (digits_fuel_length_le 10 (S (N.size_nat (Z.to_N n))) 8
                  (Z.to_N n) [] ltac:(lia) ltac:(lia)) as H8.
    cbn [length] in H8. rewrite Nat.add_0_r in H8. apply H8.
    change (10 ^ N.of_nat 8)%N with 100000000%N. lia. }
  split; [| exact Hlen].
  destruct (digits 10 (Z.to_N n)) as [| c t] eqn:E; [contradiction |].
  inversion Hall as [| ? ? Hc _]; subst.
  apply decimal_digit_range in Hc.
  unfold zfill, plus_sign, minus_sign.
  destruct (N.eqb_spec c 43); [lia |].
  destruct (N.eqb_spec c 45); [lia |].
  reflexivity.
Qed.

Lemma header_str_spec n :
  0 <= n <= 99999999 ->
  length (header_str n) = 8%nat /\
  Forall (is_digit_char 10) (header_str n) /\
  scan_digits 10 false 0 (header_str n) = Some (n, []).
Proof.
  intros Hn. destruct (header_str_shape n Hn) as [-> Hlen].
  pose proof (digits_chars 10 (Z.to_N n) ltac:(lia)) as Hall.
  split; [| split].
  - rewrite length_app, repeat_length. lia.
  - apply Forall_app. split; [| exact Hall].
    apply Forall_forall. intros c Hc%repeat_spec. subst c.
    exists 0%N. split; [lia | reflexivity].
  - rewrite scan_digits_zeros by lia.
    change 10 with (Z.of_N 10). rewrite scan_digits_digits by lia.
    do 2 f_equal. lia.
Qed.

(** *** The socket calls of one frame *)

Lemma recv_front (s : Socket.t) (front rest : bytes) :
  Socket.inbound s = front ++ rest -> Socket.closed s = false -> front <> [] ->
  Socket.recv (len front) s = (Returns front, Socket.with_inbound rest s).
Proof.
  intros Hin Hopen Hne. unfold Socket.recv, len.
  assert (0 < length front)%nat by (destruct front; [contradiction | cbn; lia]).
  destruct (Z.ltb_spec (Z.of_nat (length front)) 0); [lia |].
  destruct (Z.eqb_spec (Z.of_nat (length front)) 0); [lia |].
  rewrite Hopen, Hin, Nat2Z.id.
  destruct (front ++ rest) as [| b l] eqn:E.
  { destruct front; [contradiction | discriminate]. }
  rewrite <- E, firstn_app, Nat.sub_diag, firstn_all, firstn_O, app_nil_r.
  rewrite skipn_app, Nat.sub_diag, skipn_all, skipn_O. reflexivity.
Qed.

Lemma recv_nothing (s : Socket.t) : Socket.recv 0 s = (Returns [], s).
Proof. reflexivity. Qed.

(** The payload of a frame, once its header is read. *)
Lemma recv_payload (s : Socket.t) (payload rest : bytes) :
  Socket.inbound s = payload ++ rest -> Socket.closed s = false ->
  Socket.recv (len payload) s = (Returns payload, Socket.with_inbound rest s).
Proof.
  intros Hin Hopen. destruct payload as [| b l].
  - rewrite recv_nothing. destruct s; cbn in *; subst; reflexivity.
  - apply recv_front; [assumption | assumption | discriminate].
Qed.

Lemma header_bytes n :
  0 <= n <= 99999999 ->
  let header := map byte_of_N (header_str n) in
  encode (header_str n) = Returns header /\
  length header = 8%nat /\
  forallb is_decimal_digit header = true /\
  decimal_value header = n /\
  int_of_bytes header = Returns n.
Proof.
  intros Hn header. destruct (header_str_spec n Hn) as (Hlen & Hall & Hscan).
  pose proof (decimal_digit_ascii _ Hall) as Hascii.
  split; [| split; [| split; [| split]]].
  - unfold encode. now rewrite utf8_encode_ascii.
  - subst header. now rewrite length_map.
  - subst header. apply forallb_forall. intros b Hb.
    apply in_map_iff in Hb. destruct Hb as (c & <- & Hc).
    rewrite Forall_forall in Hall. apply Hall, decimal_digit_range in Hc.
    unfold is_decimal_digit. rewrite to_N_byte_of_N by lia.
    destruct (N.leb_spec 48 c), (N.leb_spec c 57); lia.
  - pose proof (scan_digits_decimal (header_str n) 0 Hall) as Hd.
    rewrite Hscan in Hd. unfold decimal_value. subst header. congruence.
  - unfold int_of_bytes. subst header. rewrite codes_ascii by assumption.
    rewrite (parse_int_decimal (header_str n) n); auto.
    intros E. rewrite E in Hlen. discriminate.
Qed.

Lemma sendable_open (s : Socket.t) :
  Socket.closed s = false -> Socket.peer s = Socket.PeerOpen -> sendable s = true.
Proof. intros Hc Hp. unfold sendable. now rewrite Hc, Hp. Qed.

Lemma send_accepts (data : bytes) (s : Socket.t) :
  sendable s = true ->
  Socket.send data s
  = (Returns (len data), Socket.with_outbound (Socket.outbound s ++ data) s).
Proof.
  unfold sendable, Socket.send.
  destruct (Socket.closed s); [discriminate |].
  destruct (Socket.peer s); (discriminate || reflexivity).
Qed.

Lemma send_message_frames (json_data : str) (payload : bytes) (sock : Socket.t) :
  encode json_data = Returns payload ->
  len payload <= 99999999 ->
  sendable sock = true ->
  Protocol.send_message json_data sock
  = (Returns tt,
     Socket.with_outbound
       (Socket.outbound sock ++ frame_header (len payload) ++ payload) sock).
Proof.
  intros Henc Hlen Hopen.
  assert (Hn : 0 <= len payload <= 99999999) by (unfold len in *; lia).
  destruct (header_bytes (len payload) Hn) as (Hhdr & _).
  unfold Protocol.send_message, Eff.bind, Eff.lift, Eff.ret.
  rewrite Henc.
  change (zfill (Z.to_nat Protocol.LENGTH_HEADER) (str_of_int (len payload)))
    with (header_str (len payload)).
  rewrite Hhdr, send_accepts by assumption. reflexivity.
Qed.

Lemma receive_message_frame
  (json_data : str) (payload : bytes) (receiver : Socket.t) (rest : bytes) :
  encode json_data = Returns payload ->
  len payload <= 99999999 ->
  Socket.inbound receiver = frame_header (len payload) ++ payload ++ rest ->
  Socket.closed receiver = false ->
  Protocol.receive_message receiver
  = (Returns json_data, Socket.with_inbound rest receiver).
Proof.
  intros Henc Hlen Hin Hropen.
  assert (Hn : 0 <= len payload <= 99999999) by (unfold len in *; lia).
  destruct (header_bytes (len payload) Hn) as (_ & H8 & _ & _ & Hint).
  fold (frame_header (len payload)) in H8, Hint.
  set (header := frame_header (len payload)) in *.
  assert (Hrecv1 : Socket.recv Protocol.LENGTH_HEADER receiver
                   = (Returns header, Socket.with_inbound (payload ++ rest) receiver)).
  { replace Protocol.LENGTH_HEADER with (len header)
      by (unfold len; rewrite H8; reflexivity).
    apply recv_front; [assumption | assumption |].
    intros E. rewrite E in H8. discriminate. }
  unfold Protocol.receive_message, Eff.bind, Eff.try_except, Eff.ret, Eff.lift.
  rewrite Hrecv1, Hint.
  rewrite (recv_payload _ payload rest) by (try reflexivity; exact Hropen).
  rewrite (decode_encode _ _ Henc).
  destruct receiver; reflexivity.
Qed.

Lemma framed_frame (json_data : str) (payload : bytes) :
  encode json_data = Returns payload ->
  len payload <= 99999999 ->
  framed json_data = frame_header (len payload) ++ payload.
Proof.
  intros Henc Hlen. unfold framed.
  rewrite (send_message_frames json_data payload) by (assumption || reflexivity).
  reflexivity.
Qed.

(** What arrives of a message that was framed comes back out. *)
Lemma receive_message_framed
  (json_data : str) (payload : bytes) (receiver : Socket.t) (rest : bytes) :
  encode json_data = Returns payload ->
  len payload <= 99999999 ->
  Socket.inbound receiver = framed json_data ++ rest ->
  Socket.closed receiver = false ->
  Protocol.receive_message receiver
  = (Returns json_data, Socket.with_inbound rest receiver).
Proof.
  intros Henc Hlen Hin Hopen.
  apply (receive_message_frame json_data payload); try assumption.
  rewrite Hin, (framed_frame json_data payload), <- app_assoc by assumption.
  reflexivity.
Qed.

(** C1 (what the code does): a frame comes out whole only when all of it
    has arrived.  [receive_message] asks the socket once for the header and
    once for the payload and takes what is there.  The message of the
    intents UP and RIGHT has 15 bytes and [send_message] writes it after
    the header [00000015].  When the first twelve bytes of that frame have
    arrived, the call returns the first four characters of the text (an
    opening bracket, a quote, U and P), which is not the message; and when
    the other eleven bytes have come, the next call reads eight of them as
    a header and returns the QUIT message, with three bytes (T, a quote and
    a closing bracket) left in the stream. *)
Theorem receive_message_cuts_a_frame_that_arrives_in_two_parts :
  length up_right = 15%nat
  /\ Protocol.send_message up_right (Socket.incoming [] Socket.PeerOpen)
     = (Returns tt,
        Socket.mk [] Socket.PeerOpen
          (bytes_of_string "00000015" ++ map byte_of_N up_right) false)
  /\ Socket.inbound first_segment
     = bytes_of_string "00000015" ++ map byte_of_N (firstn 4 up_right)
  /\ second_segment = map byte_of_N (skipn 4 up_right)
  /\ Protocol.receive_message first_segment
     = (Returns [91; 34; 85; 80]%N, Socket.incoming [] Socket.PeerOpen)
  /\ Protocol.receive_message
       (arrive second_segment (Socket.incoming [] Socket.PeerOpen))
     = (Returns Protocol.QUIT_message,
        Socket.incoming [x54; x22; x5d] Socket.PeerOpen).
Proof. repeat split; vm_compute; reflexivity. Qed.

(** X29: when the whole frame is there, the message comes back.  For a
    payload of at most 99,999,999 bytes, on a connection that takes what is
    sent, [send_message] hands the socket an 8-byte header of ASCII decimal
    digits, zero-padded, that writes the payload length, followed by the
    payload; and [receive_message] on a socket at which all those bytes
    have arrived returns the string that was sent and leaves what follows
    the frame. *)
Theorem framing_round_trip (json_data : str) (payload : bytes) (sock : Socket.t) :
  encode json_data = Returns payload ->
  len payload <= 99999999 ->
  sendable sock = true ->
  exists header : bytes,
    length header = 8%nat /\
    forallb is_decimal_digit header = true /\
    decimal_value header = len payload /\
    Protocol.send_message json_data sock
    = (Returns tt,
       Socket.with_outbound (Socket.outbound sock ++ header ++ payload) sock) /\
    forall (receiver : Socket.t) (rest : bytes),
      Socket.inbound receiver = header ++ payload ++ rest ->
      Socket.closed receiver = false ->
      Protocol.receive_message receiver
      = (Returns json_data, Socket.with_inbound rest receiver).
Proof.
  intros Henc Hlen Hopen.
  assert (Hn : 0 <= len payload <= 99999999) by (unfold len in *; lia).
  destruct (header_bytes (len payload) Hn) as (_ & H8 & Hdig & Hval & _).
  exists (frame_header (len payload)).
  split; [exact H8 |]. split; [exact Hdig |]. split; [exact Hval |]. split.
  - now apply send_message_frames.
  - intros receiver rest Hin Hropen.
    now apply (receive_message_frame json_data payload).
Qed.

Lemma framing_round_trip_witness :
  exists header : bytes,
    length header = 8%nat /\
    forallb is_decimal_digit header = true /\
    decimal_value header = len (bytes_of_string "QUIT") /\
    Protocol.send_message Protocol.QUIT (Socket.incoming [] Socket.PeerOpen)
    = (Returns tt,
       Socket.with_outbound
         (Socket.outbound (Socket.incoming [] Socket.PeerOpen)
          ++ header ++ bytes_of_string "QUIT")
         (Socket.incoming [] Socket.PeerOpen)) /\
    forall (receiver : Socket.t) (rest : bytes),
      Socket.inbound receiver = header ++ bytes_of_string "QUIT" ++ rest ->
      Socket.closed receiver = false ->
      Protocol.receive_message receiver
      = (Returns Protocol.QUIT, Socket.with_inbound rest receiver).
Proof.
  apply (framing_round_trip Protocol.QUIT (bytes_of_string "QUIT")
           (Socket.incoming [] Socket.PeerOpen));
    [reflexivity | cbn; lia | reflexivity].
Defined.

(** *** The paths of [receive_message] that end in the QUIT message *)

Lemma receive_message_reset_at_header (s s' : Socket.t) :
  Socket.recv Protocol.LENGTH_HEADER s = (Raises ConnectionResetError, s') ->
  Protocol.receive_message s = (Returns Protocol.QUIT_message, s').
Proof.
  intros H. unfold Protocol.receive_message, Eff.bind, Eff.try_except.
  rewrite H. reflexivity.
Qed.

Lemma receive_message_bad_header (s s' : Socket.t) (header : bytes) :
  Socket.recv Protocol.LENGTH_HEADER s = (Returns header, s') ->
  int_of_bytes header = Raises ValueError ->
  Protocol.receive_message s = (Returns Protocol.QUIT_message, s').
Proof.
  intros H Hint.
  unfold Protocol.receive_message, Eff.bind, Eff.try_except, Eff.lift, Eff.ret.
  rewrite H, Hint. reflexivity.
Qed.

Lemma receive_message_negative_length (s s' : Socket.t) (header : bytes) (n : Z) :
  Socket.recv Protocol.LENGTH_HEADER s = (Returns header, s') ->
  int_of_bytes header = Returns n -> n < 0 ->
  Protocol.receive_message s = (Returns Protocol.QUIT_message, s').
Proof.
  intros H Hint Hneg.
  unfold Protocol.receive_message, Eff.bind, Eff.try_except, Eff.lift, Eff.ret.
  rewrite H, Hint. unfold Socket.recv.
  destruct (Z.ltb_spec n 0); [reflexivity | lia].
Qed.

(** After the peer closed, the header read returns [b''], which is no
    number. *)
Lemma receive_message_peer_closed (s : Socket.t) :
  Socket.inbound s = [] -> Socket.peer s = Socket.PeerClosed ->
  Socket.closed s = false ->
  Protocol.receive_message s = (Returns Protocol.QUIT_message, s).
Proof.
  intros Hin Hpeer Hopen.
  apply (receive_message_bad_header s s []); [| reflexivity].
  unfold Socket.recv. cbn. now rewrite Hopen, Hin, Hpeer.
Qed.

Lemma receive_message_peer_reset (s : Socket.t) :
  Socket.inbound s = [] -> Socket.peer s = Socket.PeerReset ->
  Socket.closed s = false ->
  Protocol.receive_message s
  = (Returns Protocol.QUIT_message, Socket.with_peer Socket.PeerGone s).
Proof.
  intros Hin Hpeer Hopen. apply receive_message_reset_at_header.
  unfold Socket.recv. cbn. now rewrite Hopen, Hin, Hpeer.
Qed.

(** C4 (what the code does): when the header has arrived and the connection
    is reset before the payload, the second [recv] raises
    [ConnectionResetError] inside a [try] that only catches [ValueError], and
    [receive_message] raises instead of returning the QUIT message. *)
Theorem receive_message_raises_on_reset_after_header :
  Protocol.receive_message reset_after_header
  = (Raises ConnectionResetError, Socket.incoming [] Socket.PeerGone).
Proof. vm_compute. reflexivity. Qed.

(** When the peer closes inside the payload the call returns the bytes that
    came, fewer than the header announced. *)
Lemma receive_message_short_payload :
  Protocol.receive_message closed_in_payload
  = (Returns (str_of_string "ab"), Socket.incoming [] Socket.PeerClosed).
Proof. vm_compute. reflexivity. Qed.

(** A payload that is not UTF-8 is answered with the QUIT message too:
    [UnicodeDecodeError] is a [ValueError]. *)
Lemma receive_message_bad_payload :
  Protocol.receive_message bad_payload
  = (Returns Protocol.QUIT_message, Socket.incoming [] Socket.PeerOpen).
Proof. vm_compute. reflexivity. Qed.

(** *** What [send_message] leaves on the socket *)

(** The header of any length: zeros before the digits, and never fewer
    characters than the number has digits. *)
Lemma header_str_any n :
  0 <= n ->
  header_str n
  = repeat zero_char (8 - length (digits 10 (Z.to_N n))) ++ digits 10 (Z.to_N n).
Proof.
  intros Hn. unfold header_str, str_of_int.
  destruct (Z.ltb_spec n 0); [lia |].
  replace (Z.abs_N n) with (Z.to_N n) by lia.
  pose proof (digits_chars 10 (Z.to_N n) ltac:(lia)) as Hall.
  pose proof (digits_nonempty 10 (Z.to_N n)) as Hne.
  destruct (digits 10 (Z.to_N n)) as [| c t] eqn:E; [contradiction |].
  inversion Hall as [| ? ? Hc _]; subst.
  apply decimal_digit_range in Hc.
  unfold zfill, plus_sign, minus_sign.
  destruct (N.eqb_spec c 43); [lia |].
  destruct (N.eqb_spec c 45); [lia |].
  reflexivity.
Qed.

Lemma header_str_digits n :
  0 <= n -> Forall (is_digit_char 10) (header_str n).
Proof.
  intros Hn. rewrite header_str_any by assumption.
  apply Forall_app. split.
  - apply Forall_forall. intros c Hc%repeat_spec. subst c.
    exists 0%N. split; [lia | reflexivity].
  - apply digits_chars. lia.
Qed.

Lemma encode_header n :
  0 <= n -> encode (header_str n) = Returns (frame_header n).
Proof.
  intros Hn. unfold encode, frame_header.
  now rewrite utf8_encode_ascii by (apply decimal_digit_ascii, header_str_digits, Hn).
Qed.

Lemma len_nonneg {A} (l : list A) : 0 <= len l.
Proof. unfold len. lia. Qed.

Lemma encode_outcomes s :
  (exists payload, encode s = Returns payload) \/ encode s = Raises UnicodeEncodeError.
Proof. unfold encode. destruct (utf8_encode s); eauto. Qed.

Lemma decode_outcomes b :
  (exists s, decode b = Returns s) \/ decode b = Raises UnicodeDecodeError.
Proof. unfold decode. destruct (utf8_decode b); eauto. Qed.

(** X1: when [send_message] fails, nothing is added to what was sent.  A
    text that has no UTF-8 form raises [UnicodeEncodeError] before the
    socket is touched; on a socket that was closed on this side the call
    raises [OSError]; on a connection that the peer has reset it raises
    [ConnectionResetError] when the reset had not been reported yet and
    [BrokenPipeError] afterwards. *)
Theorem send_message_queues_nothing_when_it_fails (json_data : str) (sock : Socket.t) :
  (encode json_data = Raises UnicodeEncodeError ->
   Protocol.send_message json_data sock = (Raises UnicodeEncodeError, sock))
  /\
  ((exists payload, encode json_data = Returns payload) ->
   (Socket.closed sock = true ->
    Protocol.send_message json_data sock = (Raises OSError, sock))
   /\
   (Socket.closed sock = false -> Socket.peer sock = Socket.PeerReset ->
    Protocol.send_message json_data sock
    = (Raises ConnectionResetError, Socket.with_peer Socket.PeerGone sock)
    /\ Socket.outbound (Socket.with_peer Socket.PeerGone sock) = Socket.outbound sock)
   /\
   (Socket.closed sock = false -> Socket.peer sock = Socket.PeerGone ->
    Protocol.send_message json_data sock = (Raises BrokenPipeError, sock))).
Proof.
  unfold Protocol.send_message, Eff.bind, Eff.lift, Eff.ret, Socket.send.
  split.
  - intros ->. reflexivity.
  - intros [payload ->].
    change (zfill (Z.to_nat Protocol.LENGTH_HEADER) (str_of_int (len payload)))
      with (header_str (len payload)).
    rewrite (encode_header _ (len_nonneg payload)).
    split; [| split].
    + intros ->. reflexivity.
    + intros -> ->. split; reflexivity.
    + intros -> ->. reflexivity.
Qed.

(** *** One read for the payload *)

(** After the header, [receive_message] asks the socket once and takes what
    has arrived, up to the announced length. *)
Lemma receive_message_one_read (s : Socket.t) (n : Z) (avail : bytes) :
  0 <= n <= 99999999 ->
  Socket.closed s = false ->
  Socket.inbound s = frame_header n ++ avail ->
  avail <> [] \/ n = 0 ->
  Protocol.receive_message s
  = (match decode (firstn (Z.to_nat n) avail) with
     | Returns text => Returns text
     | _ => Returns Protocol.QUIT_message
     end,
     Socket.with_inbound (skipn (Z.to_nat n) avail) s).
Proof.
  intros Hn Hopen Hin Havail.
  destruct (header_bytes n Hn) as (_ & H8 & _ & _ & Hint).
  fold (frame_header n) in H8, Hint.
  set (header := frame_header n) in *.
  assert (Hrecv1 : Socket.recv Protocol.LENGTH_HEADER s
                   = (Returns header, Socket.with_inbound avail s)).
  { replace Protocol.LENGTH_HEADER with (len header)
      by (unfold len; rewrite H8; reflexivity).
    apply recv_front; [assumption | assumption |].
    intros E. rewrite E in H8. discriminate. }
  unfold Protocol.receive_message, Eff.bind, Eff.try_except, Eff.ret, Eff.lift.
  rewrite Hrecv1, Hint.
  unfold Socket.recv.
  destruct (Z.ltb_spec n 0); [lia |].
  destruct (Z.eqb_spec n 0) as [-> | Hn0].
  - cbn [Z.to_nat firstn skipn].
    change (decode []) with (Returns ([] : str)). cbn. reflexivity.
  - destruct Havail as [Hne | ?]; [| contradiction].
    cbn [Socket.closed Socket.with_inbound Socket.inbound]. rewrite Hopen.
    destruct avail as [| b l]; [contradiction |].
    destruct (decode_outcomes (firstn (Z.to_nat n) (b :: l))) as [[text Hd] | Hd];
      rewrite Hd; reflexivity.
Qed.

(** X2: [receive_message] reads the payload with a single [recv].  When
    fewer bytes than the header announces have arrived (and they decode),
    it returns that shorter text as the message, without waiting for the
    rest and whatever the state of the peer. *)
Theorem receive_message_returns_a_truncated_payload
  (s : Socket.t) (n : Z) (part : bytes) (text : str) :
  0 <= n <= 99999999 ->
  Socket.closed s = false ->
  Socket.inbound s = frame_header n ++ part ->
  part <> [] -> len part < n ->
  decode part = Returns text ->
  Protocol.receive_message s = (Returns text, Socket.with_inbound [] s).
Proof.
  intros Hn Hopen Hin Hne Hshort Hdec.
  rewrite (receive_message_one_read s n part) by auto.
  unfold len in Hshort.
  rewrite firstn_all2, skipn_all2 by lia. now rewrite Hdec.
Qed.

Lemma receive_message_returns_a_truncated_payload_witness :
  Protocol.receive_message closed_in_payload
  = (Returns (str_of_string "ab"), Socket.with_inbound [] closed_in_payload).
Proof.
  apply (receive_message_returns_a_truncated_payload closed_in_payload 5
           (bytes_of_string "ab") (str_of_string "ab"));
    [lia | reflexivity | reflexivity | discriminate | cbn; lia | reflexivity].
Defined.

(** X3: a frame whose payload is not valid UTF-8 is consumed and answered
    with the QUIT message, the same string as for a lost connection,
    because [UnicodeDecodeError] is a [ValueError]. *)
Theorem receive_message_takes_bad_utf8_for_a_disconnect
  (s : Socket.t) (payload rest : bytes) :
  len payload <= 99999999 ->
  Socket.closed s = false ->
  Socket.inbound s = frame_header (len payload) ++ payload ++ rest ->
  decode payload = Raises UnicodeDecodeError ->
  Protocol.receive_message s
  = (Returns Protocol.QUIT_message, Socket.with_inbound rest s).
Proof.
  intros Hlen Hopen Hin Hdec.
  assert (Hne : payload <> []) by (intros ->; discriminate).
  rewrite (receive_message_one_read s (len payload) (payload ++ rest)); auto.
  - unfold len. rewrite Nat2Z.id, firstn_app, Nat.sub_diag, firstn_all, firstn_O, app_nil_r.
    rewrite skipn_app, Nat.sub_diag, skipn_all, skipn_O. now rewrite Hdec.
  - pose proof (len_nonneg payload). lia.
  - left. destruct payload; [contradiction | discriminate].
Qed.

Lemma receive_message_takes_bad_utf8_for_a_disconnect_witness :
  Protocol.receive_message bad_payload
  = (Returns Protocol.QUIT_message, Socket.with_inbound [] bad_payload).
Proof.
  apply (receive_message_takes_bad_utf8_for_a_disconnect bad_payload [xff] []);
    [cbn; lia | reflexivity | reflexivity | reflexivity].
Defined.

(** *** Messages in a row *)

(** X4: two messages sent one after the other on a connection come out of
    two calls of [receive_message] at the other end, whole and in the order
    they were sent, when all their bytes have arrived. *)
Theorem two_messages_arrive_in_order
  (first second : str) (p1 p2 : bytes) (sender receiver : Socket.t) (rest : bytes) :
  encode first = Returns p1 -> len p1 <= 99999999 ->
  encode second = Returns p2 -> len p2 <= 99999999 ->
  sendable sender = true -> Socket.outbound sender = [] ->
  Socket.closed receiver = false ->
  Socket.inbound receiver
  = Socket.outbound
      (snd ((Protocol.send_message first ;;; Protocol.send_message second)%eff sender))
    ++ rest ->
  (x <- Protocol.receive_message ;; y <- Protocol.receive_message ;; Eff.ret (x, y))%eff
    receiver
  = (Returns (first, second), Socket.with_inbound rest receiver).
Proof.
  intros H1 L1 H2 L2 Hs Hout Hr Hin.
  unfold Eff.bind in Hin.
  rewrite (send_message_frames first p1) in Hin by assumption.
  rewrite (send_message_frames second p2) in Hin by (assumption || exact Hs).
  cbn [snd Socket.outbound Socket.with_outbound] in Hin.
  rewrite Hout in Hin. cbn [app] in Hin. rewrite <- !app_assoc in Hin.
  unfold Eff.bind.
  rewrite (receive_message_frame first p1 receiver
             (frame_header (len p2) ++ p2 ++ rest)) by assumption.
  rewrite (receive_message_frame second p2 _ rest)
    by (assumption || reflexivity).
  reflexivity.
Qed.

Lemma two_messages_arrive_in_order_witness :
  (x <- Protocol.receive_message ;; y <- Protocol.receive_message ;; Eff.ret (x, y))%eff
    (Socket.incoming (framed (Json.dumps [Objects.UP]) ++ framed Protocol.QUIT_message)
                     Socket.PeerOpen)
  = (Returns (Json.dumps [Objects.UP], Protocol.QUIT_message),
     Socket.with_inbound []
       (Socket.incoming (framed (Json.dumps [Objects.UP]) ++ framed Protocol.QUIT_message)
                        Socket.PeerOpen)).
Proof.
  apply (two_messages_arrive_in_order (Json.dumps [Objects.UP]) Protocol.QUIT_message
           (map byte_of_N (Json.dumps [Objects.UP])) (map byte_of_N Protocol.QUIT_message)
           (Socket.incoming [] Socket.PeerOpen));
    try reflexivity; cbn; lia.
Defined.

(** *** A length of nine digits *)

#[local] Ltac Zify.zify_post_hook ::= Z.to_euclidean_division_equations.

Lemma digits_length_8 n :
  (10000000 <= n < 100000000)%N -> length (digits 10 n) = 8%nat.
Proof.
  intros Hn.
  assert (Hle : (length (digits 10 n) <= 8)%nat).
  { unfold digits.
    pose proof (digits_fuel_length_le 10 (S (N.size_nat n)) 8 n []
                  ltac:(lia) ltac:(lia)) as H8.
    cbn [length] in H8. rewrite Nat.add_0_r in H8. apply H8.
    change (10 ^ N.of_nat 8)%N with 100000000%N. lia. }
  enough (8 <= length (digits 10 n))%nat by lia.
  rewrite (digits_step 10 n) by lia.
  rewrite (digits_step 10 (n / 10)) by lia.
  rewrite (digits_step 10 (n / 10 / 10)) by lia.
  rewrite (digits_step 10 (n / 10 / 10 / 10)) by lia.
  rewrite (digits_step 10 (n / 10 / 10 / 10 / 10)) by lia.
  rewrite (digits_step 10 (n / 10 / 10 / 10 / 10 / 10)) by lia.
  rewrite (digits_step 10 (n / 10 / 10 / 10 / 10 / 10 / 10)) by lia.
  rewrite !length_app. cbn [length].
  pose proof (digits_nonempty 10 (n / 10 / 10 / 10 / 10 / 10 / 10 / 10)) as Hne.
  destruct (digits 10 (n / 10 / 10 / 10 / 10 / 10 / 10 / 10)); [contradiction |].
  cbn [length]. lia.
Qed.

Lemma header_nine_digits n :
  100000000 <= n <= 999999999 ->
  header_str n = digits 10 (Z.to_N (n / 10)) ++ [digit_char (Z.to_N n mod 10)].
Proof.
  intros Hn. rewrite header_str_any by lia.
  rewrite (digits_step 10 (Z.to_N n)) by lia.
  rewrite length_app, digits_length_8 by lia.
  cbn [length Nat.add Nat.sub repeat app].
  do 2 f_equal. lia.
Qed.

Lemma int_of_digits n :
  int_of_bytes (map byte_of_N (digits 10 n)) = Returns (Z.of_N n).
Proof.
  pose proof (digits_chars 10 n ltac:(lia)) as Hall.
  unfold int_of_bytes.
  rewrite codes_ascii by now apply decimal_digit_ascii.
  rewrite (parse_int_decimal (digits 10 n) (Z.of_N n)); auto.
  - apply digits_nonempty.
  - change 10 with (Z.of_N 10). now rewrite scan_digits_digits by lia.
Qed.

(** X5: [zfill] pads but never cuts, so a payload of 100,000,000 to
    999,999,999 bytes gets a header of nine digits.  [receive_message]
    reads eight of them: it takes a tenth of the length for the length, and
    the ninth digit for the first byte of the payload. *)
Theorem nine_digit_length_is_read_as_a_tenth (s : Socket.t) (n : Z) (payload : bytes) :
  100000000 <= n <= 999999999 ->
  Socket.closed s = false ->
  Socket.inbound s = frame_header n ++ payload ->
  let last_digit := byte_of_N (digit_char (Z.to_N n mod 10)) in
  length (frame_header n) = 9%nat /\
  Protocol.receive_message s
  = (match decode (firstn (Z.to_nat (n / 10)) (last_digit :: payload)) with
     | Returns text => Returns text
     | _ => Returns Protocol.QUIT_message
     end,
     Socket.with_inbound (skipn (Z.to_nat (n / 10)) (last_digit :: payload)) s).
Proof.
  intros Hn Hopen Hin last_digit.
  unfold frame_header in *. rewrite header_nine_digits in * by assumption.
  rewrite map_app in *. cbn [map] in *. fold last_digit in Hin |- *.
  set (header := map byte_of_N (digits 10 (Z.to_N (n / 10)))) in *.
  assert (H8 : length header = 8%nat)
    by (subst header; rewrite length_map; apply digits_length_8; lia).
  split; [rewrite length_app, H8; reflexivity |].
  assert (Hint : int_of_bytes header = Returns (n / 10))
    by (subst header; rewrite int_of_digits; f_equal; lia).
  rewrite <- app_assoc in Hin. cbn [app] in Hin.
  assert (Hrecv1 : Socket.recv Protocol.LENGTH_HEADER s
                   = (Returns header, Socket.with_inbound (last_digit :: payload) s)).
  { replace Protocol.LENGTH_HEADER with (len header)
      by (unfold len; rewrite H8; reflexivity).
    apply recv_front; [assumption | assumption |].
    intros E. rewrite E in H8. discriminate. }
  unfold Protocol.receive_message, Eff.bind, Eff.try_except, Eff.ret, Eff.lift.
  rewrite Hrecv1, Hint.
  unfold Socket.recv.
  destruct (Z.ltb_spec (n / 10) 0); [lia |].
  destruct (Z.eqb_spec (n / 10) 0); [lia |].
  cbn [Socket.closed Socket.with_inbound Socket.inbound]. rewrite Hopen.
  destruct (decode_outcomes (firstn (Z.to_nat (n / 10)) (last_digit :: payload)))
    as [[text Hd] | Hd]; rewrite Hd; reflexivity.
Qed.

(** The header of 100,000,000 bytes, of which two have arrived. *)
Lemma nine_digit_length_is_read_as_a_tenth_witness :
  let s := Socket.incoming (bytes_of_string "100000000ab") Socket.PeerOpen in
  let last_digit := byte_of_N (digit_char (Z.to_N 100000000 mod 10)) in
  length (frame_header 100000000) = 9%nat /\
  Protocol.receive_message s
  = (match decode (firstn (Z.to_nat (100000000 / 10))
                          (last_digit :: bytes_of_string "ab")) with
     | Returns text => Returns text
     | _ => Returns Protocol.QUIT_message
     end,
     Socket.with_inbound
       (skipn (Z.to_nat (100000000 / 10)) (last_digit :: bytes_of_string "ab")) s).
Proof.
  intros s.
  apply (nine_digit_length_is_read_as_a_tenth s 100000000 (bytes_of_string "ab"));
    [lia | reflexivity | reflexivity].
Defined.

(** *** A header that arrives in pieces *)

Lemma int_of_zeros (k : nat) :
  (1 <= k)%nat -> int_of_bytes (map byte_of_N (repeat zero_char k)) = Returns 0.
Proof.
  intros Hk.
  assert (Hall : Forall (is_digit_char 10) (repeat zero_char k)).
  { apply Forall_forall. intros c Hc%repeat_spec. subst c.
    exists 0%N. split; [lia | reflexivity]. }
  unfold int_of_bytes. rewrite codes_ascii by now apply decimal_digit_ascii.
  rewrite (parse_int_decimal (repeat zero_char k) 0); auto.
  - destruct k; [lia | discriminate].
  - rewrite <- (app_nil_r (repeat zero_char k)).
    now rewrite scan_digits_zeros by lia.
Qed.

Lemma firstn_of_repeat {A} (x : A) (k : nat) : forall m,
  (k <= m)%nat -> firstn k (repeat x m) = repeat x k.
Proof.
  induction k as [| k IH]; intros m Hm; [reflexivity |].
  destruct m as [| m]; [lia |]. cbn. f_equal. apply IH. lia.
Qed.

(** X28: the header too is read with a single [recv].  When only the first
    bytes of a frame have arrived, and they are padding zeros of the
    header, [receive_message] does not wait for the rest: it reads them as
    the length 0 and returns the empty string as the message. *)
Theorem receive_message_reads_a_split_header_as_an_empty_message
  (s : Socket.t) (n : Z) (k : nat) :
  0 <= n -> (1 <= k)%nat -> (k + length (digits 10 (Z.to_N n)) <= 8)%nat ->
  Socket.closed s = false ->
  Socket.inbound s = firstn k (frame_header n) ->
  Protocol.receive_message s = (Returns [], Socket.with_inbound [] s).
Proof.
  intros Hn Hk Hfit Hopen Hin.
  assert (Hpre : firstn k (frame_header n) = map byte_of_N (repeat zero_char k)).
  { unfold frame_header. rewrite header_str_any by assumption.
    rewrite map_app, firstn_app, length_map, repeat_length.
    replace (k - (8 - length (digits 10 (Z.to_N n))))%nat with 0%nat by lia.
    rewrite firstn_O, app_nil_r, firstn_map.
    now rewrite firstn_of_repeat by lia. }
  rewrite Hpre in Hin.
  set (header := map byte_of_N (repeat zero_char k)) in *.
  assert (Hlen : (length header <= 8)%nat)
    by (subst header; rewrite length_map, repeat_length; lia).
  assert (Hne : header <> [])
    by (subst header; destruct k; [lia | discriminate]).
  assert (Hrecv : Socket.recv Protocol.LENGTH_HEADER s
                  = (Returns header, Socket.with_inbound [] s)).
  { unfold Socket.recv. cbn [Z.ltb Z.eqb Protocol.LENGTH_HEADER Z.compare].
    rewrite Hopen, Hin. destruct header as [| b t] eqn:E; [contradiction |].
    rewrite <- E in *. rewrite firstn_all2, skipn_all2 by (cbn; lia). reflexivity. }
  unfold Protocol.receive_message, Eff.bind, Eff.try_except, Eff.ret, Eff.lift.
  rewrite Hrecv. subst header. rewrite (int_of_zeros k Hk).
  reflexivity.
Qed.

(** The first three bytes of the frame of a message of 17 bytes. *)
Lemma receive_message_reads_a_split_header_as_an_empty_message_witness :
  Protocol.receive_message (Socket.incoming (bytes_of_string "000") Socket.PeerOpen)
  = (Returns [],
     Socket.with_inbound [] (Socket.incoming (bytes_of_string "000") Socket.PeerOpen)).
Proof.
  apply (receive_message_reads_a_split_header_as_an_empty_message
           (Socket.incoming (bytes_of_string "000") Socket.PeerOpen) 17 3);
    [lia | lia | cbn; lia | reflexivity | reflexivity].
Defined.

End FramingFacts.

(** ** Colours *)

Module ColorFacts.
Import Py Server Readings BuiltinFacts.

#[local] Ltac Zify.zify_post_hook ::= Z.to_euclidean_division_equations.

Lemma nibble_in d : (d < 16)%N -> In d nibbles.
Proof.
  intros H. unfold nibbles. apply in_map_iff. exists (N.to_nat d).
  split; [lia | apply in_seq; lia].
Qed.

Lemma option_Z_eqb_eq a b : option_Z_eqb a b = true -> a = b.
Proof.
  destruct a, b; cbn; try discriminate; [| reflexivity].
  intros H%Z.eqb_eq. now subst.
Qed.

Lemma parse_hex_pair a b :
  (a < 16)%N -> (b < 16)%N ->
  parse_int 16 [digit_char a; digit_char b] = Some (16 * Z.of_N a + Z.of_N b).
Proof.
  intros Ha%nibble_in Hb%nibble_in.
  assert (All : forallb (fun a => forallb (fun b =>
            option_Z_eqb (parse_int 16 [digit_char a; digit_char b])
                         (Some (16 * Z.of_N a + Z.of_N b))) nibbles) nibbles = true)
    by (vm_compute; reflexivity).
  rewrite forallb_forall in All. specialize (All a Ha).
  rewrite forallb_forall in All. now apply option_Z_eqb_eq, All.
Qed.

Lemma parse_x_digit a :
  (a < 16)%N -> parse_int 16 [120%N; digit_char a] = None.
Proof.
  intros Ha%nibble_in.
  assert (All : forallb (fun a =>
            option_Z_eqb (parse_int 16 [120%N; digit_char a]) None) nibbles = true)
    by (vm_compute; reflexivity).
  rewrite forallb_forall in All. now apply option_Z_eqb_eq, All.
Qed.

Lemma parse_0x : parse_int 16 [48%N; 120%N] = None.
Proof. reflexivity. Qed.

Lemma nibble_lt k n : (nibble k n < 16)%N.
Proof. unfold nibble. apply N.mod_lt. lia. Qed.

Ltac regroup l r := replace l with r by (rewrite <- ?app_assoc; reflexivity).

Lemma rgb_x_last (P : str) a :
  (a < 16)%N -> rgb_of_hexa (P ++ [120%N; digit_char a]) = Raises ValueError.
Proof.
  intros Ha. unfold rgb_of_hexa, int_of_str.
  rewrite slice_last2, parse_x_digit by assumption. reflexivity.
Qed.

Lemma rgb_0x_mid (P : str) a b :
  (a < 16)%N -> (b < 16)%N ->
  rgb_of_hexa (P ++ [48%N; 120%N; digit_char a; digit_char b]) = Raises ValueError.
Proof.
  intros Ha Hb. unfold rgb_of_hexa, int_of_str.
  rewrite slice_mid2, parse_0x.
  regroup (P ++ [48%N; 120%N; digit_char a; digit_char b])
          ((P ++ [48%N; 120%N]) ++ [digit_char a; digit_char b]).
  rewrite slice_last2, parse_hex_pair by assumption. reflexivity.
Qed.

Lemma rgb_x_mid (P : str) a b c :
  (a < 16)%N -> (b < 16)%N -> (c < 16)%N ->
  rgb_of_hexa (P ++ [120%N; digit_char a; digit_char b; digit_char c])
  = Raises ValueError.
Proof.
  intros Ha Hb Hc. unfold rgb_of_hexa, int_of_str.
  rewrite slice_mid2, parse_x_digit by assumption.
  regroup (P ++ [120%N; digit_char a; digit_char b; digit_char c])
          ((P ++ [120%N; digit_char a]) ++ [digit_char b; digit_char c]).
  rewrite slice_last2, parse_hex_pair by assumption. reflexivity.
Qed.

Lemma rgb_0x_first (P : str) a b c d :
  (a < 16)%N -> (b < 16)%N -> (c < 16)%N -> (d < 16)%N ->
  rgb_of_hexa (P ++ [48%N; 120%N; digit_char a; digit_char b; digit_char c; digit_char d])
  = Raises ValueError.
Proof.
  intros Ha Hb Hc Hd. unfold rgb_of_hexa, int_of_str.
  rewrite slice_first2, parse_0x.
  regroup (P ++ [48%N; 120%N; digit_char a; digit_char b; digit_char c; digit_char d])
          ((P ++ [48%N; 120%N]) ++ [digit_char a; digit_char b; digit_char c; digit_char d]).
  rewrite slice_mid2, parse_hex_pair by assumption.
  regroup ((P ++ [48%N; 120%N]) ++ [digit_char a; digit_char b; digit_char c; digit_char d])
          (((P ++ [48%N; 120%N]) ++ [digit_char a; digit_char b])
             ++ [digit_char c; digit_char d]).
  rewrite slice_last2, parse_hex_pair by assumption. reflexivity.
Qed.

Lemma rgb_x_first (P : str) a b c d e :
  (a < 16)%N -> (b < 16)%N -> (c < 16)%N -> (d < 16)%N -> (e < 16)%N ->
  rgb_of_hexa (P ++ [120%N; digit_char a; digit_char b; digit_char c;
                     digit_char d; digit_char e])
  = Raises ValueError.
Proof.
  intros Ha Hb Hc Hd He. unfold rgb_of_hexa, int_of_str.
  rewrite slice_first2, parse_x_digit by assumption.
  regroup (P ++ [120%N; digit_char a; digit_char b; digit_char c; digit_char d; digit_char e])
          ((P ++ [120%N; digit_char a]) ++ [digit_char b; digit_char c; digit_char d; digit_char e]).
  rewrite slice_mid2, parse_hex_pair by assumption.
  regroup ((P ++ [120%N; digit_char a]) ++ [digit_char b; digit_char c; digit_char d; digit_char e])
          (((P ++ [120%N; digit_char a]) ++ [digit_char b; digit_char c])
             ++ [digit_char d; digit_char e]).
  rewrite slice_last2, parse_hex_pair by assumption. reflexivity.
Qed.

Lemma rgb_six_digits (P : str) a b c d e f :
  (a < 16)%N -> (b < 16)%N -> (c < 16)%N -> (d < 16)%N -> (e < 16)%N -> (f < 16)%N ->
  rgb_of_hexa (P ++ [digit_char a; digit_char b; digit_char c;
                     digit_char d; digit_char e; digit_char f])
  = Returns (16 * Z.of_N e + Z.of_N f, 16 * Z.of_N c + Z.of_N d,
             16 * Z.of_N a + Z.of_N b).
Proof.
  intros Ha Hb Hc Hd He Hf. unfold rgb_of_hexa, int_of_str.
  rewrite slice_first2, (parse_hex_pair a b) by assumption.
  regroup (P ++ [digit_char a; digit_char b; digit_char c; digit_char d; digit_char e; digit_char f])
          ((P ++ [digit_char a; digit_char b]) ++ [digit_char c; digit_char d; digit_char e; digit_char f]).
  rewrite slice_mid2, (parse_hex_pair c d) by assumption.
  regroup ((P ++ [digit_char a; digit_char b]) ++ [digit_char c; digit_char d; digit_char e; digit_char f])
          (((P ++ [digit_char a; digit_char b]) ++ [digit_char c; digit_char d])
             ++ [digit_char e; digit_char f]).
  rewrite slice_last2, (parse_hex_pair e f) by assumption. reflexivity.
Qed.

Lemma byte_of_nibbles m :
  16 * Z.of_N ((m / 16) mod 16) + Z.of_N (m mod 16) = Z.of_N (m mod 256).
Proof. lia. Qed.

Lemma hex_sign z :
  exists sign, hex z = sign ++ [48%N; 120%N] ++ digits 16 (Z.abs_N z).
Proof.
  unfold hex. destruct (z <? 0); [exists [minus_sign] | exists []]; reflexivity.
Qed.

(** [strToRGB] takes the three low bytes of the magnitude of the hash, and
    raises [ValueError] on a hash with fewer than six hexadecimal digits. *)
Lemma strToRGB_value (hash : str -> Z) (string : str) :
  strToRGB hash string = rgb_of_hash (hash string).
Proof.
  change (strToRGB hash string) with (rgb_of_hexa (hex (hash string))).
  destruct (hex_sign (hash string)) as [sign ->].
  unfold rgb_of_hash.
  set (n := Z.abs_N (hash string)).
  assert (Hn : Z.abs (hash string) = Z.of_N n) by (subst n; lia).
  rewrite Hn. clearbody n. clear Hn.
  pose proof (nibble_lt 0 n). pose proof (nibble_lt 1 n). pose proof (nibble_lt 2 n).
  pose proof (nibble_lt 3 n). pose proof (nibble_lt 4 n). pose proof (nibble_lt 5 n).
  destruct (hex_digits_cases n)
    as [[Hr ->] | [[Hr ->] | [[Hr ->] | [[Hr ->] | [[Hr ->] | [Hr [pre ->]]]]]]];
    unfold hexd; (destruct (Z.ltb_spec (Z.of_N n) 0x100000); [| try lia]); try lia.
  - regroup (sign ++ [48%N; 120%N] ++ [digit_char (nibble 0 n)])
            ((sign ++ [48%N]) ++ [120%N; digit_char (nibble 0 n)]).
    now apply rgb_x_last.
  - apply (rgb_0x_mid sign); assumption.
  - regroup (sign ++ [48%N; 120%N] ++ [digit_char (nibble 2 n); digit_char (nibble 1 n); digit_char (nibble 0 n)])
            ((sign ++ [48%N]) ++ [120%N; digit_char (nibble 2 n); digit_char (nibble 1 n); digit_char (nibble 0 n)]).
    now apply rgb_x_mid.
  - apply (rgb_0x_first sign); assumption.
  - regroup (sign ++ [48%N; 120%N] ++ [digit_char (nibble 4 n); digit_char (nibble 3 n); digit_char (nibble 2 n); digit_char (nibble 1 n); digit_char (nibble 0 n)])
            ((sign ++ [48%N]) ++ [120%N; digit_char (nibble 4 n); digit_char (nibble 3 n); digit_char (nibble 2 n); digit_char (nibble 1 n); digit_char (nibble 0 n)]).
    now apply rgb_x_first.
  - regroup (sign ++ [48%N; 120%N] ++ pre ++ [digit_char (nibble 5 n); digit_char (nibble 4 n); digit_char (nibble 3 n); digit_char (nibble 2 n); digit_char (nibble 1 n); digit_char (nibble 0 n)])
            ((sign ++ [48%N; 120%N] ++ pre) ++ [digit_char (nibble 5 n); digit_char (nibble 4 n); digit_char (nibble 3 n); digit_char (nibble 2 n); digit_char (nibble 1 n); digit_char (nibble 0 n)]).
    rewrite rgb_six_digits by assumption.
    unfold nibble. cbn [drop_nibbles].
    rewrite (byte_of_nibbles n), (byte_of_nibbles (n / 16 / 16)),
      (byte_of_nibbles (n / 16 / 16 / 16 / 16)).
    rewrite !N.Div0.div_div. cbn [N.mul Pos.mul Pos.add].
    rewrite !N2Z.inj_mod, !N2Z.inj_div. reflexivity.
Qed.

Lemma rgb_of_hash_range h r g b :
  rgb_of_hash h = Returns (r, g, b) ->
  0 <= r <= 255 /\ 0 <= g <= 255 /\ 0 <= b <= 255.
Proof.
  unfold rgb_of_hash. destruct (Z.abs h <? 0x100000); [discriminate |].
  intros [= <- <- <-].
  pose proof (Z.mod_pos_bound (Z.abs h) 256 ltac:(lia)).
  pose proof (Z.mod_pos_bound (Z.abs h / 256) 256 ltac:(lia)).
  pose proof (Z.mod_pos_bound (Z.abs h / 65536) 256 ltac:(lia)).
  lia.
Qed.

(** C9: the colour of an identity is a function of the identity: two
    evaluations that return give the same triple, the triple is fixed by the
    hash of the string alone, and each of its components lies in 0..255.
    The call returns as soon as the hash has six hexadecimal digits. *)
Theorem strToRGB_deterministic_in_range (hash : str -> Z) (string : str) :
  (0x100000 <= Z.abs (hash string) ->
   exists rgb, strToRGB hash string = Returns rgb) /\
  forall r g b : Z,
    strToRGB hash string = Returns (r, g, b) ->
    (forall rgb, strToRGB hash string = Returns rgb -> rgb = (r, g, b)) /\
    (forall other, hash other = hash string ->
                   strToRGB hash other = Returns (r, g, b)) /\
    0 <= r <= 255 /\ 0 <= g <= 255 /\ 0 <= b <= 255.
Proof.
  split.
  - intros Hbig. rewrite strToRGB_value. unfold rgb_of_hash.
    destruct (Z.ltb_spec (Z.abs (hash string)) 0x100000); [lia | eauto].
  - intros r g b H. split; [| split].
    + intros rgb H'. congruence.
    + intros other Hsame.
      rewrite strToRGB_value, Hsame, <- strToRGB_value. exact H.
    + rewrite strToRGB_value in H. exact (rgb_of_hash_range _ _ _ _ H).
Qed.

Lemma strToRGB_deterministic_in_range_witness :
  (forall rgb, strToRGB sample_hash (str_of_string "1b4e28ba") = Returns rgb ->
               rgb = (239, 205, 171)) /\
  (forall other, sample_hash other = sample_hash (str_of_string "1b4e28ba") ->
                 strToRGB sample_hash other = Returns (239, 205, 171)) /\
  0 <= 239 <= 255 /\ 0 <= 205 <= 255 /\ 0 <= 171 <= 255.
Proof.
  apply (proj2 (strToRGB_deterministic_in_range sample_hash
                  (str_of_string "1b4e28ba"))).
  vm_compute. reflexivity.
Defined.

(** The empty string, whose hash is 0 in CPython, has no six digits. *)
Lemma strToRGB_short_hash (string : str) :
  strToRGB (fun _ => 0) string = Raises ValueError.
Proof. rewrite strToRGB_value. reflexivity. Qed.

(** X12: [strToRGB] raises exactly when the magnitude of the hash is below
    [16^5], that is when its hexadecimal text has fewer than six digits
    (the slices then take in the [0x] prefix); the exception is
    [ValueError], and the function never waits. *)
Theorem strToRGB_raises_on_a_short_hash (hash : str -> Z) (string : str) :
  (strToRGB hash string = Raises ValueError <-> Z.abs (hash string) < 0x100000)
  /\ (forall e, strToRGB hash string = Raises e -> e = ValueError)
  /\ strToRGB hash string <> Blocks.
Proof.
  rewrite strToRGB_value. unfold rgb_of_hash.
  destruct (Z.ltb_spec (Z.abs (hash string)) 0x100000); repeat split;
    try discriminate; try congruence; try lia.
Qed.

Lemma low_byte m : 0 <= m -> m mod 256 = (m mod 16777216) mod 256.
Proof. intros H. lia. Qed.

Lemma mid_byte m : 0 <= m -> (m / 256) mod 256 = ((m mod 16777216) / 256) mod 256.
Proof. intros H. lia. Qed.

Lemma high_byte m : 0 <= m -> (m / 65536) mod 256 = ((m mod 16777216) / 65536) mod 256.
Proof. intros H. lia. Qed.

(** X13: the colour is read off the low 24 bits of the magnitude of the
    hash: two strings whose hashes agree there, whatever their signs and
    higher bits, get the same colour. *)
Theorem strToRGB_reads_the_low_three_bytes (hash : str -> Z) (a b : str) :
  0x100000 <= Z.abs (hash a) -> 0x100000 <= Z.abs (hash b) ->
  Z.abs (hash a) mod 0x1000000 = Z.abs (hash b) mod 0x1000000 ->
  strToRGB hash a = strToRGB hash b
  /\ exists rgb, strToRGB hash a = Returns rgb.
Proof.
  intros Ha Hb Hlow. rewrite !strToRGB_value. unfold rgb_of_hash.
  destruct (Z.ltb_spec (Z.abs (hash a)) 0x100000); [lia |].
  destruct (Z.ltb_spec (Z.abs (hash b)) 0x100000); [lia |].
  split; [| eauto].
  rewrite (low_byte (Z.abs (hash a))), (mid_byte (Z.abs (hash a))),
    (high_byte (Z.abs (hash a))) by lia.
  rewrite (low_byte (Z.abs (hash b))), (mid_byte (Z.abs (hash b))),
    (high_byte (Z.abs (hash b))) by lia.
  now rewrite Hlow.
Qed.

Lemma strToRGB_reads_the_low_three_bytes_witness :
  strToRGB two_hashes (str_of_string "a") = strToRGB two_hashes (str_of_string "b")
  /\ exists rgb, strToRGB two_hashes (str_of_string "a") = Returns rgb.
Proof.
  apply (strToRGB_reads_the_low_three_bytes two_hashes
           (str_of_string "a") (str_of_string "b")); vm_compute; congruence.
Defined.

End ColorFacts.

(** ** Input collection *)

Module ServerFacts.
Import Py Objects Server Readings BuiltinFacts FramingFacts.

(** *** Dictionaries *)

Section DictFacts.
Context {V : Type}.
Implicit Types (d kept rest : Dict.t (K := uuid) (V := V)).

Lemma get_middle kept rest k (v : V) :
  ~ In k (Dict.keys kept) ->
  Dict.get N.eqb k (kept ++ (k, v) :: rest) = Some v.
Proof.
  induction kept as [| [k' v'] kept IH]; intros Hfresh; cbn.
  - now rewrite N.eqb_refl.
  - cbn in Hfresh. destruct (N.eqb_spec k k'); [subst; tauto |].
    apply IH. tauto.
Qed.

Lemma remove_middle kept rest k (v : V) :
  ~ In k (Dict.keys kept) ->
  Dict.remove N.eqb k (kept ++ (k, v) :: rest) = kept ++ rest.
Proof.
  induction kept as [| [k' v'] kept IH]; intros Hfresh; cbn.
  - now rewrite N.eqb_refl.
  - cbn in Hfresh. destruct (N.eqb_spec k k'); [subst; tauto |].
    f_equal. apply IH. tauto.
Qed.

Lemma set_fresh d k (v : V) :
  ~ In k (Dict.keys d) -> Dict.set N.eqb k v d = d ++ [(k, v)].
Proof.
  induction d as [| [k' v'] d IH]; intros Hfresh; cbn; [reflexivity |].
  cbn in Hfresh. destruct (N.eqb_spec k k'); [subst; tauto |].
  f_equal. apply IH. tauto.
Qed.

End DictFacts.

(** *** One connection *)

Section Polling.
Variable json_loads : str -> outcome pyval.

Lemma on_socket_run {A} (f : fd) (m : Eff.M Socket.t A) (w : world) :
  on_socket f m w = (fst (m (sockets w f)), set_socket f (snd (m (sockets w f))) w).
Proof. unfold on_socket, Eff.zoom. now destruct (m (sockets w f)). Qed.

Lemma sockets_set_same f s w : sockets (set_socket f s w) f = s.
Proof. cbn. now rewrite Nat.eqb_refl. Qed.

Lemma sockets_set_other f g s w : g <> f -> sockets (set_socket f s w) g = sockets w g.
Proof. intros H. cbn. now destruct (Nat.eqb_spec g f). Qed.

Lemma sockets_set_id f w g : sockets (set_socket f (sockets w f) w) g = sockets w g.
Proof. cbn. destruct (Nat.eqb_spec g f); now subst. Qed.

Lemma py_in_intents (x : str) (actions : list str) :
  py_in x (intents actions) = Returns (contains x actions).
Proof.
  unfold py_in, intents, contains. f_equal.
  induction actions as [| a t IH]; [reflexivity |].
  cbn [map existsb is_str]. now rewrite IH.
Qed.

Lemma send_quit (s : Socket.t) :
  sendable s = true ->
  Protocol.send_message Protocol.QUIT s
  = (Returns tt, Socket.with_outbound (Socket.outbound s ++ framed Protocol.QUIT) s).
Proof.
  intros Hopen.
  rewrite (send_message_frames Protocol.QUIT (bytes_of_string "QUIT"));
    [reflexivity | reflexivity | cbn; lia | assumption].
Qed.

Lemma poll_silent (w : world) (client_id : uuid) (f : fd) (inputs : inputs_t) :
  holds json_loads (sockets w f) Silent ->
  exists w',
    poll json_loads client_id f inputs w
    = (Returns (Dict.set N.eqb client_id (PList []) inputs), w')
    /\ client_dict w' = client_dict w
    /\ forall g, sockets w' g = sockets w g.
Proof.
  intros (Hin & Hpeer & Hopen).
  unfold poll, Eff.bind. rewrite on_socket_run.
  unfold Socket.select_ready, Socket.readable. rewrite Hopen, Hin, Hpeer. cbn [fst snd].
  eexists. split; [reflexivity |]. split; [reflexivity |].
  intros g. apply sockets_set_id.
Qed.

Lemma poll_keeps (w : world) (client_id : uuid) (f : fd) (inputs : inputs_t)
      (message : str) (s' : Socket.t) (v : pyval) :
  Socket.closed (sockets w f) = false ->
  Socket.readable (sockets w f) = true ->
  Protocol.receive_message (sockets w f) = (Returns message, s') ->
  json_loads message = Returns v ->
  py_in Protocol.QUIT v = Returns false ->
  exists w',
    poll json_loads client_id f inputs w
    = (Returns (Dict.set N.eqb client_id v inputs), w')
    /\ client_dict w' = client_dict w
    /\ sockets w' f = s'
    /\ forall g, g <> f -> sockets w' g = sockets w g.
Proof.
  intros Hopen Hready Hrecv Hloads Hin.
  unfold poll, Eff.bind. rewrite on_socket_run.
  unfold Socket.select_ready. rewrite Hopen, Hready. cbn [fst snd].
  rewrite on_socket_run, sockets_set_id, Hrecv. cbn [fst snd].
  unfold Eff.lift, Eff.ret. rewrite Hloads, Hin.
  eexists. split; [reflexivity |]. split; [reflexivity |]. split.
  - apply sockets_set_same.
  - intros g Hg. now rewrite sockets_set_other, sockets_set_id.
Qed.

Lemma poll_quits (w : world) (client_id : uuid) (f : fd) (inputs : inputs_t)
      (message : str) (s' : Socket.t) (v : pyval) (entry : fd * Player) :
  Socket.closed (sockets w f) = false ->
  Socket.readable (sockets w f) = true ->
  Protocol.receive_message (sockets w f) = (Returns message, s') ->
  sendable s' = true ->
  json_loads message = Returns v ->
  py_in Protocol.QUIT v = Returns true ->
  Dict.get N.eqb client_id (client_dict w) = Some entry ->
  exists w',
    poll json_loads client_id f inputs w = (Returns inputs, w')
    /\ client_dict w' = Dict.remove N.eqb client_id (client_dict w)
    /\ sockets w' f
       = Socket.mk (Socket.inbound s') (Socket.peer s')
                   (Socket.outbound s' ++ framed Protocol.QUIT) true
    /\ forall g, g <> f -> sockets w' g = sockets w g.
Proof.
  intros Hopen Hready Hrecv Hopen' Hloads Hin Hget.
  unfold poll, Eff.bind. rewrite on_socket_run.
  unfold Socket.select_ready. rewrite Hopen, Hready. cbn [fst snd].
  rewrite on_socket_run, sockets_set_id, Hrecv. cbn [fst snd].
  unfold Eff.lift, Eff.ret. rewrite Hloads, Hin.
  rewrite on_socket_run, sockets_set_same, (send_quit s' Hopen'). cbn [fst snd].
  rewrite on_socket_run, sockets_set_same. cbn [fst snd Socket.close].
  unfold del_client, set_socket. cbn [client_dict sockets]. unfold Dict.del. rewrite Hget.
  eexists. split; [reflexivity |]. split; [reflexivity |]. split.
  - cbn. now rewrite Nat.eqb_refl.
  - intros g Hg. cbn. destruct (Nat.eqb_spec g f); [contradiction | reflexivity].
Qed.

Lemma framed_nonempty (json_data : str) (payload : bytes) :
  encode json_data = Returns payload -> len payload <= 99999999 ->
  framed json_data <> [].
Proof.
  intros Henc Hlen E.
  rewrite (framed_frame json_data payload Henc Hlen) in E.
  assert (Hn : 0 <= len payload <= 99999999) by (unfold len in *; lia).
  destruct (header_bytes (len payload) Hn) as (_ & H8 & _).
  fold (frame_header (len payload)) in H8.
  apply (f_equal (@length _)) in E. rewrite length_app, H8 in E. discriminate.
Qed.

Lemma poll_departed (w : world) (client_id : uuid) (f : fd) (inputs : inputs_t)
      (entry : fd * Player) :
  json_loads Protocol.QUIT_message = Returns (intents [Protocol.QUIT]) ->
  holds json_loads (sockets w f) Departed ->
  Dict.get N.eqb client_id (client_dict w) = Some entry ->
  exists w',
    poll json_loads client_id f inputs w = (Returns inputs, w')
    /\ client_dict w' = Dict.remove N.eqb client_id (client_dict w)
    /\ sockets w' f = after_poll (sockets w f) Departed
    /\ forall g, g <> f -> sockets w' g = sockets w g.
Proof.
  intros Hquit (Hin & Hpeer & Hopen) Hget.
  assert (Hready : Socket.readable (sockets w f) = true)
    by (unfold Socket.readable; now rewrite Hin, Hpeer).
  pose proof (receive_message_peer_closed _ Hin Hpeer Hopen) as Hrecv.
  assert (Hsend : sendable (sockets w f) = true)
    by (unfold sendable; now rewrite Hopen, Hpeer).
  destruct (poll_quits w client_id f inputs _ _ (intents [Protocol.QUIT]) entry
              Hopen Hready Hrecv Hsend Hquit) as (w' & Hp & Hd & Hsf & Hs);
    [now rewrite py_in_intents | assumption |].
  exists w'. cbn [after_poll]. rewrite Hsf, Hin. repeat split; auto.
Qed.

(** The poll of a connection whose client is there. *)
Lemma poll_live (w : world) (client_id : uuid) (f : fd) (inputs : inputs_t)
      (b : buffered) (entry : fd * Player) :
  b <> Departed ->
  holds json_loads (sockets w f) b ->
  Dict.get N.eqb client_id (client_dict w) = Some entry ->
  exists w',
    poll json_loads client_id f inputs w
    = (Returns (if quits b then inputs
                else Dict.set N.eqb client_id (decoded b) inputs), w')
    /\ client_dict w'
       = (if quits b then Dict.remove N.eqb client_id (client_dict w)
          else client_dict w)
    /\ sockets w' f = after_poll (sockets w f) b
    /\ forall g, g <> f -> sockets w' g = sockets w g.
Proof.
  intros Hlive Hholds Hget. destruct b as [| | json_data actions rest].
  - destruct (poll_silent w client_id f inputs Hholds) as (w' & Hp & Hd & Hs).
    exists w'. cbn [quits decoded after_poll]. repeat split; auto.
  - contradiction.
  - destruct Hholds as ((payload & Henc & Hlen) & Hin & Hopen & Hloads & Hsend).
    assert (Hready : Socket.readable (sockets w f) = true).
    { unfold Socket.readable. rewrite Hin.
      pose proof (framed_nonempty json_data payload Henc Hlen) as Hne.
      destruct (framed json_data); [contradiction | reflexivity]. }
    pose proof (receive_message_framed json_data payload (sockets w f) rest
                  Henc Hlen Hin Hopen) as Hrecv.
    cbn [quits decoded after_poll].
    destruct (contains Protocol.QUIT actions) eqn:Hquit.
    + destruct (poll_quits w client_id f inputs json_data _ (intents actions) entry
                  Hopen Hready Hrecv (Hsend eq_refl) Hloads)
        as (w' & Hp & Hd & Hsf & Hs);
        [now rewrite py_in_intents, Hquit | assumption |].
      exists w'. repeat split; auto.
    + destruct (poll_keeps w client_id f inputs json_data _ (intents actions)
                  Hopen Hready Hrecv Hloads) as (w' & Hp & Hd & Hsf & Hs);
        [now rewrite py_in_intents, Hquit |].
      exists w'. repeat split; auto.
Qed.

(** The poll of a connection in one of the three states. *)
Lemma poll_holds (w : world) (client_id : uuid) (f : fd) (inputs : inputs_t)
      (b : buffered) (entry : fd * Player) :
  json_loads Protocol.QUIT_message = Returns (intents [Protocol.QUIT]) ->
  holds json_loads (sockets w f) b ->
  Dict.get N.eqb client_id (client_dict w) = Some entry ->
  exists w',
    poll json_loads client_id f inputs w
    = (Returns (if quits b then inputs
                else Dict.set N.eqb client_id (decoded b) inputs), w')
    /\ client_dict w'
       = (if quits b then Dict.remove N.eqb client_id (client_dict w)
          else client_dict w)
    /\ sockets w' f = after_poll (sockets w f) b
    /\ forall g, g <> f -> sockets w' g = sockets w g.
Proof.
  intros Hquit_text Hholds Hget.
  destruct b as [| | json_data actions rest] eqn:Hb;
    [| cbn [quits]; now apply (poll_departed w client_id f inputs entry) |];
    rewrite <- Hb in *; apply (poll_live w client_id f inputs b entry);
    (assumption || (rewrite Hb; discriminate)).
Qed.

(** *** The whole roster *)

Lemma keys_app {V : Type} (a b : Dict.t (K := uuid) (V := V)) :
  Dict.keys (a ++ b) = Dict.keys a ++ Dict.keys b.
Proof. apply map_app. Qed.

Lemma poll_all_spec (pending : uuid -> buffered) (rest : roster) :
  forall (kept : roster) (acc : inputs_t) (w : world),
    client_dict w = kept ++ rest ->
    NoDup (Dict.keys (kept ++ rest)) ->
    NoDup (map fd_of rest) ->
    (forall k, In k (Dict.keys acc) -> In k (Dict.keys kept)) ->
    json_loads Protocol.QUIT_message = Returns (intents [Protocol.QUIT]) ->
    (forall e, In e rest ->
               holds json_loads (sockets w (fd_of e)) (pending (fst e))) ->
    exists w',
      poll_all json_loads rest acc w
      = (Returns (acc ++ map (input_of pending) (filter (stays pending) rest)), w')
      /\ client_dict w' = kept ++ filter (stays pending) rest
      /\ (forall e, In e rest ->
            sockets w' (fd_of e)
            = after_poll (sockets w (fd_of e)) (pending (fst e)))
      /\ (forall g, ~ In g (map fd_of rest) -> sockets w' g = sockets w g).
Proof.
  induction rest as [| [client_id [f player]] rest IH];
    intros kept acc w Hdict Hkeys Hfds Hacc Hquit_text Hholds.
  - exists w. cbn. rewrite !app_nil_r in *. repeat split; auto. intros e [].
  - rewrite keys_app in Hkeys. cbn [Dict.keys map fst] in Hkeys.
    pose proof (NoDup_remove_1 _ _ _ Hkeys) as Hkeys'.
    pose proof (NoDup_remove_2 _ _ _ Hkeys) as Hfresh.
    assert (Hnot_kept : ~ In client_id (Dict.keys kept))
      by (intros Hk; apply Hfresh, in_or_app; now left).
    cbn [map fd_of fst snd] in Hfds. inversion Hfds as [| ? ? Hf_fresh Hfds']; subst.
    assert (Hget : Dict.get N.eqb client_id (client_dict w) = Some (f, player))
      by (rewrite Hdict; now apply get_middle).
    destruct (poll_holds w client_id f acc (pending client_id) (f, player)
                Hquit_text (Hholds _ (or_introl eq_refl)) Hget)
      as (w1 & Hpoll & Hdict1 & Hsock1 & Hothers1).
    assert (Hholds1 : forall e, In e rest ->
              holds json_loads (sockets w1 (fd_of e)) (pending (fst e))).
    { intros e He. rewrite Hothers1.
      - apply Hholds. now right.
      - intros E. apply Hf_fresh. rewrite <- E. now apply in_map. }
    cbn [poll_all]. unfold Eff.bind. rewrite Hpoll.
    cbn [filter].
    assert (Hst : stays pending (client_id, (f, player))
                  = negb (quits (pending client_id))) by reflexivity.
    rewrite !Hst. clear Hst.
    destruct (quits (pending client_id)) eqn:Hq; cbn [negb map input_of fst].
    + rewrite Hdict, remove_middle in Hdict1 by assumption.
      destruct (IH kept acc w1 Hdict1) as (w' & Hrun & Hd' & Hs' & Ho'); auto.
      { now rewrite keys_app. }
      exists w'. split; [exact Hrun |]. split; [exact Hd' |]. split.
      * intros e [<- | He].
        -- cbn [fd_of fst snd]. rewrite Ho' by assumption. exact Hsock1.
        -- rewrite Hs' by assumption. rewrite Hothers1; [reflexivity |].
           intros E. apply Hf_fresh. rewrite <- E. now apply in_map.
      * intros g Hg. cbn [map fd_of fst snd] in Hg.
        rewrite Ho' by (intros Hin; apply Hg; now right).
        apply Hothers1. intros E. apply Hg. now left.
    + rewrite set_fresh by (intros Hk; apply Hnot_kept, Hacc, Hk).
      assert (Hdict1' : client_dict w1 = (kept ++ [(client_id, (f, player))]) ++ rest)
        by (rewrite Hdict1, Hdict, <- app_assoc; reflexivity).
      destruct (IH (kept ++ [(client_id, (f, player))])
                   (acc ++ [(client_id, decoded (pending client_id))]) w1 Hdict1')
        as (w' & Hrun & Hd' & Hs' & Ho'); auto.
      { rewrite <- app_assoc. cbn [app]. rewrite keys_app. exact Hkeys. }
      { intros k Hk. rewrite keys_app in Hk. rewrite keys_app.
        apply in_app_or in Hk. apply in_or_app.
        destruct Hk as [Hk | Hk]; [left; now apply Hacc | right; exact Hk]. }
      exists w'. split; [| split; [| split]].
      * rewrite Hrun, <- app_assoc. reflexivity.
      * rewrite Hd', <- app_assoc. reflexivity.
      * intros e [<- | He].
        -- cbn [fd_of fst snd]. rewrite Ho' by assumption. exact Hsock1.
        -- rewrite Hs' by assumption. rewrite Hothers1; [reflexivity |].
           intros E. apply Hf_fresh. rewrite <- E. now apply in_map.
      * intros g Hg. cbn [map fd_of fst snd] in Hg.
        rewrite Ho' by (intros Hin; apply Hg; now right).
        apply Hothers1. intros E. apply Hg. now left.
Qed.

(** C5, as the code has it: take a roster of distinct identities and
    connections in which every connection is not closed on this side and
    either holds nothing while its client is there, or holds nothing and
    was closed by its client, or holds a framed list of intents (on a
    connection that was not reset, when QUIT is among them).  One call of
    [get_input] returns without raising or waiting; the roster it leaves
    is the old one without the entries whose message carries QUIT and
    without those whose client closed the connection, the others untouched
    and in order; the result maps each remaining identity to its decoded
    intents, the empty list where nothing was buffered; a client that
    leaves got the acknowledgement and its socket is closed; and no other
    socket changed. *)
Theorem get_input_serves_every_connection
  (pending : uuid -> buffered) (w : world) :
  json_loads Protocol.QUIT_message = Returns (intents [Protocol.QUIT]) ->
  NoDup (Dict.keys (client_dict w)) ->
  NoDup (map fd_of (client_dict w)) ->
  (forall e, In e (client_dict w) ->
             holds json_loads (sockets w (fd_of e)) (pending (fst e))) ->
  exists w',
    get_input json_loads w
    = (Returns (map (input_of pending) (filter (stays pending) (client_dict w))), w')
    /\ client_dict w' = filter (stays pending) (client_dict w)
    /\ (forall e, In e (client_dict w) ->
          sockets w' (fd_of e)
          = after_poll (sockets w (fd_of e)) (pending (fst e)))
    /\ (forall g, ~ In g (map fd_of (client_dict w)) -> sockets w' g = sockets w g).
Proof.
  intros Hquit_text Hkeys Hfds Hholds.
  apply (poll_all_spec pending (client_dict w) [] [] w); auto.
Qed.

(** *** A connection that was reset *)

Lemma send_quit_gone (s : Socket.t) :
  Socket.closed s = false -> Socket.peer s = Socket.PeerGone ->
  Protocol.send_message Protocol.QUIT s = (Raises BrokenPipeError, s).
Proof.
  intros Hopen Hpeer.
  unfold Protocol.send_message, Eff.bind, Eff.lift, Eff.ret, Socket.send.
  cbn [encode utf8_encode Protocol.QUIT]. rewrite Hopen, Hpeer. reflexivity.
Qed.

Lemma poll_reset (w : world) (client_id : uuid) (f : fd) (inputs : inputs_t) :
  json_loads Protocol.QUIT_message = Returns (intents [Protocol.QUIT]) ->
  Socket.inbound (sockets w f) = [] ->
  Socket.peer (sockets w f) = Socket.PeerReset ->
  Socket.closed (sockets w f) = false ->
  exists w',
    poll json_loads client_id f inputs w = (Raises BrokenPipeError, w')
    /\ client_dict w' = client_dict w
    /\ sockets w' f = Socket.with_peer Socket.PeerGone (sockets w f)
    /\ forall g, g <> f -> sockets w' g = sockets w g.
Proof.
  intros Hquit_text Hin Hpeer Hopen.
  unfold poll, Eff.bind. rewrite on_socket_run.
  unfold Socket.select_ready, Socket.readable. rewrite Hopen, Hin, Hpeer. cbn [fst snd].
  rewrite on_socket_run, sockets_set_id.
  rewrite (receive_message_peer_reset _ Hin Hpeer Hopen). cbn [fst snd].
  unfold Eff.lift. rewrite Hquit_text, py_in_intents.
  change (contains Protocol.QUIT [Protocol.QUIT]) with true. cbv beta iota.
  rewrite on_socket_run, sockets_set_same.
  rewrite send_quit_gone by (cbn; assumption || reflexivity). cbn [fst snd].
  eexists. split; [reflexivity |]. split; [reflexivity |]. split.
  - rewrite sockets_set_same. reflexivity.
  - intros g Hg. cbn. destruct (Nat.eqb_spec g f); [contradiction | reflexivity].
Qed.

(** C10 (what the code does): the string [receive_message] returns when
    the header read meets a reset is the eight characters of
    [json.dumps] of the list with QUIT, the payload of a client that
    quits.  But [get_input] does not treat the two alike: for the first
    client of the roster whose connection was reset and holds nothing, the
    acknowledgement is sent on the dead connection, [send_message] raises
    [BrokenPipeError] and so does [get_input]; the socket is not closed,
    no acknowledgement is queued and the roster is as it was. *)
Theorem get_input_raises_on_a_reset_connection
  (w : world) (client_id : uuid) (f : fd) (player : Player) (rest : roster) :
  json_loads Protocol.QUIT_message = Returns (intents [Protocol.QUIT]) ->
  client_dict w = (client_id, (f, player)) :: rest ->
  Socket.inbound (sockets w f) = [] ->
  Socket.peer (sockets w f) = Socket.PeerReset ->
  Socket.closed (sockets w f) = false ->
  (Protocol.QUIT_message = [91; 34; 81; 85; 73; 84; 34; 93]%N
   /\ length Protocol.QUIT_message = 8%nat
   /\ Protocol.QUIT_message = Json.dumps [Protocol.QUIT])
  /\ Protocol.receive_message (sockets w f)
     = (Returns Protocol.QUIT_message,
        Socket.with_peer Socket.PeerGone (sockets w f))
  /\ exists w',
       get_input json_loads w = (Raises BrokenPipeError, w')
       /\ client_dict w' = client_dict w
       /\ sockets w' f = Socket.with_peer Socket.PeerGone (sockets w f)
       /\ Socket.closed (sockets w' f) = false
       /\ Socket.outbound (sockets w' f) = Socket.outbound (sockets w f)
       /\ forall g, g <> f -> sockets w' g = sockets w g.
Proof.
  intros Hquit_text Hdict Hin Hpeer Hopen.
  split; [repeat split |]. split; [now apply receive_message_peer_reset |].
  destruct (poll_reset w client_id f [] Hquit_text Hin Hpeer Hopen)
    as (w' & Hpoll & Hd & Hs & Ho).
  exists w'. unfold get_input. rewrite Hdict. cbn [poll_all].
  unfold Eff.bind. rewrite Hpoll.
  split; [reflexivity |]. split; [now rewrite Hd, Hdict |].
  split; [exact Hs |]. rewrite Hs. repeat split; auto.
Qed.

End Polling.

(** *** The sample rosters *)

Lemma loads_plain_quit :
  loads_plain Protocol.QUIT_message = Returns (intents [Protocol.QUIT]).
Proof. reflexivity. Qed.

Lemma three_clients_hold :
  forall e, In e (client_dict three_clients) ->
            holds loads_plain (sockets three_clients (fd_of e)) (three_pending (fst e)).
Proof.
  intros e [<- | [<- | [<- | []]]].
  - repeat split.
  - cbn. split; [| repeat split; discriminate].
    exists (map byte_of_N (Json.dumps [RIGHT])). split; [reflexivity | cbn; lia].
  - cbn. split; [| repeat split].
    exists (map byte_of_N (Json.dumps [Protocol.QUIT])).
    split; [reflexivity | cbn; lia].
Qed.

Lemma three_clients_distinct :
  NoDup (Dict.keys (client_dict three_clients))
  /\ NoDup (map fd_of (client_dict three_clients)).
Proof.
  split; cbn; repeat constructor; cbn; intuition (try discriminate; try lia).
Qed.

Lemma get_input_serves_every_connection_witness :
  exists w',
    get_input loads_plain three_clients
    = (Returns (map (input_of three_pending)
                    (filter (stays three_pending) (client_dict three_clients))), w')
    /\ client_dict w' = filter (stays three_pending) (client_dict three_clients)
    /\ (forall e, In e (client_dict three_clients) ->
          sockets w' (fd_of e)
          = after_poll (sockets three_clients (fd_of e)) (three_pending (fst e)))
    /\ (forall g, ~ In g (map fd_of (client_dict three_clients)) ->
                  sockets w' g = sockets three_clients g).
Proof.
  apply (get_input_serves_every_connection loads_plain three_pending three_clients).
  - exact loads_plain_quit.
  - exact (proj1 three_clients_distinct).
  - exact (proj2 three_clients_distinct).
  - exact three_clients_hold.
Defined.

(** C5, as the claim words it, fails for a client that closed its side of
    the connection: nothing is buffered for it, and yet it gets no empty
    list of intents; it is acknowledged, closed and removed, though no
    message with QUIT came from it. *)
Lemma get_input_removes_a_client_that_sent_nothing :
  Socket.inbound (sockets departed_client 3%nat) = []
  /\ fst (get_input loads_plain departed_client) = Returns []
  /\ client_dict (snd (get_input loads_plain departed_client)) = []
  /\ sockets (snd (get_input loads_plain departed_client)) 3%nat
     = Socket.mk [] Socket.PeerClosed (framed Protocol.QUIT) true.
Proof. repeat split. Qed.

Lemma get_input_raises_on_a_reset_connection_witness :
  (Protocol.QUIT_message = [91; 34; 81; 85; 73; 84; 34; 93]%N
   /\ length Protocol.QUIT_message = 8%nat
   /\ Protocol.QUIT_message = Json.dumps [Protocol.QUIT])
  /\ Protocol.receive_message (sockets dropped_client 3%nat)
     = (Returns Protocol.QUIT_message,
        Socket.with_peer Socket.PeerGone (sockets dropped_client 3%nat))
  /\ exists w',
       get_input loads_plain dropped_client = (Raises BrokenPipeError, w')
       /\ client_dict w' = client_dict dropped_client
       /\ sockets w' 3%nat
          = Socket.with_peer Socket.PeerGone (sockets dropped_client 3%nat)
       /\ Socket.closed (sockets w' 3%nat) = false
       /\ Socket.outbound (sockets w' 3%nat)
          = Socket.outbound (sockets dropped_client 3%nat)
       /\ forall g, g <> 3%nat -> sockets w' g = sockets dropped_client g.
Proof.
  apply (get_input_raises_on_a_reset_connection loads_plain dropped_client
           21%N 3%nat at_rest []); reflexivity.
Defined.

(** *** Messages the server does not expect *)

Section Faults.
Variable json_loads : str -> outcome pyval.

Lemma framed_ready (s : Socket.t) (message : str) (payload tail : bytes) :
  encode message = Returns payload -> len payload <= 99999999 ->
  Socket.inbound s = framed message ++ tail ->
  Socket.readable s = true.
Proof.
  intros Henc Hlen Hin. unfold Socket.readable. rewrite Hin.
  pose proof (framed_nonempty message payload Henc Hlen) as Hne.
  destruct (framed message); [contradiction | reflexivity].
Qed.

(** X14: [get_input] catches nothing.  When the first client of the roster
    has sent a frame whose text [json.loads] rejects, or whose value is no
    container ([null], a boolean, a number: ["QUIT" in message] is then a
    [TypeError]), the call raises that exception; the frame has been taken
    off the connection, the roster is as it was and no input is returned
    for anyone. *)
Theorem get_input_does_not_catch_decoding_errors
  (w : world) (client_id : uuid) (f : fd) (player : Player) (rest : roster)
  (message : str) (payload tail : bytes) (e : exn) :
  client_dict w = (client_id, (f, player)) :: rest ->
  encode message = Returns payload -> len payload <= 99999999 ->
  Socket.inbound (sockets w f) = framed message ++ tail ->
  Socket.closed (sockets w f) = false ->
  json_loads message = Raises e
  \/ (exists v, json_loads message = Returns v /\ scalar v = true /\ e = TypeError) ->
  exists w',
    get_input json_loads w = (Raises e, w')
    /\ client_dict w' = client_dict w
    /\ sockets w' f = Socket.with_inbound tail (sockets w f)
    /\ forall g, g <> f -> sockets w' g = sockets w g.
Proof.
  intros Hdict Henc Hlen Hin Hopen Hbad.
  pose proof (framed_ready _ _ _ _ Henc Hlen Hin) as Hready.
  pose proof (receive_message_framed message payload (sockets w f) tail
                Henc Hlen Hin Hopen) as Hrecv.
  unfold get_input. rewrite Hdict. cbn [poll_all].
  unfold Eff.bind at 1. unfold poll, Eff.bind. rewrite on_socket_run.
  unfold Socket.select_ready. rewrite Hopen, Hready. cbn [fst snd].
  rewrite on_socket_run, sockets_set_id, Hrecv. cbn [fst snd].
  unfold Eff.lift.
  assert (Hw : forall w1,
             w1 = set_socket f (Socket.with_inbound tail (sockets w f))
                    (set_socket f (sockets w f) w) ->
             client_dict w1 = client_dict w
             /\ sockets w1 f = Socket.with_inbound tail (sockets w f)
             /\ forall g, g <> f -> sockets w1 g = sockets w g).
  { intros w1 ->. split; [reflexivity |]. split; [apply sockets_set_same |].
    intros g Hg. now rewrite sockets_set_other, sockets_set_id. }
  destruct Hbad as [Hl | (v & Hl & Hs & ->)]; rewrite Hl.
  - eexists. split; [reflexivity |]. rewrite <- Hdict. now apply Hw.
  - destruct v; try discriminate; cbn [py_in];
      (eexists; split; [reflexivity |]; rewrite <- Hdict; now apply Hw).
Qed.

(** X15: the test [in] of [get_input] is Python's: on a connection whose
    peer is there, a message that is a JSON string in which QUIT occurs
    anywhere, or a JSON object with a key QUIT, disconnects the client just
    as the list with QUIT does: the acknowledgement is sent, the socket
    closed and the identity removed. *)
Theorem a_text_that_contains_QUIT_disconnects
  (w : world) (client_id : uuid) (f : fd) (player : Player)
  (message : str) (payload tail : bytes) (v : pyval) :
  client_dict w = [(client_id, (f, player))] ->
  encode message = Returns payload -> len payload <= 99999999 ->
  Socket.inbound (sockets w f) = framed message ++ tail ->
  Socket.closed (sockets w f) = false ->
  Socket.peer (sockets w f) = Socket.PeerOpen ->
  json_loads message = Returns v ->
  (exists s, v = PStr s /\ is_substring Protocol.QUIT s = true)
  \/ (exists d, v = PDict d
                /\ existsb (fun kv => str_eqb Protocol.QUIT (fst kv)) d = true) ->
  exists w',
    get_input json_loads w = (Returns [], w')
    /\ client_dict w' = []
    /\ sockets w' f
       = Socket.mk tail (Socket.peer (sockets w f))
                   (Socket.outbound (sockets w f) ++ framed Protocol.QUIT) true
    /\ forall g, g <> f -> sockets w' g = sockets w g.
Proof.
  intros Hdict Henc Hlen Hin Hopen Hpeer Hloads Hquit.
  pose proof (framed_ready _ _ _ _ Henc Hlen Hin) as Hready.
  pose proof (receive_message_framed message payload (sockets w f) tail
                Henc Hlen Hin Hopen) as Hrecv.
  pose proof (sendable_open _ Hopen Hpeer) as Hsend.
  assert (Hpy : py_in Protocol.QUIT v = Returns true).
  { destruct Hquit as [(s & -> & Hs) | (d & -> & Hd)]; cbn [py_in]; now f_equal. }
  assert (Hget : Dict.get N.eqb client_id (client_dict w) = Some (f, player)).
  { rewrite Hdict. cbn. now rewrite N.eqb_refl. }
  destruct (poll_quits json_loads w client_id f [] message _ v (f, player)
              Hopen Hready Hrecv Hsend Hloads Hpy Hget)
    as (w' & Hpoll & Hd & Hs & Ho).
  exists w'. unfold get_input. rewrite Hdict. cbn [poll_all].
  unfold Eff.bind. rewrite Hpoll. split; [reflexivity |].
  split; [| split; [exact Hs | exact Ho]].
  rewrite Hd, Hdict. cbn. now rewrite N.eqb_refl.
Qed.

End Faults.

(** The text of an empty frame is no JSON. *)
Lemma get_input_does_not_catch_decoding_errors_witness :
  exists w',
    get_input loads_plain empty_frame_client = (Raises JSONDecodeError, w')
    /\ client_dict w' = client_dict empty_frame_client
    /\ sockets w' 3%nat
       = Socket.with_inbound [] (sockets empty_frame_client 3%nat)
    /\ forall g, g <> 3%nat -> sockets w' g = sockets empty_frame_client g.
Proof.
  apply (get_input_does_not_catch_decoding_errors loads_plain empty_frame_client
           31%N 3%nat at_rest [] [] [] [] JSONDecodeError);
    try reflexivity; [cbn; lia | now left].
Defined.

Lemma a_text_that_contains_QUIT_disconnects_witness :
  exists w',
    get_input loads_literal mosquito_client = (Returns [], w')
    /\ client_dict w' = []
    /\ sockets w' 3%nat
       = Socket.mk [] (Socket.peer (sockets mosquito_client 3%nat))
                   (Socket.outbound (sockets mosquito_client 3%nat)
                    ++ framed Protocol.QUIT) true
    /\ forall g, g <> 3%nat -> sockets w' g = sockets mosquito_client g.
Proof.
  apply (a_text_that_contains_QUIT_disconnects loads_literal mosquito_client
           32%N 3%nat at_rest mosquito (map byte_of_N mosquito) []
           (PStr (str_of_string "MOSQUITO")));
    try reflexivity; [cbn; lia |].
  left. eexists. split; reflexivity.
Defined.

End ServerFacts.
(** ** The client *)

Module ClientFacts.
Import Py Objects Server Client Readings BuiltinFacts FramingFacts ServerFacts.
Local Open Scope eff_scope.

Lemma handle_input_value (s : pygame) :
  handle_input s
  = (Returns (requests_of s),
     mkPygame (keyboard s) (if K_ESCAPE (keyboard s) then queue s else [])).
Proof.
  unfold handle_input, requests_of, chosen, Eff.bind, get_pressed, event_get, Eff.ret.
  destruct s as [[esc w s a d] q]. cbn [keyboard queue K_ESCAPE K_w K_s K_a K_d].
  destruct esc; cbn [orb]; [reflexivity |].
  cbn [queue keyboard].
  destruct (quit_requested q); [reflexivity |].
  destruct w, s, a, d; reflexivity.
Qed.

Lemma chosen_cases (k : keys) :
  contains Protocol.QUIT (chosen k) = false
  /\ NoDup (chosen k) /\ (length (chosen k) <= 4)%nat.
Proof.
  unfold chosen. destruct (K_w k), (K_s k), (K_a k), (K_d k);
    (split; [reflexivity |]); (split; [| cbn; lia]); cbn [app];
    repeat constructor; cbn; intuition discriminate.
Qed.

(** X16: [handle_input] returns either exactly [["QUIT"]] (Escape is down,
    or a QUIT event waits in the queue) or the movement intents of the keys
    W, S, A, D that are down, in the order UP, DOWN, LEFT, RIGHT, each at
    most once, so at most four; QUIT never comes with another intent.  The
    waiting events are taken off the queue, unless Escape is down, in which
    case the queue is not read. *)
Theorem handle_input_asks_to_quit_or_to_move (s : pygame) :
  exists actions s',
    handle_input s = (Returns actions, s')
    /\ keyboard s' = keyboard s
    /\ queue s' = (if K_ESCAPE (keyboard s) then queue s else [])
    /\ contains Protocol.QUIT actions
       = K_ESCAPE (keyboard s) || quit_requested (queue s)
    /\ (contains Protocol.QUIT actions = true -> actions = [Protocol.QUIT])
    /\ (contains Protocol.QUIT actions = false -> actions = chosen (keyboard s))
    /\ NoDup actions /\ (length actions <= 4)%nat.
Proof.
  exists (requests_of s). eexists. split; [apply handle_input_value |].
  split; [reflexivity |]. split; [reflexivity |].
  destruct (chosen_cases (keyboard s)) as (Hq & Hnd & Hlen).
  unfold requests_of.
  destruct (K_ESCAPE (keyboard s) || quit_requested (queue s)).
  - split; [reflexivity |]. split; [reflexivity |]. split; [discriminate |].
    split; [repeat constructor; intros [] | cbn; lia].
  - rewrite Hq. split; [reflexivity |]. split; [discriminate |]. auto.
Qed.

(** The texts the client can send can all be framed. *)
Lemma requests_encode (s : pygame) :
  exists payload,
    encode (Json.dumps (requests_of s)) = Returns payload
    /\ len payload <= 99999999.
Proof.
  unfold requests_of, chosen.
  destruct (K_ESCAPE (keyboard s) || quit_requested (queue s)).
  - eexists. split; [reflexivity | cbn; lia].
  - destruct (K_w (keyboard s)), (K_s (keyboard s)), (K_a (keyboard s)),
      (K_d (keyboard s)); eexists; (split; [reflexivity | cbn; lia]).
Qed.

Lemma requests_quit (s : pygame) :
  contains Protocol.QUIT (requests_of s) = true -> requests_of s = [Protocol.QUIT].
Proof.
  unfold requests_of. destruct (K_ESCAPE (keyboard s) || quit_requested (queue s));
    [reflexivity |].
  now rewrite (proj1 (chosen_cases (keyboard s))).
Qed.

Lemma report_input_value (c : client) :
  sendable (sock c) = true ->
  let requests := requests_of (inputs c) in
  report_input c
  = (Returns (if contains Protocol.QUIT requests then Exit else Draw),
     mkClient (mkPygame (keyboard (inputs c))
                 (if K_ESCAPE (keyboard (inputs c)) then queue (inputs c) else []))
              (match requests with
               | [] => sock c
               | _ :: _ =>
                   Socket.with_outbound
                     (Socket.outbound (sock c) ++ framed (Json.dumps requests)) (sock c)
               end)
              (state c)).
Proof.
  intros Hopen requests.
  destruct (requests_encode (inputs c)) as (payload & Henc & Hlen).
  pose proof (requests_quit (inputs c)) as Hquit.
  unfold report_input, Eff.bind, on_inputs, on_sock, Eff.zoom, Eff.ret.
  rewrite handle_input_value.
  change (requests_of (inputs c)) with requests in Henc, Hquit |- *.
  clearbody requests.
  cbn [inputs sock state].
  destruct (contains Protocol.QUIT requests) eqn:Hq.
  - pose proof (Hquit eq_refl) as ->.
    rewrite (send_message_frames _ payload) by assumption.
    rewrite <- (framed_frame (Json.dumps [Protocol.QUIT]) payload) by assumption.
    reflexivity.
  - destruct requests as [| r rs] eqn:Hr; [reflexivity |].
    rewrite (send_message_frames _ payload) by assumption.
    rewrite <- (framed_frame (Json.dumps (r :: rs)) payload) by assumption.
    reflexivity.
Qed.

(** X17: what the player asks for in a round of the client, the server gets
    in the next call of [get_input]: the client frames [json.dumps] of the
    list [handle_input] returned (nothing when the list is empty), and the
    server, on a connection that holds just that, maps the identity of the
    client to the same list (the empty list when nothing came); with QUIT
    the client leaves its loop and the server drops it from the roster. *)
Theorem client_intents_reach_the_server
  (json_loads : str -> outcome pyval) (c : client) (w : world)
  (client_id : uuid) (f : fd) (player : Player) :
  let requests := requests_of (inputs c) in
  sendable (sock c) = true ->
  Socket.outbound (sock c) = [] ->
  client_dict w = [(client_id, (f, player))] ->
  Socket.closed (sockets w f) = false ->
  Socket.peer (sockets w f) = Socket.PeerOpen ->
  Socket.inbound (sockets w f) = Socket.outbound (sock (snd (report_input c))) ->
  json_loads (Json.dumps requests) = Returns (intents requests) ->
  fst (handle_input (inputs c)) = Returns requests
  /\ fst (report_input c)
     = Returns (if contains Protocol.QUIT requests then Exit else Draw)
  /\ exists w',
       get_input json_loads w
       = (Returns (if contains Protocol.QUIT requests then []
                   else [(client_id, intents requests)]), w')
       /\ client_dict w'
          = (if contains Protocol.QUIT requests then [] else client_dict w).
Proof.
  intros requests Hopen Hout Hdict Hsopen Hpeer Hin Hloads.
  rewrite handle_input_value, (report_input_value c Hopen) in *.
  fold requests in Hin |- *. cbn [fst snd sock] in Hin |- *.
  split; [reflexivity |]. split; [reflexivity |].
  destruct (requests_encode (inputs c)) as (payload & Henc & Hlen).
  fold requests in Henc.
  set (b := match requests with
            | [] => Silent
            | _ :: _ => Message (Json.dumps requests) requests []
            end).
  assert (Hholds : holds json_loads (sockets w f) b).
  { subst b. destruct requests as [| r rs] eqn:Hr.
    - cbn. rewrite Hin, Hout. auto.
    - cbn [holds]. split; [eauto |]. split; [| repeat split; auto].
      + rewrite Hin. cbn [Socket.outbound Socket.with_outbound]. rewrite Hout.
        now rewrite app_nil_r.
      + intros _. now apply sendable_open. }
  assert (Hget : Dict.get N.eqb client_id (client_dict w) = Some (f, player)).
  { rewrite Hdict. cbn. now rewrite N.eqb_refl. }
  assert (Hlive : b <> Departed) by (subst b; destruct requests; discriminate).
  destruct (poll_live json_loads w client_id f [] b (f, player) Hlive Hholds Hget)
    as (w' & Hpoll & Hd & _).
  assert (Hquits : quits b = contains Protocol.QUIT requests)
    by (subst b; destruct requests; reflexivity).
  assert (Hdec : decoded b = intents requests)
    by (subst b; destruct requests; reflexivity).
  rewrite Hquits, Hdec in *.
  exists w'. unfold get_input. rewrite Hdict at 1. cbn [poll_all].
  unfold Eff.bind. rewrite Hpoll. split.
  - destruct (contains Protocol.QUIT requests); reflexivity.
  - rewrite Hd. destruct (contains Protocol.QUIT requests); [| reflexivity].
    rewrite Hdict. cbn. now rewrite N.eqb_refl.
Qed.

Section ReceivingFacts.
Variable json_loads : str -> outcome pyval.

Lemma merge_returns (d : list (str * pyval)) : forall st,
  fst (merge d st) = Returns tt.
Proof.
  induction d as [| [k v] d IH]; intros st; [reflexivity |].
  cbn [merge]. unfold Eff.bind, set_item. cbn [hashable]. apply IH.
Qed.

Lemma round_takes_a_state (c : client) (t : str) (rest : bytes) :
  state_text json_loads t ->
  Socket.closed (sock c) = false ->
  Socket.inbound (sock c) = framed t ++ rest ->
  receive_state_round json_loads c
  = (Returns false,
     mkClient (inputs c) (Socket.with_inbound rest (sock c))
              (merged json_loads [t] (state c))).
Proof.
  intros ((payload & Henc & Hlen) & Hne & (d & Hloads)) Hopen Hin.
  unfold receive_state_round, Eff.bind, on_sock, on_state, Eff.zoom, Eff.lift, Eff.ret.
  rewrite (receive_message_framed t payload (sock c) rest Henc Hlen Hin Hopen).
  rewrite Hne, Hloads. cbn [state sock inputs dict_update].
  unfold merged. cbn [fold_left]. rewrite Hloads. cbn [dict_update].
  pose proof (merge_returns d (state c)) as Hm.
  destruct (merge d (state c)) as [o st']. cbn [fst snd] in *. subst o.
  reflexivity.
Qed.

Lemma round_takes_the_acknowledgement (c : client) (rest : bytes) :
  Socket.closed (sock c) = false ->
  Socket.inbound (sock c) = framed Protocol.QUIT ++ rest ->
  receive_state_round json_loads c
  = (Returns true, mkClient (inputs c) (Socket.with_inbound rest (sock c)) (state c)).
Proof.
  intros Hopen Hin.
  unfold receive_state_round, Eff.bind, on_sock, Eff.zoom, Eff.ret.
  rewrite (receive_message_framed Protocol.QUIT (bytes_of_string "QUIT")
             (sock c) rest); [reflexivity | reflexivity | cbn; lia | assumption..].
Qed.

(** X18: [receive_state] returns when the acknowledgement ["QUIT"] of the
    server arrives: with any number of state messages buffered before it,
    each a JSON object, it merges them into the state dictionary in order,
    returns at the acknowledgement and leaves what follows it unread. *)
Theorem receive_state_returns_on_the_acknowledgement
  (texts : list str) (c : client) (rest : bytes) :
  Forall (state_text json_loads) texts ->
  Socket.closed (sock c) = false ->
  Socket.inbound (sock c) = flat_map framed texts ++ framed Protocol.QUIT ++ rest ->
  receive_state json_loads (S (length texts)) c
  = (Returns (Some tt),
     mkClient (inputs c) (Socket.with_inbound rest (sock c))
              (merged json_loads texts (state c))).
Proof.
  intros Htexts. revert c. induction Htexts as [| t texts Ht _ IH]; intros c Hopen Hin.
  - cbn [flat_map app length] in *. cbn [receive_state]. unfold Eff.bind.
    now rewrite (round_takes_the_acknowledgement c rest Hopen Hin).
  - cbn [flat_map length] in *. rewrite <- app_assoc in Hin.
    change (receive_state json_loads (S (S (length texts))) c)
      with ((returned <- receive_state_round json_loads ;;
             if (returned : bool) then Eff.ret (Some tt)
             else receive_state json_loads (S (length texts)))%eff c).
    unfold Eff.bind at 1.
    rewrite (round_takes_a_state c t _ Ht Hopen Hin).
    rewrite IH by (assumption || reflexivity).
    reflexivity.
Qed.

(** X19: the string that [receive_message] returns for a lost connection is
    the JSON text of the list [["QUIT"]], not the string ["QUIT"] that
    [receive_state] tests for: the loop goes on, decodes it and hands the
    list to [dict.update], which raises [ValueError] ("QUIT" is no pair).
    So [receive_state] does not return when the server is gone; it raises,
    and the state dictionary is as it was. *)
Theorem receive_state_fails_on_the_disconnect_signal
  (c : client) (s' : Socket.t) (rounds : nat) :
  json_loads Protocol.QUIT_message = Returns (intents [Protocol.QUIT]) ->
  Protocol.receive_message (sock c) = (Returns Protocol.QUIT_message, s') ->
  receive_state json_loads (S rounds) c
  = (Raises ValueError, mkClient (inputs c) s' (state c)).
Proof.
  intros Hloads Hrecv.
  cbn [receive_state].
  unfold Eff.bind, receive_state_round, Eff.bind, on_sock, on_state, Eff.zoom,
    Eff.lift, Eff.ret.
  rewrite Hrecv.
  change (str_eqb Protocol.QUIT_message Protocol.QUIT) with false. cbn iota.
  rewrite Hloads. reflexivity.
Qed.

End ReceivingFacts.

(** X20: the farewell goes full circle on a connection that is up in both
    directions.  When the player quits, the client sends the frame of
    [json.dumps] of the list with QUIT and leaves its loop; the server, at
    its next [get_input], removes the client, closes the socket after
    sending the acknowledgement; and [receive_state] at the client, once
    that acknowledgement has arrived, returns. *)
Theorem quit_handshake_completes
  (json_loads : str -> outcome pyval) (c : client) (w : world)
  (client_id : uuid) (f : fd) (player : Player) :
  K_ESCAPE (keyboard (inputs c)) || quit_requested (queue (inputs c)) = true ->
  sendable (sock c) = true ->
  Socket.outbound (sock c) = [] ->
  client_dict w = [(client_id, (f, player))] ->
  Socket.closed (sockets w f) = false ->
  Socket.peer (sockets w f) = Socket.PeerOpen ->
  Socket.outbound (sockets w f) = [] ->
  Socket.inbound (sockets w f) = Socket.outbound (sock (snd (report_input c))) ->
  json_loads Protocol.QUIT_message = Returns (intents [Protocol.QUIT]) ->
  let c' := snd (report_input c) in
  fst (report_input c) = Returns Exit
  /\ exists w',
       get_input json_loads w = (Returns [], w')
       /\ client_dict w' = []
       /\ Socket.closed (sockets w' f) = true
       /\ receive_state json_loads 1
            (mkClient (inputs c')
                      (Socket.with_inbound (Socket.outbound (sockets w' f)) (sock c'))
                      (state c'))
          = (Returns (Some tt),
             mkClient (inputs c') (Socket.with_inbound [] (sock c')) (state c')).
Proof.
  intros Hquit Hopen Hout Hdict Hsopen Hspeer Hsout Hin Hloads c'.
  assert (Hcopen : Socket.closed (sock c) = false).
  { unfold sendable in Hopen. destruct (Socket.closed (sock c)); [discriminate | reflexivity]. }
  assert (Hreq : requests_of (inputs c) = [Protocol.QUIT])
    by (unfold requests_of; now rewrite Hquit).
  subst c'. rewrite (report_input_value c Hopen) in *. rewrite Hreq in *.
  cbn [fst snd sock inputs state contains existsb] in Hin |- *.
  change (str_eqb Protocol.QUIT Protocol.QUIT || false) with true. cbn iota.
  split; [reflexivity |].
  cbn [Socket.outbound Socket.with_outbound] in Hin. rewrite Hout in Hin.
  cbn [app] in Hin.
  assert (Hholds : holds json_loads (sockets w f)
                     (Message (Json.dumps [Protocol.QUIT]) [Protocol.QUIT] [])).
  { cbn [holds]. split; [| split; [| repeat split; auto]].
    - exists (map byte_of_N Protocol.QUIT_message). split; [reflexivity | cbn; lia].
    - now rewrite app_nil_r.
    - intros _. now apply sendable_open. }
  assert (Hget : Dict.get N.eqb client_id (client_dict w) = Some (f, player)).
  { rewrite Hdict. cbn. now rewrite N.eqb_refl. }
  destruct (poll_holds json_loads w client_id f [] _ (f, player) Hloads Hholds Hget)
    as (w' & Hpoll & Hd & Hs & _).
  cbn [quits after_poll contains existsb] in Hpoll, Hd, Hs.
  change (str_eqb Protocol.QUIT Protocol.QUIT || false) with true in Hpoll, Hd, Hs.
  cbn iota in Hpoll, Hd, Hs.
  exists w'. unfold get_input. rewrite Hdict at 1. cbn [poll_all].
  unfold Eff.bind at 1. rewrite Hpoll.
  split; [reflexivity |]. split.
  { rewrite Hd, Hdict. cbn. now rewrite N.eqb_refl. }
  rewrite Hs. split; [reflexivity |].
  cbn [Socket.outbound]. rewrite Hsout. cbn [app].
  cbn [receive_state]. unfold Eff.bind.
  rewrite (round_takes_the_acknowledgement json_loads _ []);
    [reflexivity | exact Hcopen |].
  cbn [sock Socket.inbound Socket.with_inbound]. now rewrite app_nil_r.
Qed.

(** *** The samples *)

Lemma client_intents_reach_the_server_witness :
  fst (handle_input (inputs playing_client)) = Returns [UP; RIGHT]
  /\ fst (report_input playing_client) = Returns Draw
  /\ exists w',
       get_input loads_plain playing_server
       = (Returns [(41%N, intents [UP; RIGHT])], w')
       /\ client_dict w' = client_dict playing_server.
Proof.
  apply (client_intents_reach_the_server loads_plain playing_client playing_server
           41%N 3%nat at_rest); reflexivity.
Defined.

Lemma two_states_are_state_texts : Forall (state_text loads_flat_object) two_states.
Proof.
  repeat constructor.
  - eexists. split; [reflexivity | cbn; lia].
  - eexists. reflexivity.
  - eexists. split; [reflexivity | cbn; lia].
  - eexists. reflexivity.
Qed.

Lemma receive_state_returns_on_the_acknowledgement_witness :
  receive_state loads_flat_object 3 updated_client
  = (Returns (Some tt),
     mkClient (inputs updated_client)
              (Socket.with_inbound [] (sock updated_client))
              (merged loads_flat_object two_states (state updated_client))).
Proof.
  apply (receive_state_returns_on_the_acknowledgement loads_flat_object two_states
           updated_client []);
    [exact two_states_are_state_texts | reflexivity | reflexivity].
Defined.

Lemma receive_state_fails_on_the_disconnect_signal_witness :
  receive_state loads_plain 1 orphan_client
  = (Raises ValueError,
     mkClient (inputs orphan_client) (Socket.incoming [] Socket.PeerGone)
              (state orphan_client)).
Proof.
  apply (receive_state_fails_on_the_disconnect_signal loads_plain orphan_client
           (Socket.incoming [] Socket.PeerGone) 0); reflexivity.
Defined.

Lemma quit_handshake_completes_witness :
  let c' := snd (report_input leaving_client) in
  fst (report_input leaving_client) = Returns Exit
  /\ exists w',
       get_input loads_plain leaving_server = (Returns [], w')
       /\ client_dict w' = []
       /\ Socket.closed (sockets w' 3%nat) = true
       /\ receive_state loads_plain 1
            (mkClient (inputs c')
                      (Socket.with_inbound (Socket.outbound (sockets w' 3%nat)) (sock c'))
                      (state c'))
          = (Returns (Some tt),
             mkClient (inputs c') (Socket.with_inbound [] (sock c')) (state c')).
Proof.
  apply (quit_handshake_completes loads_plain leaving_client leaving_server
           42%N 3%nat at_rest); reflexivity.
Defined.

(** The dictionary of the sample after the two states. *)
Lemma two_states_merged :
  merged loads_flat_object two_states []
  = [(PStr (str_of_string "PLAYERS"), PStr (str_of_string "none"))].
Proof. reflexivity. Qed.

End ClientFacts.

(** ** New connections and the state that is sent *)

Module LobbyFacts.
Import Py Objects Server Client Readings BuiltinFacts FramingFacts ServerFacts.
Local Open Scope eff_scope.

(** *** The text of an identity *)

Lemma escape_plain c : plain c -> Json.escape_char c = [c].
Proof.
  unfold plain, Json.quote, Json.backslash. intros (Hr & Hq & Hb).
  unfold Json.escape_char, Json.quote, Json.backslash.
  repeat match goal with
         | |- context [N.eqb ?a ?b] => destruct (N.eqb_spec a b); [lia |]
         end.
  destruct (N.leb_spec 32 c), (N.leb_spec c 126); try lia. reflexivity.
Qed.

Lemma dumps_str_plain s :
  Forall plain s -> Json.dumps_str s = Json.quote :: s ++ [Json.quote].
Proof.
  intros H. unfold Json.dumps_str. do 2 f_equal.
  induction H as [| c t Hc _ IH]; [reflexivity |].
  cbn [flat_map]. now rewrite escape_plain, IH.
Qed.

Lemma hex_digit_plain c : is_digit_char 16 c -> plain c.
Proof.
  intros (d & Hd & ->). unfold plain, digit_char, Json.quote, Json.backslash.
  destruct (N.ltb_spec d 10); lia.
Qed.

Lemma hex32_spec (u : uuid) :
  (u < 2 ^ 128)%N ->
  length (hex32 u) = 32%nat /\ Forall plain (hex32 u).
Proof.
  intros Hu. unfold hex32.
  assert (Hlen : (length (digits 16 u) <= 32)%nat).
  { unfold digits.
    pose proof (digits_fuel_length_le 16 (S (N.size_nat u)) 32 u []
                  ltac:(lia) ltac:(lia)) as H.
    cbn [length] in H. rewrite Nat.add_0_r in H. apply H.
    change (16 ^ N.of_nat 32)%N with (2 ^ 128)%N. exact Hu. }
  split.
  - rewrite length_app, repeat_length. lia.
  - apply Forall_app. split.
    + apply Forall_forall. intros c Hc%repeat_spec. subst c.
      unfold plain, zero_char, Json.quote, Json.backslash. lia.
    + eapply Forall_impl; [apply hex_digit_plain |].
      apply digits_chars. lia.
Qed.

Section SliceFacts.
Context {A : Type}.

Lemma slice_length (l : list A) (a b : Z) :
  0 <= a <= b -> b <= len l ->
  length (slice l (Some a) (Some b)) = Z.to_nat (b - a).
Proof.
  intros Ha Hb. unfold slice, slice_index, len in *.
  destruct (Z.ltb_spec a 0); [lia |]. destruct (Z.ltb_spec b 0); [lia |].
  rewrite length_firstn, length_skipn. lia.
Qed.

Lemma Forall_first (P : A -> Prop) n : forall l,
  Forall P l -> Forall P (firstn n l).
Proof.
  induction n as [| n IH]; intros l H; [constructor |].
  destruct H; cbn [firstn]; constructor; auto.
Qed.

Lemma Forall_skip (P : A -> Prop) n : forall l,
  Forall P l -> Forall P (skipn n l).
Proof.
  induction n as [| n IH]; intros l H; [exact H |].
  destruct H; cbn [skipn]; [constructor | auto].
Qed.

Lemma slice_Forall (P : A -> Prop) (l : list A) lo hi :
  Forall P l -> Forall P (slice l lo hi).
Proof.
  intros H. unfold slice. apply Forall_first, Forall_skip, H.
Qed.

End SliceFacts.

Lemma dash_plain : plain minus_sign.
Proof. unfold plain, minus_sign, Json.quote, Json.backslash. lia. Qed.

Lemma str_of_uuid_spec (u : uuid) :
  (u < 2 ^ 128)%N ->
  length (str_of_uuid u) = 36%nat /\ Forall plain (str_of_uuid u).
Proof.
  intros Hu. destruct (hex32_spec u Hu) as [Hlen Hall].
  unfold str_of_uuid. set (hex := hex32 u) in *.
  assert (Hl : len hex = 32) by (unfold len; rewrite Hlen; reflexivity).
  split.
  - replace (slice hex None (Some 8)) with (slice hex (Some 0) (Some 8))
      by (unfold slice, slice_index; rewrite Hl; reflexivity).
    replace (slice hex (Some 20) None) with (slice hex (Some 20) (Some 32))
      by (unfold slice, slice_index; rewrite Hl; reflexivity).
    rewrite !length_app. cbn [length]. rewrite !length_app. cbn [length].
    rewrite !length_app. cbn [length]. rewrite !length_app. cbn [length].
    rewrite !slice_length by lia. reflexivity.
  - repeat (apply Forall_app; split; [now apply slice_Forall |];
            apply Forall_cons; [exact dash_plain |]).
    now apply slice_Forall.
Qed.

Lemma plain_ascii s : Forall plain s -> Forall ascii s.
Proof. apply Forall_impl. unfold plain, ascii. lia. Qed.

Lemma greeting_spec (client_id : uuid) :
  (client_id < 2 ^ 128)%N ->
  greeting client_id
  = str_of_string "{" ++ Json.quote :: str_of_string "ID" ++ Json.quote
    :: str_of_string ": " ++ Json.quote :: str_of_uuid client_id
    ++ Json.quote :: str_of_string "}"
  /\ encode (greeting client_id) = Returns (map byte_of_N (greeting client_id))
  /\ length (greeting client_id) = 46%nat.
Proof.
  intros Hu. destruct (str_of_uuid_spec client_id Hu) as [Hlen Hall].
  assert (Hshape : greeting client_id
            = str_of_string "{" ++ Json.quote :: str_of_string "ID" ++ Json.quote
              :: str_of_string ": " ++ Json.quote :: str_of_uuid client_id
              ++ Json.quote :: str_of_string "}").
  { unfold greeting, Json.dumps_dict. cbn [map Json.join fst snd].
    rewrite (dumps_str_plain (str_of_uuid client_id) Hall).
    cbn. rewrite <- !app_assoc. reflexivity. }
  split; [exact Hshape |]. split.
  - unfold encode. rewrite utf8_encode_ascii; [reflexivity |].
    rewrite Hshape. cbn.
    repeat (apply Forall_cons; [unfold ascii, Json.quote; lia |]).
    apply Forall_app. split; [now apply plain_ascii |].
    repeat (apply Forall_cons; [unfold ascii, Json.quote; lia |]). constructor.
  - rewrite Hshape. cbn. rewrite length_app, Hlen. reflexivity.
Qed.

Lemma greeting_frame (client_id : uuid) :
  (client_id < 2 ^ 128)%N ->
  framed (greeting client_id)
  = bytes_of_string "00000046" ++ map byte_of_N (greeting client_id).
Proof.
  intros Hu. destruct (greeting_spec client_id Hu) as (_ & Henc & Hlen).
  rewrite (framed_frame _ _ Henc); unfold len; rewrite length_map, Hlen;
    [reflexivity | lia].
Qed.

Section Lobby.
Variable hash : str -> Z.
Variable rect_coordinate : Number.t -> option Z.

Lemma on_net_run {A} (m : Eff.M world A) (l : lobby) :
  on_net m l = (fst (m (net l)), mkLobby (snd (m (net l))) (posted l)).
Proof. unfold on_net, Eff.zoom. now destruct (m (net l)). Qed.

Lemma Player_init_origin (client_id : uuid) (c : color) (origin : Z) :
  rect_coordinate (Number.PyInt 0) = Some origin ->
  Player_init rect_coordinate client_id (Number.PyInt 0) (Number.PyInt 0) c
  = Returns (newcomer origin client_id c).
Proof.
  intros Horigin. unfold Player_init, assign_topleft. rewrite Horigin. reflexivity.
Qed.

(** The first step of [welcome]: the greeting is queued on the new
    connection. *)
Lemma greeting_sent (l : lobby) (f : fd) (client_id : uuid) :
  (client_id < 2 ^ 128)%N ->
  sendable (sockets (net l) f) = true ->
  on_net (on_socket f (Protocol.send_message (greeting client_id))) l
  = (Returns tt,
     mkLobby (set_socket f
                (Socket.with_outbound
                   (Socket.outbound (sockets (net l) f) ++ framed (greeting client_id))
                   (sockets (net l) f))
                (net l))
             (posted l)).
Proof.
  intros Hu Hopen. destruct (greeting_spec client_id Hu) as (_ & Henc & Hlen).
  assert (Hl : len (map byte_of_N (greeting client_id)) <= 99999999)
    by (unfold len; rewrite length_map, Hlen; lia).
  rewrite on_net_run, on_socket_run.
  rewrite (send_message_frames _ _ _ Henc Hl Hopen).
  rewrite <- (framed_frame _ _ Henc Hl). reflexivity.
Qed.

(** X21: one round of [receive_clients] for a connection that takes what
    is sent (it is open on this side and the peer did not reset it) and an
    identity whose colour can be computed, pygame storing the coordinate 0
    of the new player as [origin]: the client is first sent one frame of
    54 bytes, the header [00000046] and the JSON object with the key ID
    and the 36 characters of the identity; then the roster maps the
    identity to the socket and a new player at (0, 0), at rest, of the
    colour of the identity; and the PLAYER_JOINED event is posted last.  No
    other socket is touched. *)
Theorem welcome_registers_the_client
  (l : lobby) (f : fd) (client_id : uuid) (origin : Z) :
  (client_id < 2 ^ 128)%N ->
  sendable (sockets (net l) f) = true ->
  0x100000 <= Z.abs (hash (str_of_uuid client_id)) ->
  rect_coordinate (Number.PyInt 0) = Some origin ->
  exists l' c,
    welcome hash rect_coordinate f client_id l = (Returns tt, l')
    /\ strToRGB hash (str_of_uuid client_id) = Returns c
    /\ client_dict (net l')
       = Dict.set N.eqb client_id (f, newcomer origin client_id c)
                  (client_dict (net l))
    /\ posted l' = posted l ++ [client_id]
    /\ sockets (net l') f
       = Socket.with_outbound
           (Socket.outbound (sockets (net l) f)
            ++ bytes_of_string "00000046" ++ map byte_of_N (greeting client_id))
           (sockets (net l) f)
    /\ forall g, g <> f -> sockets (net l') g = sockets (net l) g.
Proof.
  intros Hu Hopen Hhash Horigin.
  assert (Hc : exists c, strToRGB hash (str_of_uuid client_id) = Returns c).
  { rewrite ColorFacts.strToRGB_value. unfold rgb_of_hash.
    destruct (Z.ltb_spec (Z.abs (hash (str_of_uuid client_id))) 0x100000);
      [lia | eauto]. }
  destruct Hc as [c Hc].
  unfold welcome. fold (greeting client_id).
  unfold Eff.bind at 1. rewrite (greeting_sent l f client_id Hu Hopen).
  unfold Eff.bind at 1. unfold Eff.lift at 1. rewrite Hc.
  unfold Eff.bind at 1. unfold Eff.lift at 1.
  rewrite (Player_init_origin client_id c origin Horigin).
  unfold Eff.bind. rewrite on_net_run. cbn [set_client net posted fst snd post].
  eexists. exists c. split; [reflexivity |]. split; [reflexivity |].
  cbn [net posted client_dict sockets set_socket].
  split; [reflexivity |]. split; [reflexivity |]. split.
  - rewrite Nat.eqb_refl, <- (greeting_frame client_id Hu). reflexivity.
  - intros g Hg. now destruct (Nat.eqb_spec g f).
Qed.

(** X22: the greeting is sent before the colour is computed.  On a
    connection that takes what is sent, when [strToRGB] raises (a hash
    below [16^5] in magnitude), the round of [receive_clients] raises
    [ValueError] after the client got its identity: the roster is as it was
    and no event is posted. *)
Theorem welcome_greets_before_it_registers (l : lobby) (f : fd) (client_id : uuid) :
  (client_id < 2 ^ 128)%N ->
  sendable (sockets (net l) f) = true ->
  Z.abs (hash (str_of_uuid client_id)) < 0x100000 ->
  exists l',
    welcome hash rect_coordinate f client_id l = (Raises ValueError, l')
    /\ client_dict (net l') = client_dict (net l)
    /\ posted l' = posted l
    /\ sockets (net l') f
       = Socket.with_outbound
           (Socket.outbound (sockets (net l) f)
            ++ bytes_of_string "00000046" ++ map byte_of_N (greeting client_id))
           (sockets (net l) f)
    /\ forall g, g <> f -> sockets (net l') g = sockets (net l) g.
Proof.
  intros Hu Hopen Hhash.
  assert (Hc : strToRGB hash (str_of_uuid client_id) = Raises ValueError).
  { rewrite ColorFacts.strToRGB_value. unfold rgb_of_hash.
    destruct (Z.ltb_spec (Z.abs (hash (str_of_uuid client_id))) 0x100000);
      [reflexivity | lia]. }
  unfold welcome. fold (greeting client_id).
  unfold Eff.bind at 1. rewrite (greeting_sent l f client_id Hu Hopen).
  unfold Eff.bind at 1. unfold Eff.lift at 1. rewrite Hc.
  eexists. split; [reflexivity |].
  cbn [net posted client_dict sockets set_socket].
  split; [reflexivity |]. split; [reflexivity |]. split.
  - rewrite Nat.eqb_refl, <- (greeting_frame client_id Hu). reflexivity.
  - intros g Hg. now destruct (Nat.eqb_spec g f).
Qed.

End Lobby.

Lemma sample_uuid_text :
  str_of_uuid sample_uuid = str_of_string "1b4e28ba-2fa1-11d2-883f-0016d3cca427".
Proof. vm_compute. reflexivity. Qed.

Lemma welcome_registers_the_client_witness :
  exists l' c,
    welcome sample_hash c_int 3%nat sample_uuid empty_lobby = (Returns tt, l')
    /\ strToRGB sample_hash (str_of_uuid sample_uuid) = Returns c
    /\ client_dict (net l')
       = Dict.set N.eqb sample_uuid (3%nat, newcomer 0 sample_uuid c)
                  (client_dict (net empty_lobby))
    /\ posted l' = posted empty_lobby ++ [sample_uuid]
    /\ sockets (net l') 3%nat
       = Socket.with_outbound
           (Socket.outbound (sockets (net empty_lobby) 3%nat)
            ++ bytes_of_string "00000046" ++ map byte_of_N (greeting sample_uuid))
           (sockets (net empty_lobby) 3%nat)
    /\ forall g, g <> 3%nat -> sockets (net l') g = sockets (net empty_lobby) g.
Proof.
  apply (welcome_registers_the_client sample_hash c_int empty_lobby 3%nat
           sample_uuid 0);
    [reflexivity | reflexivity | vm_compute; discriminate | reflexivity].
Defined.

Lemma welcome_greets_before_it_registers_witness :
  exists l',
    welcome (fun _ => 0) c_int 3%nat sample_uuid empty_lobby
    = (Raises ValueError, l')
    /\ client_dict (net l') = client_dict (net empty_lobby)
    /\ posted l' = posted empty_lobby
    /\ sockets (net l') 3%nat
       = Socket.with_outbound
           (Socket.outbound (sockets (net empty_lobby) 3%nat)
            ++ bytes_of_string "00000046" ++ map byte_of_N (greeting sample_uuid))
           (sockets (net empty_lobby) 3%nat)
    /\ forall g, g <> 3%nat -> sockets (net l') g = sockets (net empty_lobby) g.
Proof.
  apply (welcome_greets_before_it_registers (fun _ => 0) c_int empty_lobby
           3%nat sample_uuid); reflexivity.
Defined.

Section Greeted.
Variable json_loads : str -> outcome pyval.

(** X23: the client learns the identity the server drew: when what the
    server queued in [receive_clients] has arrived, the first lines of the
    client's [main] return the 36-character text of the identity, whether
    or not the server went on to register the client. *)
Theorem client_learns_its_identity
  (hash : str -> Z) (rect_coordinate : Number.t -> option Z)
  (l : lobby) (f : fd) (client_id : uuid) (c : client) :
  (client_id < 2 ^ 128)%N ->
  sendable (sockets (net l) f) = true ->
  Socket.outbound (sockets (net l) f) = [] ->
  Socket.closed (sock c) = false ->
  Socket.inbound (sock c)
  = Socket.outbound
      (sockets (net (snd (welcome hash rect_coordinate f client_id l))) f) ->
  json_loads (greeting client_id)
  = Returns (PDict [(ID, PStr (str_of_uuid client_id))]) ->
  receive_client_id json_loads c
  = (Returns (PStr (str_of_uuid client_id)),
     mkClient (inputs c) (Socket.with_inbound [] (sock c)) (state c)).
Proof.
  intros Hu Hopen Hout Hcopen Hin Hloads.
  destruct (greeting_spec client_id Hu) as (_ & Henc & Hlen).
  assert (Hl : len (map byte_of_N (greeting client_id)) <= 99999999)
    by (unfold len; rewrite length_map, Hlen; lia).
  assert (Hwire : Socket.inbound (sock c) = framed (greeting client_id) ++ []).
  { rewrite Hin. unfold welcome. fold (greeting client_id).
    unfold Eff.bind at 1. rewrite (greeting_sent l f client_id Hu Hopen).
    rewrite Hout, app_nil_r. cbn [app].
    unfold Eff.bind at 1. unfold Eff.lift at 1.
    destruct (strToRGB hash (str_of_uuid client_id)) as [col | e |].
    - unfold Eff.bind at 1. unfold Eff.lift at 1.
      destruct (Player_init rect_coordinate client_id (Number.PyInt 0)
                  (Number.PyInt 0) col) as [player | e |].
      + unfold Eff.bind. rewrite on_net_run.
        cbn [set_client net posted fst snd post sockets set_socket].
        now rewrite Nat.eqb_refl.
      + cbn [snd net sockets set_socket]. now rewrite Nat.eqb_refl.
      + cbn [snd net sockets set_socket]. now rewrite Nat.eqb_refl.
    - cbn [snd net sockets set_socket]. now rewrite Nat.eqb_refl.
    - cbn [snd net sockets set_socket]. now rewrite Nat.eqb_refl. }
  unfold receive_client_id, Eff.bind, on_sock, Eff.zoom, Eff.lift.
  rewrite (receive_message_framed _ _ (sock c) [] Henc Hl Hwire Hcopen).
  rewrite Hloads. cbn [subscript Dict.get].
  change (str_eqb ID ID) with true. reflexivity.
Qed.

(** X24: when the connection is lost before the greeting,
    [receive_message] returns the text of [["QUIT"]], and the first lines
    of the client's [main] raise [TypeError]: a list is subscripted with
    the string ["ID"]. *)
Theorem client_start_fails_without_a_server (c : client) (s' : Socket.t) :
  json_loads Protocol.QUIT_message = Returns (intents [Protocol.QUIT]) ->
  Protocol.receive_message (sock c) = (Returns Protocol.QUIT_message, s') ->
  receive_client_id json_loads c
  = (Raises TypeError, mkClient (inputs c) s' (state c)).
Proof.
  intros Hloads Hrecv.
  unfold receive_client_id, Eff.bind, on_sock, Eff.zoom, Eff.lift.
  rewrite Hrecv, Hloads. reflexivity.
Qed.

End Greeted.

Section BroadcastFacts.
Variable json_dumps : pyval -> str.

Lemma send_all_spec (text : str) (payload : bytes) (entries : roster) :
  encode text = Returns payload -> len payload <= 99999999 ->
  forall w : world,
    NoDup (map fd_of entries) ->
    (forall e, In e entries -> sendable (sockets w (fd_of e)) = true) ->
    exists w',
      send_all entries text w = (Returns tt, w')
      /\ client_dict w' = client_dict w
      /\ (forall e, In e entries ->
            sockets w' (fd_of e)
            = Socket.with_outbound
                (Socket.outbound (sockets w (fd_of e)) ++ framed text)
                (sockets w (fd_of e)))
      /\ (forall g, ~ In g (map fd_of entries) -> sockets w' g = sockets w g).
Proof.
  intros Henc Hlen.
  induction entries as [| [client_id [f player]] entries IH]; intros w Hnd Hopen.
  - exists w. cbn. repeat split; auto. intros e [].
  - cbn [map fd_of fst snd] in Hnd. inversion Hnd as [| ? ? Hfresh Hnd']; subst.
    pose proof (Hopen _ (or_introl eq_refl)) as Hf. cbn [fd_of fst snd] in Hf.
    cbn [send_all]. unfold Eff.bind at 1. rewrite on_socket_run.
    rewrite (send_message_frames text payload _ Henc Hlen Hf).
    rewrite <- (framed_frame text payload Henc Hlen). cbn [fst snd].
    set (w1 := set_socket f _ w).
    assert (Hother : forall g, g <> f -> sockets w1 g = sockets w g)
      by (intros g Hg; subst w1; now rewrite sockets_set_other).
    destruct (IH w1 Hnd') as (w' & Hrun & Hd & Hs & Ho).
    { intros e He. rewrite Hother; [apply Hopen; now right |].
      intros E. apply Hfresh. rewrite <- E. now apply in_map. }
    exists w'. split; [exact Hrun |]. split; [exact Hd |]. split.
    + intros e [<- | He].
      * cbn [fd_of fst snd]. rewrite Ho by assumption.
        subst w1. now rewrite sockets_set_same.
      * rewrite Hs by assumption. rewrite Hother; [reflexivity |].
        intros E. apply Hfresh. rewrite <- E. now apply in_map.
    + intros g Hg. cbn [map fd_of fst snd] in Hg.
      rewrite Ho by (intros Hin; apply Hg; now right).
      apply Hother. intros E. apply Hg. now left.
Qed.

(** X25: when every connection of the roster takes what is sent (none was
    closed on this side or reset by its peer), [send_state] sends every
    client of the roster the same single frame, that of [json.dumps] of the
    state, after what was already queued for it; the roster and the sockets
    outside the roster are as they were. *)
Theorem send_state_reaches_every_client
  (level_objects : list sprite) (w : world) (payload : bytes) :
  let text := json_dumps (full_state level_objects) in
  encode text = Returns payload -> len payload <= 99999999 ->
  NoDup (map fd_of (client_dict w)) ->
  (forall e, In e (client_dict w) -> sendable (sockets w (fd_of e)) = true) ->
  exists w',
    send_state json_dumps level_objects w = (Returns tt, w')
    /\ client_dict w' = client_dict w
    /\ (forall e, In e (client_dict w) ->
          sockets w' (fd_of e)
          = Socket.with_outbound
              (Socket.outbound (sockets w (fd_of e)) ++ framed text)
              (sockets w (fd_of e)))
    /\ (forall g, ~ In g (map fd_of (client_dict w)) -> sockets w' g = sockets w g).
Proof.
  intros text Henc Hlen Hnd Hopen.
  exact (send_all_spec text payload (client_dict w) Henc Hlen w Hnd Hopen).
Qed.

End BroadcastFacts.

Lemma str_eqb_eq (a b : str) : str_eqb a b = true <-> a = b.
Proof. unfold str_eqb. destruct (list_eq_dec N.eq_dec a b); split; congruence. Qed.

Lemma set_new (d : catalog) (k : str) (v : pyval) :
  ~ In k (map fst d) -> Dict.set str_eqb k v d = d ++ [(k, v)].
Proof.
  induction d as [| [k' v'] d IH]; intros Hfresh; cbn; [reflexivity |].
  cbn in Hfresh. destruct (str_eqb k k') eqn:E.
  - apply str_eqb_eq in E. subst. tauto.
  - f_equal. apply IH. tauto.
Qed.

Lemma gather_spec (level_objects : list sprite) : forall layout players,
  NoDup (map fst layout ++ map fst (map obstacle_entry (obstacles_of level_objects))) ->
  NoDup (map fst players ++ map fst (map player_entry (players_of level_objects))) ->
  gather level_objects layout players
  = (layout ++ map obstacle_entry (obstacles_of level_objects),
     players ++ map player_entry (players_of level_objects)).
Proof.
  induction level_objects as [| [o | p] rest IH]; intros layout players Hl Hp.
  - cbn. now rewrite !app_nil_r.
  - cbn [gather obstacles_of players_of map] in *.
    rewrite set_new by (apply NoDup_remove_2 in Hl; intros H; apply Hl, in_or_app; now left).
    rewrite IH.
    + now rewrite <- app_assoc.
    + rewrite map_app, <- app_assoc. exact Hl.
    + exact Hp.
  - cbn [gather obstacles_of players_of map] in *.
    rewrite set_new by (apply NoDup_remove_2 in Hp; intros H; apply Hp, in_or_app; now left).
    rewrite IH.
    + now rewrite <- app_assoc.
    + exact Hl.
    + rewrite map_app, <- app_assoc. exact Hp.
Qed.

(** X26: the state that is sent has the two catalogs LEVEL_LAYOUT and
    PLAYERS, in that order; for objects of distinct identities each obstacle
    is listed under LEVEL_LAYOUT with the integers of its box and its
    colour, each player under PLAYERS with the two floats of its position
    and its colour, each under the text of its identity and in the order of
    the group. *)
Theorem full_state_lists_every_object (level_objects : list sprite) :
  NoDup (map fst (map obstacle_entry (obstacles_of level_objects))) ->
  NoDup (map fst (map player_entry (players_of level_objects))) ->
  full_state level_objects
  = PDict [(str_of_string "LEVEL_LAYOUT",
            PDict (map obstacle_entry (obstacles_of level_objects)));
           (str_of_string "PLAYERS",
            PDict (map player_entry (players_of level_objects)))].
Proof.
  intros Hl Hp. unfold full_state. now rewrite gather_spec.
Qed.
(** *** The samples *)

Lemma client_learns_its_identity_witness :
  receive_client_id loads_flat_object greeted_client
  = (Returns (PStr (str_of_uuid sample_uuid)),
     mkClient (inputs greeted_client) (Socket.with_inbound [] (sock greeted_client))
              (state greeted_client)).
Proof.
  apply (client_learns_its_identity loads_flat_object sample_hash c_int
           empty_lobby 3%nat sample_uuid greeted_client); vm_compute; reflexivity.
Defined.

Lemma client_start_fails_without_a_server_witness :
  receive_client_id loads_plain orphan_client
  = (Raises TypeError,
     mkClient (inputs orphan_client) (Socket.incoming [] Socket.PeerGone)
              (state orphan_client)).
Proof.
  apply (client_start_fails_without_a_server loads_plain orphan_client
           (Socket.incoming [] Socket.PeerGone));
    reflexivity.
Defined.

Lemma three_clients_open :
  forall e, In e (client_dict three_clients) ->
            sendable (sockets three_clients (fd_of e)) = true.
Proof. intros e [<- | [<- | [<- | []]]]; reflexivity. Qed.

Lemma send_state_reaches_every_client_witness :
  let text := dumps_value (full_state obstacles_only) in
  exists w',
    send_state dumps_value obstacles_only three_clients = (Returns tt, w')
    /\ client_dict w' = client_dict three_clients
    /\ (forall e, In e (client_dict three_clients) ->
          sockets w' (fd_of e)
          = Socket.with_outbound
              (Socket.outbound (sockets three_clients (fd_of e)) ++ framed text)
              (sockets three_clients (fd_of e)))
    /\ (forall g, ~ In g (map fd_of (client_dict three_clients)) ->
                  sockets w' g = sockets three_clients g).
Proof.
  apply (send_state_reaches_every_client dumps_value obstacles_only three_clients
           (map byte_of_N (dumps_value (full_state obstacles_only)))).
  - vm_compute. reflexivity.
  - vm_compute. discriminate.
  - exact (proj2 three_clients_distinct).
  - exact three_clients_open.
Defined.

Lemma full_state_lists_every_object_witness :
  full_state sample_level
  = PDict [(str_of_string "LEVEL_LAYOUT",
            PDict (map obstacle_entry (obstacles_of sample_level)));
           (str_of_string "PLAYERS",
            PDict (map player_entry (players_of sample_level)))].
Proof.
  apply (full_state_lists_every_object sample_level).
  - repeat constructor; vm_compute; intuition discriminate.
  - repeat constructor; vm_compute; intuition discriminate.
Defined.

(** The text that the clients of the sample are sent. *)
Lemma obstacles_only_text :
  dumps_value (full_state obstacles_only)
  = str_of_string "{" ++ Json.dumps_str (str_of_string "LEVEL_LAYOUT")
    ++ str_of_string ": {"
    ++ Json.dumps_str (str_of_string "00000000-0000-0000-0000-000000000001")
    ++ str_of_string ": {" ++ Json.dumps_str (str_of_string "X")
    ++ str_of_string ": 1000, " ++ Json.dumps_str (str_of_string "Y")
    ++ str_of_string ": 1000, " ++ Json.dumps_str (str_of_string "WIDTH")
    ++ str_of_string ": 10, " ++ Json.dumps_str (str_of_string "HEIGHT")
    ++ str_of_string ": 10, " ++ Json.dumps_str (str_of_string "COLOR")
    ++ str_of_string ": [0, 60, 0]}, "
    ++ Json.dumps_str (str_of_string "00000000-0000-0000-0000-000000000002")
    ++ str_of_string ": {" ++ Json.dumps_str (str_of_string "X")
    ++ str_of_string ": 60, " ++ Json.dumps_str (str_of_string "Y")
    ++ str_of_string ": 0, " ++ Json.dumps_str (str_of_string "WIDTH")
    ++ str_of_string ": 50, " ++ Json.dumps_str (str_of_string "HEIGHT")
    ++ str_of_string ": 50, " ++ Json.dumps_str (str_of_string "COLOR")
    ++ str_of_string ": [0, 60, 0]}}, "
    ++ Json.dumps_str (str_of_string "PLAYERS") ++ str_of_string ": {}}".
Proof. vm_compute. reflexivity. Qed.

(** *** Input collection, then the state *)

(** The sockets of the entries that stay are distinct when those of the
    roster were. *)
Lemma kept_sockets_distinct (keep : uuid * (fd * Player) -> bool) (entries : roster) :
  NoDup (map fd_of entries) -> NoDup (map fd_of (filter keep entries)).
Proof.
  induction entries as [| entry entries IH]; cbn [filter map]; [auto |].
  intros Hnd. inversion Hnd as [| ? ? Hfresh Hrest]; subst.
  destruct (keep entry); cbn [map]; [| auto].
  constructor; [| auto].
  intros Hin. apply Hfresh. apply in_map_iff in Hin. destruct Hin as (x & Hx & Hin).
  apply filter_In in Hin. apply in_map_iff. exists x. tauto.
Qed.

Lemma after_poll_open (s : Socket.t) (b : buffered) :
  sendable s = true -> quits b = false ->
  sendable (after_poll s b) = true.
Proof.
  destruct b as [| | json_data actions rest]; cbn [quits after_poll].
  - tauto.
  - discriminate.
  - intros Hopen ->. exact Hopen.
Qed.

Section Round.
Variable json_loads : str -> outcome pyval.
Variable json_dumps : pyval -> str.

(** X27: [get_input] leaves a roster that [send_state] can serve: it closes
    exactly the sockets it removes.  When every connection takes what is
    sent (none was reset) and holds nothing or a framed list of intents,
    [get_input] followed by [send_state] both return; each client that
    stays gets the frame of the state after what was queued for it, and a
    client that left gets the acknowledgement only, on a socket that is
    then closed. *)
Theorem served_clients_get_the_state
  (pending : uuid -> buffered) (level_objects : list sprite) (w : world)
  (payload : bytes) :
  let text := json_dumps (full_state level_objects) in
  json_loads Protocol.QUIT_message = Returns (intents [Protocol.QUIT]) ->
  NoDup (Dict.keys (client_dict w)) ->
  NoDup (map fd_of (client_dict w)) ->
  (forall e, In e (client_dict w) ->
             holds json_loads (sockets w (fd_of e)) (pending (fst e))) ->
  (forall e, In e (client_dict w) -> sendable (sockets w (fd_of e)) = true) ->
  encode text = Returns payload -> len payload <= 99999999 ->
  exists inputs w1 w2,
    get_input json_loads w = (Returns inputs, w1)
    /\ send_state json_dumps level_objects w1 = (Returns tt, w2)
    /\ client_dict w2 = filter (stays pending) (client_dict w)
    /\ forall e, In e (client_dict w) ->
         let polled := after_poll (sockets w (fd_of e)) (pending (fst e)) in
         sockets w2 (fd_of e)
         = if quits (pending (fst e)) then polled
           else Socket.with_outbound (Socket.outbound polled ++ framed text) polled.
Proof.
  intros text Hquit_text Hkeys Hfds Hholds Hsendable Henc Hlen.
  destruct (poll_all_spec json_loads pending (client_dict w) [] [] w eq_refl
              Hkeys Hfds (fun k H => H) Hquit_text Hholds)
    as (w1 & Hrun & Hd1 & Hs1 & Ho1).
  cbn [app] in Hrun, Hd1.
  assert (Hnd1 : NoDup (map fd_of (client_dict w1)))
    by (rewrite Hd1; now apply kept_sockets_distinct).
  assert (Hopen1 : forall e, In e (client_dict w1) ->
                     sendable (sockets w1 (fd_of e)) = true).
  { intros e He. rewrite Hd1 in He. apply filter_In in He. destruct He as [He Hst].
    rewrite (Hs1 e He). apply after_poll_open; [now apply Hsendable |].
    unfold stays in Hst. now apply negb_true_iff in Hst. }
  destruct (send_all_spec text payload (client_dict w1) Henc Hlen w1 Hnd1 Hopen1)
    as (w2 & Hsend & Hd2 & Hs2 & Ho2).
  eexists. exists w1, w2. split; [exact Hrun |]. split; [exact Hsend |].
  split; [now rewrite Hd2 |].
  intros e He polled. subst polled.
  destruct (quits (pending (fst e))) eqn:Hq.
  - rewrite Ho2; [now apply Hs1 |].
    rewrite Hd1. intros Hin. apply in_map_iff in Hin.
    destruct Hin as (x & Hx & Hin). apply filter_In in Hin. destruct Hin as [Hin Hst].
    assert (x = e); [| subst x; unfold stays in Hst; rewrite Hq in Hst; discriminate].
    clear - Hfds He Hin Hx. induction (client_dict w) as [| a l IH]; [contradiction |].
    cbn in Hfds. inversion Hfds as [| ? ? Hfresh Hnd]; subst.
    destruct He as [-> | He], Hin as [-> | Hin]; auto.
    + exfalso. apply Hfresh. rewrite <- Hx. now apply in_map.
    + exfalso. apply Hfresh. rewrite Hx. now apply in_map.
  - assert (He1 : In e (client_dict w1)).
    { rewrite Hd1. apply filter_In. split; [exact He |].
      unfold stays. now rewrite Hq. }
    rewrite (Hs2 e He1), (Hs1 e He). reflexivity.
Qed.

End Round.

Lemma served_clients_get_the_state_witness :
  let text := dumps_value (full_state obstacles_only) in
  exists inputs w1 w2,
    get_input loads_plain three_clients = (Returns inputs, w1)
    /\ send_state dumps_value obstacles_only w1 = (Returns tt, w2)
    /\ client_dict w2 = filter (stays three_pending) (client_dict three_clients)
    /\ forall e, In e (client_dict three_clients) ->
         let polled := after_poll (sockets three_clients (fd_of e))
                                  (three_pending (fst e)) in
         sockets w2 (fd_of e)
         = if quits (three_pending (fst e)) then polled
           else Socket.with_outbound (Socket.outbound polled ++ framed text) polled.
Proof.
  apply (served_clients_get_the_state loads_plain dumps_value three_pending
           obstacles_only three_clients
           (map byte_of_N (dumps_value (full_state obstacles_only)))).
  - exact loads_plain_quit.
  - exact (proj1 three_clients_distinct).
  - exact (proj2 three_clients_distinct).
  - exact three_clients_hold.
  - exact three_clients_open.
  - vm_compute. reflexivity.
  - vm_compute. discriminate.
Defined.

End LobbyFacts.
